(** * The API-client core of the VRChat avatar manager (SMP.py)

  A shallow embedding of the non-visual logic of [SMP.py]: pagination
  state, the two-factor dialog, login routing, the paginated avatar fetch,
  the client-side filter, download-URL resolution and the streamed file
  download; then the colour arithmetic of the buttons, the downloader
  tab, the saved configuration, the card grid, the session attributes and
  the walk through the pages.  Widget styling, logging and animation are
  left out: they do not touch the state modelled here.

  Conventions.
  - Python [str] is modelled by [string] (a sequence of 8-bit characters);
    [str.lower], [str.isdigit] and [str.strip] are modelled on the ASCII
    range, where a character is one byte.  Every statement whose truth
    depends on them is stated for ASCII text ([isascii]).
  - Python [int] is [Z]; [//] is [Z.div] (both floor), [int(a / b)] on
    non-negative operands is [Z.quot].
  - JSON documents and Python dicts are [gmap string value].
  - A Python function that may raise returns a [result]. *)

From Stdlib Require Import ZArith String Ascii Strings.Byte List Lia DecimalString.
From Stdlib Require Import Sorting.Sorted.
From Stdlib Require HexadecimalString.
From stdpp Require Import base option gmap strings list.

#[local] Set Warnings "-register-all".
#[local] Arguments String.append !_ _ / : simpl nomatch.
#[local] Open Scope Z_scope.

(** ** Python values and builtins *)
Module Py.

(** Values as they come out of [response.json()]. *)
Inductive value : Type :=
| VNone
| VBool (b : bool)
| VInt (n : Z)
| VStr (s : string)
| VList (l : list value)
| VDict (d : gmap string value).

Inductive exn : Type :=
| AttributeError
| TypeError
| OSError
| Exception (msg : string).

Inductive result (A : Type) : Type :=
| Return (a : A)
| Raise (e : exn).
#[global] Arguments Return {A} a.
#[global] Arguments Raise {A} e.

(** Sequencing: an exception skips the rest of the block.  With these
    instances [x ← m; k] is stdpp's bind notation. *)
#[global] Instance result_ret : MRet result := λ A a, Return a.
#[global] Instance result_bind : MBind result := λ A B k m,
  match m with
  | Return a => k a
  | Raise e => Raise e
  end.

(** [bool(v)] *)
Definition truthy (v : value) : bool :=
  match v with
  | VNone => false
  | VBool b => b
  | VInt n => negb (n =? 0)
  | VStr s => negb (String.eqb s "")
  | VList l => match l with [] => false | _ :: _ => true end
  | VDict d => negb (bool_decide (d = ∅))
  end.

(** [s.find(sub)]: index of the first occurrence, [None] for -1. *)
Fixpoint find (sub s : string) : option nat :=
  if String.prefix sub s then Some 0%nat
  else match s with
       | EmptyString => None
       | String _ s' => S <$> find sub s'
       end.

(** [sub in s] *)
Definition contains (sub s : string) : bool :=
  match find sub s with Some _ => true | None => false end.

(** [sub] occurs in [s]: the meaning of [sub in s]. *)
Definition occurs_in (sub s : string) : Prop := ∃ a b, s = a +:+ sub +:+ b.

(** [s[:n]] and [s[n:]] for [0 <= n]. *)
Fixpoint take (n : nat) (s : string) : string :=
  match n, s with
  | S k, String c s' => String c (take k s')
  | _, _ => EmptyString
  end.

Fixpoint drop (n : nat) (s : string) : string :=
  match n, s with
  | S k, String _ s' => drop k s'
  | _, _ => s
  end.

(** No proper end of [sep] is also a start of it, so two occurrences of
    [sep] never overlap. *)
Definition borderless (sep : string) : bool :=
  forallb
    (λ k, negb (String.eqb (drop k sep) (take (String.length sep - k) sep)))
    (seq 1 (String.length sep - 1)).

(** [s.split(sep)] for a non-empty separator: cut at each occurrence found
    by scanning from the left.  Every cut consumes at least one character,
    so [S (length s)] rounds are enough. *)
Fixpoint split_rounds (rounds : nat) (sep s : string) : list string :=
  match rounds with
  | O => [s]
  | S k =>
      match find sep s with
      | None => [s]
      | Some i => take i s :: split_rounds k sep (drop (i + String.length sep) s)
      end
  end.

Definition split (sep s : string) : list string :=
  split_rounds (S (String.length s)) sep s.

(** [l[0]] on the list returned by [split], which is never empty. *)
Definition first (l : list string) : string :=
  match l with
  | x :: _ => x
  | [] => EmptyString
  end.

(** [c.lower()] and [c.isdigit()] on ASCII. *)
Definition lower_ascii (c : ascii) : ascii :=
  let n := nat_of_ascii c in
  if ((65 <=? n)%nat && (n <=? 90)%nat)%bool then ascii_of_nat (n + 32) else c.

Fixpoint lower (s : string) : string :=
  match s with
  | EmptyString => EmptyString
  | String c s' => String (lower_ascii c) (lower s')
  end.

Definition isdigit (c : ascii) : bool :=
  let n := nat_of_ascii c in ((48 <=? n)%nat && (n <=? 57)%nat)%bool.

(** [s.isascii()]: every character is below 128.  On such text a character
    is one byte, [str.lower] folds the letters A to Z and nothing else, and
    [str.isdigit] holds of 0 to 9 only. *)
Fixpoint isascii (s : string) : bool :=
  match s with
  | EmptyString => true
  | String c s' => (nat_of_ascii c <? 128)%nat && isascii s'
  end.

(** [''.join(filter(pred, s))] *)
Fixpoint filter_chars (pred : ascii → bool) (s : string) : string :=
  match s with
  | EmptyString => EmptyString
  | String c s' =>
      if pred c then String c (filter_chars pred s') else filter_chars pred s'
  end.

(** [str(n)] for an integer. *)
Definition str (n : Z) : string := NilEmpty.string_of_int (Z.to_int n).

(** [l[start:end]] with Python's treatment of negative and out-of-range
    bounds. *)
Definition clamp_index (len i : Z) : Z :=
  let i := if i <? 0 then i + len else i in
  Z.max 0 (Z.min len i).

Definition slice {A} (l : list A) (start stop : Z) : list A :=
  let len := Z.of_nat (length l) in
  let a := clamp_index len start in
  let b := clamp_index len stop in
  firstn (Z.to_nat (b - a)) (skipn (Z.to_nat a) l).

End Py.


(** ** [PaginationWidget] *)
Module PaginationWidget.

Record t : Type := {
  current_page : Z;
  total_pages : Z;
  items_per_page : Z;
}.

(** [__init__] *)
Definition init : t :=
  {| current_page := 1; total_pages := 1; items_per_page := 50 |}.

Definition set_page_count (total_items : Z) (self : t) : t :=
  let total_pages :=
    Z.max 1 ((total_items + items_per_page self - 1) / items_per_page self) in
  {| current_page := Z.min (current_page self) total_pages;
     total_pages := total_pages;
     items_per_page := items_per_page self |}.

(** The three methods below end by emitting [pageChanged]; they return the
    new widget state and the page number emitted, if any. *)
Definition prev_page (self : t) : t * option Z :=
  if current_page self >? 1 then
    let self := {| current_page := current_page self - 1;
                   total_pages := total_pages self;
                   items_per_page := items_per_page self |} in
    (self, Some (current_page self))
  else (self, None).

Definition next_page (self : t) : t * option Z :=
  if current_page self <? total_pages self then
    let self := {| current_page := current_page self + 1;
                   total_pages := total_pages self;
                   items_per_page := items_per_page self |} in
    (self, Some (current_page self))
  else (self, None).

(** [items_map.get(index, 50)] *)
Definition items_map (index : Z) : Z :=
  match index with
  | 0 => 10
  | 1 => 25
  | 2 => 50
  | 3 => 100
  | _ => 50
  end.

Definition change_items_per_page (index : Z) (self : t) : t * option Z :=
  let new_items_per_page := items_map index in
  if negb (new_items_per_page =? items_per_page self) then
    let self := {| current_page := 1;
                   total_pages := total_pages self;
                   items_per_page := new_items_per_page |} in
    (self, Some (current_page self))
  else (self, None).

(** [ceil(count / size)], as the specification writes the page count. *)
Definition ceil_div (count size : Z) : Z :=
  count / size + (if count mod size =? 0 then 0 else 1).

(** The pagination state for a set of [item_count] items. *)
Definition page_invariant (item_count : Z) (self : t) : Prop :=
  total_pages self = Z.max 1 (ceil_div item_count (items_per_page self))
  ∧ 1 <= current_page self <= total_pages self.

(** A widget on page 2 of 2 at fifty per page. *)
Definition on_page_two : t :=
  {| current_page := 2; total_pages := 2; items_per_page := 50 |}.

End PaginationWidget.

(** ** [TwoFactorDialog] *)
Module TwoFactorDialog.
Import Py.

(** Qt's line edit, as far as the dialog relies on it: the text never
    exceeds [maxLength] (longer text is cut), and [textChanged] is emitted
    with the new text whenever the text changes.  [maxLength] counts
    characters; the cut below counts bytes, which is the same on the ASCII
    text the statements about the dialog are made for. *)
Record QLineEdit : Type := {
  text : string;
  maxLength : nat;
}.

Definition setText (new_text : string) (edit : QLineEdit) : QLineEdit * option string :=
  let new_text := take (maxLength edit) new_text in
  ({| text := new_text; maxLength := maxLength edit |},
   if String.eqb new_text (text edit) then None else Some new_text).

Record t : Type := {
  is_email : bool;
  code_input : QLineEdit;
}.

(** [setup_ui]: an empty field limited to six characters. *)
Definition init (is_email : bool) : t :=
  {| is_email := is_email; code_input := {| text := ""; maxLength := 6 |} |}.

(** The slot connected to [textChanged].  Its own [setText] emits the signal
    again, so the slot is re-entered; [nesting] bounds how deep, and [None]
    means the bound was hit. *)
Fixpoint validate_code_input (nesting : nat) (text : string) (self : t) : option t :=
  match nesting with
  | O => None
  | S nesting =>
      let filtered_text := filter_chars isdigit text in
      if negb (String.eqb filtered_text text) then
        let (edit, signal) := setText filtered_text (code_input self) in
        let self := {| is_email := is_email self; code_input := edit |} in
        match signal with
        | Some text => validate_code_input nesting text self
        | None => Some self
        end
      else Some self
  end.


(** The user edits the field so that it would read [entered]. *)
Definition edit (nesting : nat) (entered : string) (self : t) : option t :=
  let (edit, signal) := setText entered (code_input self) in
  let self := {| is_email := is_email self; code_input := edit |} in
  match signal with
  | Some text => validate_code_input nesting text self
  | None => Some self
  end.

Inductive Event : Type :=
| Edit (entered : string)
| ClickVerify
| Close.





End TwoFactorDialog.

(** ** Login routing: [login_worker] and [handle_login_result] *)
Module Login.
Import Py.

(** How [auth_api.get_current_user()] ends. *)
Inductive Answer : Type :=
| CurrentUser (display_name : string)
| UnauthorizedException (status : Z) (reason : string)
| ApiException (text : string)
| OtherException (text : string).

(** The dict returned by the worker; a key that is not set is [None]. *)
Record Result : Type := {
  success : bool;
  need_2fa : option bool;
  is_email : option bool;
  user : option string;
  error : option string;
}.

Definition failed (error : string) : Result :=
  {| success := false; need_2fa := None; is_email := None;
     user := None; error := Some error |}.

Definition two_factor (is_email : bool) : Result :=
  {| success := false; need_2fa := Some true; is_email := Some is_email;
     user := None; error := None |}.

Definition login_worker (answer : Answer) : Result :=
  match answer with
  | CurrentUser display_name =>
      {| success := true; need_2fa := None; is_email := None;
         user := Some display_name; error := None |}
  | UnauthorizedException status reason =>
      if status =? 200 then
        if contains "Email 2 Factor Authentication" reason then two_factor true
        else if contains "2 Factor Authentication" reason then two_factor false
        else failed reason
      else failed reason
  | ApiException text => failed text
  | OtherException text => failed text
  end.

(** Where the flow stands after [handle_login_result]. *)
Inductive Flow : Type :=
| Authenticated (display_name : string)
| AwaitingTwoFactor (is_email : bool)
| LoginFailed (error : string).

Definition handle_login_result (result : Result) : Flow :=
  if success result then Authenticated (default "" (user result))
  else if default false (need_2fa result) then
    AwaitingTwoFactor (default false (is_email result))
  else LoginFailed (default "Unknown error" (error result)).

(** The verification call [verify_2fa_worker] makes. *)
Inductive Endpoint : Type :=
| verify2_fa_email_code
| verify2_fa.

Definition verify_2fa_endpoint (is_email : bool) : Endpoint :=
  if is_email then verify2_fa_email_code else verify2_fa.

End Login.

(** ** The paginated fetch: [VRChatManager.fetch_avatars_worker] *)
Module AvatarFetch.
Import Py.

(** What [requests.get] hands back: the status code and, through
    [response.json()], a list of avatar records.  The records are opaque to
    the fetch loop. *)
Record Response (A : Type) : Type := {
  status_code : Z;
  json : list A;
}.
#[global] Arguments status_code {A} _.
#[global] Arguments json {A} _.

Definition page_size : Z := 100.
Definition max_pages : nat := 10.

(** Lines 1980-1996: the query parameters of one page request. *)
Definition make_params (filter_type : string) (offset : Z) : gmap string value :=
  let params : gmap string value :=
    {[ "n" := VInt page_size; "offset" := VInt offset; "releaseStatus" := VStr "all" ]} in
  if String.eqb filter_type "Private Avatars" then
    <["order" := VStr "descending"]>
      (<["sort" := VStr "updated"]> (<["releaseStatus" := VStr "private"]> params))
  else if String.eqb filter_type "Public Avatars" then
    <["releaseStatus" := VStr "public"]>
      (<["order" := VStr "descending"]> (<["sort" := VStr "updated"]> params))
  else
    <["releaseStatus" := VStr "all"]> params.

(** The loop state: the requests sent so far, in order, next to the two
    locals [offset] and [all_avatars]. *)
Record Loop (A : Type) : Type := {
  sent : list (gmap string value);
  offset : Z;
  all_avatars : list A;
}.
#[global] Arguments sent {A} _.
#[global] Arguments offset {A} _.
#[global] Arguments all_avatars {A} _.

(** Lines 1978-2031, [for page in range(max_pages)]: the server answers the
    [k]-th request of the call with [server k].  The function returns the
    requests sent and either the accumulated list (loop left by [break] or
    by exhaustion) or the exception raised on a status other than 200. *)
Fixpoint fetch_pages {A} (server : nat → Response A) (filter_type : string)
    (pages : list nat) (st : Loop A) : list (gmap string value) * result (list A) :=
  match pages with
  | [] => (sent st, Return (all_avatars st))
  | page :: rest =>
      let params := make_params filter_type (offset st) in
      let response := server (length (sent st)) in
      let sent := sent st ++ [params] in
      if negb (status_code response =? 200) then
        (sent, Raise (Exception ("API error: " +:+ str (status_code response))))
      else
        let avatars := json response in
        match avatars with
        | [] => (sent, Return (all_avatars st))
        | _ :: _ =>
            let all_avatars := all_avatars st ++ avatars in
            if Z.of_nat (length avatars) <? page_size then
              (sent, Return all_avatars)
            else
              fetch_pages server filter_type rest
                {| sent := sent; offset := offset st + page_size; all_avatars := all_avatars |}
        end
  end.

Definition fetch_avatars_worker {A} (server : nat → Response A) (filter_type : string)
    : list (gmap string value) * result (list A) :=
  fetch_pages server filter_type (seq 0 max_pages)
    {| sent := []; offset := 0; all_avatars := [] |}.

(** The [offset] parameter of a request. *)
Definition offset_of (params : gmap string value) : option Z :=
  match params !! "offset" with
  | Some (VInt n) => Some n
  | _ => None
  end.

(** A server that answers every request with status 200 and the given
    sequence of pages. *)
Definition serving {A} (pages : nat → list A) : nat → Response A :=
  λ k, {| status_code := 200; json := pages k |}.

End AvatarFetch.

(** ** The avatar browser: filter, pages and display in [VRChatManager] *)
Module VRChatManager.
Import Py.

Record t : Type := {
  api_client : bool;
  avatars_data : list (gmap string value);
  filtered_avatars : list (gmap string value);
  current_page : Z;
  items_per_page : Z;
  pagination : PaginationWidget.t;
  search_input : string;
  avatar_grid : list (gmap string value);
}.

(** [__init__] and [init_ui] *)
Definition init : t :=
  {| api_client := false;
     avatars_data := [];
     filtered_avatars := [];
     current_page := 1;
     items_per_page := 50;
     pagination := PaginationWidget.init;
     search_input := "";
     avatar_grid := [] |}.

Definition set_pagination (p : PaginationWidget.t) (self : t) : t :=
  {| api_client := api_client self;
     avatars_data := avatars_data self;
     filtered_avatars := filtered_avatars self;
     current_page := current_page self;
     items_per_page := items_per_page self;
     pagination := p;
     search_input := search_input self;
     avatar_grid := avatar_grid self |}.

(** The avatars of the current page: lines 2164-2166 and 2524-2526. *)
Definition current_page_avatars (self : t) : list (gmap string value) :=
  let start_idx := (current_page self - 1) * items_per_page self in
  let end_idx :=
    Z.min (start_idx + items_per_page self) (Z.of_nat (length (filtered_avatars self))) in
  slice (filtered_avatars self) start_idx end_idx.

(** [clear_avatar_grid] followed by [display_avatars]: one card per avatar
    of the page. *)
Definition display_current_page (self : t) : t :=
  {| api_client := api_client self;
     avatars_data := avatars_data self;
     filtered_avatars := filtered_avatars self;
     current_page := current_page self;
     items_per_page := items_per_page self;
     pagination := pagination self;
     search_input := search_input self;
     avatar_grid := current_page_avatars self |}.

Definition refresh_avatar_panels (self : t) : t :=
  match filtered_avatars self with
  | [] => self
  | _ :: _ => display_current_page self
  end.

(** [avatar.get(key, '').lower()] *)
Definition lowered_field (key : string) (avatar : gmap string value) : result string :=
  match avatar !! key with
  | None => Return (lower "")
  | Some (VStr s) => Return (lower s)
  | Some _ => Raise AttributeError
  end.

(** The condition on lines 2070-2072; [or] evaluates its right operand only
    when the left one is false. *)
Definition matches (filter_text : string) (avatar : gmap string value) : result bool :=
  name ← lowered_field "name" avatar;
  if contains filter_text name then Return true
  else
    author ← lowered_field "authorName" avatar;
    if contains filter_text author then Return true
    else
      description ← lowered_field "description" avatar;
      Return (contains filter_text description).

(** Lines 2068-2073: the loop appending to [self.filtered_avatars]. *)
Fixpoint filter_loop (filter_text : string) (avatars : list (gmap string value))
    (filtered : list (gmap string value)) : result (list (gmap string value)) :=
  match avatars with
  | [] => Return filtered
  | avatar :: rest =>
      m ← matches filter_text avatar;
      filter_loop filter_text rest (if (m : bool) then filtered ++ [avatar] else filtered)
  end.

Definition filter_avatars (self : t) : result t :=
  let filter_text := lower (search_input self) in
  filtered ←
    (if negb (String.eqb filter_text "")
     then filter_loop filter_text (avatars_data self) []
     else Return (avatars_data self));
  let p := pagination self in
  let p := {| PaginationWidget.current_page := 1;
              PaginationWidget.total_pages := PaginationWidget.total_pages p;
              PaginationWidget.items_per_page := PaginationWidget.items_per_page p |} in
  let p := PaginationWidget.set_page_count (Z.of_nat (length filtered)) p in
  Return (display_current_page
    {| api_client := api_client self;
       avatars_data := avatars_data self;
       filtered_avatars := filtered;
       current_page := 1;
       items_per_page := items_per_page self;
       pagination := p;
       search_input := search_input self;
       avatar_grid := avatar_grid self |}).

(** The slot connected to [pagination.pageChanged] (line 1317). *)
Definition change_page (page_num : Z) (self : t) : t :=
  let p := pagination self in
  let p :=
    match filtered_avatars self with
    | [] => p
    | _ :: _ =>
        PaginationWidget.set_page_count (Z.of_nat (length (filtered_avatars self))) p
    end in
  display_current_page
    {| api_client := api_client self;
       avatars_data := avatars_data self;
       filtered_avatars := filtered_avatars self;
       current_page := page_num;
       items_per_page := PaginationWidget.items_per_page (pagination self);
       pagination := p;
       search_input := search_input self;
       avatar_grid := avatar_grid self |}.

(** A widget method run inside the window: the emitted [pageChanged], if
    any, is delivered to [change_page] before the method returns. *)
Definition with_pagination (method : PaginationWidget.t → PaginationWidget.t * option Z)
    (self : t) : t :=
  let (p, signal) := method (pagination self) in
  let self := set_pagination p self in
  match signal with
  | Some page_num => change_page page_num self
  | None => self
  end.

(** The second definition of [handle_avatars_result] (line 2495) is the one
    in force.  It also starts the timer that runs [refresh_avatar_panels]
    300 ms later; the timer firing is an event of its own. *)
Definition handle_avatars_result (avatars : list (gmap string value)) (self : t) : result t :=
  let p := PaginationWidget.set_page_count (Z.of_nat (length avatars)) (pagination self) in
  filter_avatars
    {| api_client := api_client self;
       avatars_data := avatars;
       filtered_avatars := filtered_avatars self;
       current_page := current_page self;
       items_per_page := PaginationWidget.items_per_page p;
       pagination := p;
       search_input := search_input self;
       avatar_grid := avatar_grid self |}.

(** [fetch_avatars] up to the start of the background fetch. *)
Definition fetch_avatars (self : t) : t :=
  if api_client self then
    let p := pagination self in
    {| api_client := api_client self;
       avatars_data := avatars_data self;
       filtered_avatars := filtered_avatars self;
       current_page := 1;
       items_per_page := items_per_page self;
       pagination :=
         {| PaginationWidget.current_page := 1;
            PaginationWidget.total_pages := PaginationWidget.total_pages p;
            PaginationWidget.items_per_page := PaginationWidget.items_per_page p |};
       search_input := search_input self;
       avatar_grid := avatar_grid self |}
  else self.

(** What the user, the timers and the background tasks can make happen. *)
Inductive Event : Type :=
| LoggedIn
| FetchRequested
| AvatarsFetched (avatars : list (gmap string value))
| RefreshTimerFired
| SearchTextChanged (text : string)
| PrevClicked
| NextClicked
| ItemsPerPageIndexChanged (index : Z).

Definition handle (event : Event) (self : t) : result t :=
  match event with
  | LoggedIn =>
      (* handle_login_result and handle_2fa_result: store the client, then
         fetch *)
      Return
        (fetch_avatars
           {| api_client := true;
              avatars_data := avatars_data self;
              filtered_avatars := filtered_avatars self;
              current_page := current_page self;
              items_per_page := items_per_page self;
              pagination := pagination self;
              search_input := search_input self;
              avatar_grid := avatar_grid self |})
  | FetchRequested => Return (fetch_avatars self)
  | AvatarsFetched avatars => handle_avatars_result avatars self
  | RefreshTimerFired => Return (refresh_avatar_panels self)
  | SearchTextChanged text =>
      filter_avatars
        {| api_client := api_client self;
           avatars_data := avatars_data self;
           filtered_avatars := filtered_avatars self;
           current_page := current_page self;
           items_per_page := items_per_page self;
           pagination := pagination self;
           search_input := text;
           avatar_grid := avatar_grid self |}
  | PrevClicked => Return (with_pagination PaginationWidget.prev_page self)
  | NextClicked => Return (with_pagination PaginationWidget.next_page self)
  | ItemsPerPageIndexChanged index =>
      Return (with_pagination (PaginationWidget.change_items_per_page index) self)
  end.

(** The states the window can be in: an exception in a slot ends the
    program, so only returning handlers lead on. *)
Inductive reachable : t → Prop :=
| reachable_init : reachable init
| reachable_step (event : Event) (self self' : t) :
    reachable self → handle event self = Return self' → reachable self'.

(** Several events in a row. *)
Fixpoint run (events : list Event) (self : t) : result t :=
  match events with
  | [] => Return self
  | event :: rest => self ← handle event self; run rest self
  end.

(** What holds of the pages in every state of the window: the widget's
    page size is positive, and its pages fit the filtered list. *)
Definition invariant (self : t) : Prop :=
  0 < PaginationWidget.items_per_page (pagination self)
  ∧ PaginationWidget.page_invariant
      (Z.of_nat (length (filtered_avatars self))) (pagination self).

(** Sixty avatars are fetched, the user goes to page 2, and the page-size
    box reports index 2, the entry for fifty per page. *)
Definition sixty_then_next_then_fifty : list Event :=
  [LoggedIn; AvatarsFetched (repeat ∅ 60); NextClicked; ItemsPerPageIndexChanged 2].

(** *** The filter as the specification words it *)

(** The text of a field, a missing field being empty. *)
Definition field (key : string) (avatar : gmap string value) : string :=
  match avatar !! key with
  | Some (VStr s) => s
  | _ => ""
  end.

(** [needle] is a substring of [haystack], letter case aside. *)
Definition ci_substring (needle haystack : string) : Prop :=
  occurs_in (lower needle) (lower haystack).

Definition selected (filter_text : string) (avatar : gmap string value) : bool :=
  contains (lower filter_text) (lower (field "name" avatar))
  || contains (lower filter_text) (lower (field "authorName" avatar))
  || contains (lower filter_text) (lower (field "description" avatar)).

(** The three text fields hold strings wherever they are present. *)
Definition text_field_typed (key : string) (avatar : gmap string value) : bool :=
  match avatar !! key with
  | None | Some (VStr _) => true
  | Some _ => false
  end.

Definition text_fields_typed (avatar : gmap string value) : bool :=
  text_field_typed "name" avatar
  && text_field_typed "authorName" avatar
  && text_field_typed "description" avatar.

(** The three text fields are ASCII text: there [str.lower] is the folding
    of A to Z that [lower] models, and a match of the lowered strings is a
    case-insensitive match. *)
Definition text_fields_ascii (avatar : gmap string value) : bool :=
  isascii (field "name" avatar)
  && isascii (field "authorName" avatar)
  && isascii (field "description" avatar).

End VRChatManager.
(** ** Download-URL resolution: [VRChatManager.continue_avatar_download] *)
Module AvatarDownload.
Import Py.

(** How the resolution block ends: with a URL, or with the warning that no
    downloadable file was found. *)
Inductive resolution : Type :=
| Found (download_url : value)
| NoDownloadableAsset.

(** [k in d and d[k]] used as a condition whose value is then read:
    the entry under [k] when it is there and truthy. *)
Definition present_truthy (d : gmap string value) (k : string) : option value :=
  match d !! k with
  | Some v => if truthy v then Some v else None
  | None => None
  end.

(** [pkg.get('platform') == name] *)
Definition platform_is (name : string) (pkg : gmap string value) : bool :=
  match pkg !! "platform" with
  | Some (VStr s) => String.eqb s name
  | _ => false
  end.

(** [pkg.get(...)] needs a dict. *)
Definition as_dict (v : value) : result (gmap string value) :=
  match v with
  | VDict d => Return d
  | _ => Raise AttributeError
  end.

(** The elements of a truthy [avatar_data['unityPackages']] as the block
    walks them: [len(packages)] fails on a number, and the comprehension
    on line 2368 calls [pkg.get] on every element. *)
Definition iter_packages (packages : value) : result (list (gmap string value)) :=
  match packages with
  | VList l => mapM as_dict l
  | VStr _ | VDict _ => Raise AttributeError
  | VNone | VBool _ | VInt _ => Raise TypeError
  end.

(** Lines 2385-2390: the first package, in listed order, with an asset
    URL; [download_url] is left as it was when there is none. *)
Fixpoint first_package_url (download_url : value)
    (packages : list (gmap string value)) : value :=
  match packages with
  | [] => download_url
  | package :: rest =>
      match present_truthy package "assetUrl" with
      | Some url => url
      | None => first_package_url download_url rest
      end
  end.

(** Lines 2371-2381, priority 1: the first package for the
    [standalonewindows] platform, when it has an asset URL. *)
Definition windows_package_url (packages : list (gmap string value)) : value :=
  let windows_packages := List.filter (platform_is "standalonewindows") packages in
  match windows_packages with
  | windows_pkg :: _ =>
      match present_truthy windows_pkg "assetUrl" with
      | Some url => url
      | None => VNone
      end
  | [] => VNone
  end.

(** Lines 2362-2392: [download_url] after the [unityPackages] block. *)
Definition packages_url (avatar_data : gmap string value) : result value :=
  match present_truthy avatar_data "unityPackages" with
  | Some unity_packages =>
      packages ← iter_packages unity_packages;
      let download_url := windows_package_url packages in
      mret (if negb (truthy download_url)
            then first_package_url download_url packages
            else download_url)
  | None => mret VNone
  end.

(** Lines 2394-2397, priority 3: the top-level [assetUrl]. *)
Definition top_level_url (avatar_data : gmap string value) (download_url : value) : value :=
  if negb (truthy download_url) then
    match present_truthy avatar_data "assetUrl" with
    | Some url => url
    | None => download_url
    end
  else download_url.

(** Lines 2358-2407. *)
Definition resolve_download_url (avatar_data : gmap string value) : result resolution :=
  download_url ← packages_url avatar_data;
  let download_url := top_level_url avatar_data download_url in
  mret (if negb (truthy download_url) then NoDownloadableAsset else Found download_url).

(** Lines 2409-2412 and 2573-2576: cut the URL at ['/variant/security']. *)
Definition security_variant : string := "/variant/security".

Definition fix_url (download_url : string) : string :=
  if contains security_variant download_url
  then first (split security_variant download_url)
  else download_url.

(** [re.sub] on line 2415: backslash, slash, colon, star, question mark,
    double quote, angle brackets and bar become an underscore. *)
Definition double_quote : ascii := ascii_of_nat 34.

Definition forbidden_in_filename (c : ascii) : bool :=
  bool_decide (c ∈ ["\"; "/"; ":"; "*"; "?"; double_quote; "<"; ">"; "|"]%char).

Fixpoint sanitize (name : string) : string :=
  match name with
  | EmptyString => EmptyString
  | String c rest =>
      String (if forbidden_in_filename c then "_"%char else c) (sanitize rest)
  end.

(** How the slot ends. *)
Inductive outcome : Type :=
| Warning (text : string)
| Cancelled
| StartDownload (file_url file_output : string).

(** Lines 2409-2412 on whatever was resolved: [in] and [split] on a value
    that is not a string. *)
Definition remove_security_variant (download_url : value) : result value :=
  match download_url with
  | VStr s => Return (VStr (fix_url s))
  | VList l =>
      if existsb (λ v, match v with VStr s => String.eqb s security_variant | _ => false end) l
      then Raise AttributeError else Return download_url
  | VDict d =>
      match d !! security_variant with
      | Some _ => Raise AttributeError
      | None => Return download_url
      end
  | VNone | VBool _ | VInt _ => Raise TypeError
  end.

(** The whole slot.  [ask_save default_filename] is the path the user picks
    in the save dialog, empty when the dialog is dismissed. *)
Definition continue_avatar_download (ask_save : string → string)
    (detailed_avatar : option (gmap string value)) : result outcome :=
  match detailed_avatar with
  | None => Return (Warning "Could not fetch detailed avatar information. Please try again.")
  | Some avatar_data =>
      if bool_decide (avatar_data = ∅)
      then Return (Warning "Could not fetch detailed avatar information. Please try again.")
      else
        r ← resolve_download_url avatar_data;
        match r with
        | NoDownloadableAsset =>
            Return (Warning "No downloadable file URL found for this avatar. You may not have permission to download it.")
        | Found download_url =>
            download_url ← remove_security_variant download_url;
            safe_name ←
              match avatar_data !! "name" with
              | None => Return (sanitize "avatar")
              | Some (VStr name) => Return (sanitize name)
              | Some _ => Raise TypeError
              end;
            let default_filename := safe_name +:+ ".vrca" in
            let file_path := ask_save default_filename in
            if String.eqb file_path "" then Return Cancelled
            else
              match download_url with
              | VStr url => Return (StartDownload url file_path)
              | _ => Raise TypeError
              end
        end
  end.

(** *** The priority rules of the specification *)

(** A non-empty asset URL of a package or of the record. *)
Definition asset_url (d : gmap string value) : option string :=
  match d !! "assetUrl" with
  | Some (VStr s) => if String.eqb s "" then None else Some s
  | _ => None
  end.

Definition unwrap_dict (v : value) : option (gmap string value) :=
  match v with VDict d => Some d | _ => None end.

(** The nested platform packages of a record, in listed order. *)
Definition nested_packages (record : gmap string value) : list (gmap string value) :=
  match record !! "unityPackages" with
  | Some (VList l) => omap unwrap_dict l
  | _ => []
  end.

(** The URL variable of the slot: [None] until a rule sets it. *)
Definition of_url (u : option string) : value :=
  match u with Some url => VStr url | None => VNone end.

Definition priority_rules (record : gmap string value) : resolution :=
  let packages := nested_packages record in
  match List.find (platform_is "standalonewindows") packages ≫= asset_url with
  | Some url => Found (VStr url)
  | None =>
      match head (omap asset_url packages) with
      | Some url => Found (VStr url)
      | None =>
          match asset_url record with
          | Some url => Found (VStr url)
          | None => NoDownloadableAsset
          end
      end
  end.

(** Records shaped as the detail endpoint documents them: the package list
    is absent, null or a list of objects, and every asset URL is absent,
    null or a string. *)
Definition asset_url_typed (d : gmap string value) : bool :=
  match d !! "assetUrl" with
  | None | Some VNone | Some (VStr _) => true
  | Some _ => false
  end.

Definition well_typed (record : gmap string value) : bool :=
  asset_url_typed record &&
  match record !! "unityPackages" with
  | None | Some VNone => true
  | Some (VList l) =>
      forallb (λ v, match v with VDict d => asset_url_typed d | _ => false end) l
  | Some _ => false
  end.

Definition package (platform url : string) : value :=
  VDict {[ "platform" := VStr platform; "assetUrl" := VStr url ]}.

Definition record_android_windows : gmap string value :=
  {[ "unityPackages" := VList [package "android" "A"; package "standalonewindows" "B"] ]}.
Definition record_android : gmap string value :=
  {[ "unityPackages" := VList [package "android" "A"] ]}.
Definition record_top_level : gmap string value :=
  {[ "assetUrl" := VStr "C" ]}.
Definition record_bare : gmap string value :=
  {[ "id" := VStr "avtr_0" ]}.

End AvatarDownload.


(** ** The streamed download: [VRChatManager.download_file_worker] *)
Module FileDownload.
Import Py.

(** The streamed response: status, the [content-length] header when the
    server sent one, and the body as [iter_content(chunk_size=8192)]
    yields it. *)
Record Response : Type := {
  status_code : Z;
  content_length : option Z;
  iter_content : list (list byte);
}.

(** The world the worker acts on: the files on disk, the URLs requested and
    the [progress] signals emitted, oldest first. *)
Record World : Type := {
  files : gmap string (list byte);
  requested : list string;
  progress : list (Z * string);
}.

Record DownloadResult : Type := {
  success : bool;
  path : string;
}.

Definition http_get (file_url : string) (w : World) : World :=
  {| files := files w; requested := requested w ++ [file_url]; progress := progress w |}.

(** [open(output_path, 'wb')] creates or truncates the file. *)
Definition open_wb (output_path : string) (w : World) : World :=
  {| files := <[output_path := []]> (files w);
     requested := requested w; progress := progress w |}.

(** [f.write(chunk)] *)
Definition write (output_path : string) (chunk : list byte) (w : World) : World :=
  {| files := alter (λ content, content ++ chunk) output_path (files w);
     requested := requested w; progress := progress w |}.

(** [self.worker.signals.progress.emit(percent, message)] *)
Definition emit_progress (percent : Z) (message : string) (w : World) : World :=
  {| files := files w; requested := requested w;
     progress := progress w ++ [(percent, message)] |}.

(** [f"{n/(1024*1024):.1f}"] for [0 <= n]: the quotient is exact in double
    precision below 2^53, and the format rounds it to one decimal, ties to
    even. *)
Definition megabytes (n : Z) : string :=
  let q := (n * 10) / 1048576 in
  let r := (n * 10) mod 1048576 in
  let tenths :=
    if (524288 <? r) || ((r =? 524288) && Z.odd q) then q + 1 else q in
  str (tenths / 10) +:+ "." +:+ str (tenths mod 10).

(** The status text of line 2629. *)
Definition status_message (downloaded total_size percent : Z) : string :=
  "Downloading file... " +:+ megabytes downloaded +:+ " MB / " +:+
  megabytes total_size +:+ " MB (" +:+ str percent +:+ "%)".

(** Lines 2617-2630, [for chunk in response.iter_content(...)].  The percent
    is [int(downloaded * 100 / total_size)]: the truncated quotient, which
    the floating-point division gives exactly for sizes below 2^53 / 100. *)
Fixpoint write_chunks (total_size : Z) (output_path : string)
    (chunks : list (list byte)) (downloaded : Z) (w : World) : World :=
  match chunks with
  | [] => w
  | chunk :: rest =>
      match chunk with
      | [] => write_chunks total_size output_path rest downloaded w
      | _ :: _ =>
          let w := write output_path chunk w in
          let downloaded := downloaded + Z.of_nat (length chunk) in
          let w :=
            if total_size >? 0 then
              let percent := Z.quot (downloaded * 100) total_size in
              if percent mod 1 =? 0
              then emit_progress percent (status_message downloaded total_size percent) w
              else w
            else w in
          write_chunks total_size output_path rest downloaded w
      end
  end.

(** Lines 2569-2646.  [server] answers the request; [can_open] tells whether
    [open(output_path, 'wb')] succeeds. *)
Definition download_file_worker (server : string → Response) (can_open : string → bool)
    (file_url output_path : string) (w : World) : World * result DownloadResult :=
  let file_url :=
    if contains "/variant/security" file_url
    then first (split "/variant/security" file_url)
    else file_url in
  let response := server file_url in
  let w := http_get file_url w in
  if negb (status_code response =? 200) then
    (w, Raise (Exception ("Download failed with status " +:+ str (status_code response))))
  else
    let total_size := default 0 (content_length response) in
    let downloaded := 0 in
    if can_open output_path then
      let w := open_wb output_path w in
      let w := write_chunks total_size output_path (iter_content response) downloaded w in
      (w, Return {| success := true; path := output_path |})
    else (w, Raise OSError).

(** The values [downloaded] takes after each non-empty chunk. *)
Fixpoint downloaded_after (downloaded : Z) (chunks : list (list byte)) : list Z :=
  match chunks with
  | [] => []
  | [] :: rest => downloaded_after downloaded rest
  | chunk :: rest =>
      let downloaded := downloaded + Z.of_nat (length chunk) in
      downloaded :: downloaded_after downloaded rest
  end.

(** The signal emitted once [downloaded] bytes of [total_size] are in. *)
Definition progress_signal (total_size downloaded : Z) : Z * string :=
  let percent := Z.quot (downloaded * 100) total_size in
  (percent, status_message downloaded total_size percent).

(** The whole percents passed on the way from [before] to [after] bytes. *)
Definition percent_steps (total_size before after : Z) : Z :=
  Z.quot (after * 100) total_size - Z.quot (before * 100) total_size.

(** The body of a response, whole. *)
Definition body (response : Response) : list byte := concat (iter_content response).

(** A response of 200 full chunks of 8192 bytes announcing its length. *)
Definition chunk_size : Z := 8192.
Definition full_chunk : list byte := repeat Byte.x00 (Z.to_nat chunk_size).
Definition response_1600k : Response :=
  {| status_code := 200;
     content_length := Some 1638400;
     iter_content := repeat full_chunk 200 |}.

Definition serve_1600k (file_url : string) : Response := response_1600k.
Definition always_opens (output_path : string) : bool := true.

Definition serve_404 (file_url : string) : Response :=
  {| status_code := 404; content_length := None; iter_content := [] |}.

(** A disk that already holds a file at the destination. *)
Definition world_with_file : World :=
  {| files := {[ "avatar.vrca" := [Byte.x01; Byte.x02] ]}; requested := []; progress := [] |}.

Definition empty_world : World := {| files := ∅; requested := []; progress := [] |}.

End FileDownload.

(** ** More string builtins: [strip] and friends *)
Module Text.

(** The characters [str.strip] removes, in the ASCII range: tab to carriage
    return, the four separators 28 to 31, and the space. *)
Definition isspace (c : ascii) : bool :=
  let n := nat_of_ascii c in
  ((9 <=? n)%nat && (n <=? 13)%nat) || ((28 <=? n)%nat && (n <=? 32)%nat).

(** [s.lstrip(chars)] for a predicate on characters, and its mirror. *)
Fixpoint lstrip (drop : ascii → bool) (s : string) : string :=
  match s with
  | EmptyString => EmptyString
  | String c rest => if drop c then lstrip drop rest else s
  end.

Fixpoint rstrip (drop : ascii → bool) (s : string) : string :=
  match s with
  | EmptyString => EmptyString
  | String c rest =>
      match rstrip drop rest with
      | EmptyString => if drop c then EmptyString else String c EmptyString
      | kept => String c kept
      end
  end.

(** [s.strip()] *)
Definition strip (s : string) : string := rstrip isspace (lstrip isspace s).

End Text.

(** ** Colour arithmetic: [_lighten_color], [_darken_color] and
    [_adjust_color] *)
Module Color.
Import Py Text.

Definition is_hash (c : ascii) : bool := Ascii.eqb c "#".

(** The characters [int] skips around the digits of an ASCII string: tab
    to carriage return, and the space (not the separators 28 to 31, which
    [str.strip] removes). *)
Definition int_space (c : ascii) : bool :=
  let n := nat_of_ascii c in
  ((9 <=? n)%nat && (n <=? 13)%nat) || (n =? 32)%nat.

(** The value of a hexadecimal digit, in either case. *)
Definition hex_digit (c : ascii) : option Z :=
  let n := Z.of_nat (nat_of_ascii c) in
  if (48 <=? n) && (n <=? 57) then Some (n - 48)
  else if (97 <=? n) && (n <=? 102) then Some (n - 87)
  else if (65 <=? n) && (n <=? 70) then Some (n - 55)
  else None.

(** The digits of an integer literal: at least one digit, single
    underscores between digits only. *)
Fixpoint digits16 (acc : Z) (after_digit : bool) (s : string) : option Z :=
  match s with
  | EmptyString => if after_digit then Some acc else None
  | String c rest =>
      if Ascii.eqb c "_" then
        if after_digit then digits16 acc false rest else None
      else
        match hex_digit c with
        | Some d => digits16 (16 * acc + d) true rest
        | None => None
        end
  end.

(** [int(s, 16)]; [None] stands for the [ValueError].  Surrounding white
    space, a sign and a [0x] prefix (itself followed by at most one
    underscore) are accepted. *)
Definition int16 (s : string) : option Z :=
  let s := rstrip int_space (lstrip int_space s) in
  let (negative, s) :=
    match s with
    | String "-" rest => (true, rest)
    | String "+" rest => (false, rest)
    | _ => (false, s)
    end in
  let s :=
    match s with
    | String "0" (String x rest) =>
        if Ascii.eqb x "x" || Ascii.eqb x "X" then
          match rest with
          | String "_" rest' => rest'
          | _ => rest
          end
        else s
    | _ => s
    end in
  n ← digits16 0 false s;
  Some (if negative : bool then - n else n).

(** The hexadecimal digits of a natural number, lower case. *)
Definition hex (n : Z) : string :=
  HexadecimalString.NilZero.string_of_uint (N.to_hex_uint (Z.to_N n)).

(** [f"{n:02x}"]: zero-padded to two characters, the sign included. *)
Definition format_02x (n : Z) : string :=
  if n <? 0 then "-" +:+ hex (- n)
  else
    let digits := hex n in
    if (String.length digits <? 2)%nat then "0" +:+ digits else digits.

(** [tuple(int(color[i:i+2], 16) for i in (0, 2, 4))] after
    [color.lstrip('#')]. *)
Definition channels (color : string) : option (Z * Z * Z) :=
  let color := lstrip is_hash color in
  r ← int16 (take 2 color);
  g ← int16 (take 2 (drop 2 color));
  b ← int16 (take 2 (drop 4 color));
  Some (r, g, b).

Definition to_hex (r g b : Z) : string :=
  "#" +:+ format_02x r +:+ format_02x g +:+ format_02x b.

(** [AnimatedButton._lighten_color] *)
Definition _lighten_color (color : string) (amount : Z) : option string :=
  '(r, g, b) ← channels color;
  let r := Z.min 255 (r + amount) in
  let g := Z.min 255 (g + amount) in
  let b := Z.min 255 (b + amount) in
  Some (to_hex r g b).

(** [AnimatedButton._darken_color] *)
Definition _darken_color (color : string) (amount : Z) : option string :=
  '(r, g, b) ← channels color;
  let r := Z.max 0 (r - amount) in
  let g := Z.max 0 (g - amount) in
  let b := Z.max 0 (b - amount) in
  Some (to_hex r g b).

(** [VRChatManager._adjust_color] *)
Definition _adjust_color (color : string) (amount : Z) : option string :=
  '(r, g, b) ← channels color;
  if amount >? 0 then
    let r := Z.min 255 (r + amount) in
    let g := Z.min 255 (g + amount) in
    let b := Z.min 255 (b + amount) in
    Some (to_hex r g b)
  else
    let r := Z.max 0 (r + amount) in
    let g := Z.max 0 (g + amount) in
    let b := Z.max 0 (b + amount) in
    Some (to_hex r g b).

(** A channel value that fits two hexadecimal digits. *)
Definition is_channel (n : Z) : bool := (0 <=? n) && (n <=? 255).

(** A colour as the theme table writes them: any number of [#], then at
    least six characters of which the first six are hexadecimal digits. *)
Fixpoint all_hex (s : string) : bool :=
  match s with
  | EmptyString => true
  | String c rest =>
      match hex_digit c with Some _ => all_hex rest | None => false end
  end.

Definition is_color (color : string) : bool :=
  let color := lstrip is_hash color in
  (String.length (take 6 color) =? 6)%nat && all_hex (take 6 color).

(** The characters [hex_digit] accepts. *)
Definition hex_chars : list ascii := list_ascii_of_string "0123456789abcdefABCDEF".

(** The two digits [format_02x] writes for a channel value. *)
Definition two_digits (n : Z) : bool :=
  match format_02x n with
  | String hi (String lo EmptyString) =>
      bool_decide (hex_digit hi = Some (n / 16)) && bool_decide (hex_digit lo = Some (n mod 16))
  | _ => false
  end.

End Color.

(** ** The downloader tab: [VRChatManager.download_file] *)
Module DownloadTab.
Import Py Text.

(** How the slot ends: with one of its two warnings, or by starting the
    worker on the stripped fields. *)
Inductive Action : Type :=
| NotLoggedIn
| MissingUrl
| StartWorker (file_url output_path : string).

(** Lines 2543-2567. *)
Definition download_file (api_client : bool) (file_url_input file_output_input : string)
    : Action :=
  if negb api_client then NotLoggedIn
  else
    let file_url := strip file_url_input in
    let output_path := strip file_output_input in
    if String.eqb file_url "" then MissingUrl
    else StartWorker file_url output_path.

(** The slot followed by the worker it starts. *)
Definition download (server : string → FileDownload.Response) (can_open : string → bool)
    (api_client : bool) (file_url_input file_output_input : string)
    (w : FileDownload.World) : FileDownload.World :=
  match download_file api_client file_url_input file_output_input with
  | StartWorker file_url output_path =>
      fst (FileDownload.download_file_worker server can_open file_url output_path w)
  | NotLoggedIn | MissingUrl => w
  end.

(** The avatar slot followed by the download it schedules: the slot fills
    the two fields of the tab and [download_file] runs 300 ms later on
    what they hold. *)
Definition avatar_slot_download (server : string → FileDownload.Response)
    (can_open : string → bool) (ask_save : string → string) (api_client : bool)
    (detailed_avatar : option (gmap string value)) (w : FileDownload.World)
    : FileDownload.World :=
  match AvatarDownload.continue_avatar_download ask_save detailed_avatar with
  | Return (AvatarDownload.StartDownload file_url file_output) =>
      download server can_open api_client file_url file_output w
  | _ => w
  end.

End DownloadTab.

(** ** The saved configuration: [load_config], [save_config],
    [toggle_theme] and the saving half of [login_to_vrchat] *)
Module Config.
Import Py.

(** What is at [CONFIG_FILE]: nothing, something [open] or [json.load]
    fails on, or a JSON document (numbers being integers), which
    [json.dump] followed by [json.load] gives back as it was. *)
Inductive File : Type :=
| Missing
| Unreadable
| Json (document : value).

(** The three attributes of the window, the global [is_dark_mode] and the
    file.  The attributes hold whatever the file held, of whatever type. *)
Record t : Type := {
  vrchat_username : value;
  vrchat_password : value;
  dark_mode : value;
  is_dark_mode : value;
  config_file : File;
}.

(** [config.get(key, default)] *)
Definition get (config : gmap string value) (key : string) (fallback : value) : value :=
  default fallback (config !! key).

(** Lines 1035-1054.  Every exception inside the [try] is logged and
    dropped. *)
Definition load_config (self : t) : t :=
  let self :=
    {| vrchat_username := VStr ""; vrchat_password := VStr ""; dark_mode := VBool true;
       is_dark_mode := is_dark_mode self; config_file := config_file self |} in
  match config_file self with
  | Json (VDict config) =>
      let flag := get config "dark_mode" (VBool true) in
      {| vrchat_username := get config "vrchat_username" (VStr "");
         vrchat_password := get config "vrchat_password" (VStr "");
         dark_mode := flag;
         is_dark_mode := flag;
         config_file := config_file self |}
  | Json _ | Unreadable | Missing => self
  end.

(** [__init__]: the global flag is set before the file is read. *)
Definition start (file : File) : t :=
  load_config
    {| vrchat_username := VNone; vrchat_password := VNone; dark_mode := VNone;
       is_dark_mode := VBool true; config_file := file |}.

(** [x if x else y] on a string argument. *)
Definition or_stored (given : string) (stored : value) : value :=
  if negb (String.eqb given "") then VStr given else stored.

(** Lines 1056-1068; [writable] tells whether [open(CONFIG_FILE, 'w')]
    succeeds.  A failure is logged and dropped. *)
Definition save_config (writable : bool) (username password : string) (self : t) : t :=
  let config : gmap string value :=
    {[ "vrchat_username" := or_stored username (vrchat_username self);
       "vrchat_password" := or_stored password (vrchat_password self);
       "dark_mode" := is_dark_mode self ]} in
  if writable then
    {| vrchat_username := vrchat_username self;
       vrchat_password := vrchat_password self;
       dark_mode := dark_mode self;
       is_dark_mode := is_dark_mode self;
       config_file := Json (VDict config) |}
  else self.

(** Lines 1670-1678 of [toggle_theme]. *)
Definition toggle_theme (writable : bool) (is_dark : bool) (self : t) : t :=
  save_config writable "" ""
    {| vrchat_username := vrchat_username self;
       vrchat_password := vrchat_password self;
       dark_mode := dark_mode self;
       is_dark_mode := VBool is_dark;
       config_file := config_file self |}.

(** Lines 1716-1725 of [login_to_vrchat], for an accepted dialog. *)
Definition remember (writable : bool) (username password : string) (save : bool)
    (self : t) : t :=
  if save then
    save_config writable username password
      {| vrchat_username := VStr username;
         vrchat_password := VStr password;
         dark_mode := dark_mode self;
         is_dark_mode := is_dark_mode self;
         config_file := config_file self |}
  else self.

(** What the user does between two starts of the program. *)
Inductive Event : Type :=
| ThemeToggled (is_dark : bool)
| LoginAccepted (username password : string) (save : bool).

Definition handle (writable : bool) (event : Event) (self : t) : t :=
  match event with
  | ThemeToggled is_dark => toggle_theme writable is_dark self
  | LoginAccepted username password save => remember writable username password save self
  end.

Definition run (writable : bool) (events : list Event) (self : t) : t :=
  foldl (λ self event, handle writable event self) self events.

(** An event that writes the file. *)
Definition saves (event : Event) : bool :=
  match event with
  | ThemeToggled _ => true
  | LoginAccepted _ _ save => save
  end.

End Config.

(** ** The card grid: [VRChatManager.display_avatars] *)
Module Grid.

(** Lines 2288-2291: three or four columns. *)
Definition columns (viewport_width : Z) : Z :=
  let container_width := viewport_width - 30 in
  Z.max 3 (Z.min 4 (container_width / 340)).

(** Lines 2294-2295. *)
Definition rows (count cols : Z) : Z := (count + cols - 1) / cols.
Definition total_height (count cols : Z) : Z := rows count cols * 360.

(** Lines 2301-2310: the cell of each card, [enumerate] counting from
    [i]. *)
Fixpoint place {A} (cols : Z) (i : Z) (avatars : list A) : list (Z * Z * A) :=
  match avatars with
  | [] => []
  | avatar :: rest => (i / cols, i mod cols, avatar) :: place cols (i + 1) rest
  end.

(** The container height and the cards with their cells. *)
Definition display_avatars {A} (viewport_width : Z) (avatars : list A)
    : Z * list (Z * Z * A) :=
  let cols := columns viewport_width in
  (total_height (Z.of_nat (length avatars)) cols, place cols 0 avatars).

(** The cell of a placed card. *)
Definition cell {A} (card : Z * Z * A) : Z * Z := (fst (fst card), snd (fst card)).

End Grid.

(** ** Who is logged in: [handle_login_result], [handle_2fa_result] and
    [handle_login_error] *)
Module Session.
Import Py.

(** The two attributes holding API clients; a client is named by a
    number.  [temp_api_client] does not exist until a two-factor dialog has
    been accepted. *)
Record t : Type := {
  api_client : option nat;
  temp_api_client : option nat;
}.

Definition init : t := {| api_client := None; temp_api_client := None |}.

Inductive Event : Type :=
| LoginAnswered (client : nat) (answer : Login.Answer) (dialog_accepted : bool)
| TwoFactorAnswered (success : bool)
| WorkerFailed.

(** [handle_login_result] on the result of [login_worker] for the client
    the worker built.  [dialog_accepted] is what [twofa_dialog.exec()]
    returns when the dialog is shown. *)
Definition handle_login_result (client : nat) (answer : Login.Answer)
    (dialog_accepted : bool) (self : t) : t :=
  match Login.handle_login_result (Login.login_worker answer) with
  | Login.Authenticated _ =>
      {| api_client := Some client; temp_api_client := temp_api_client self |}
  | Login.AwaitingTwoFactor _ =>
      if dialog_accepted
      then {| api_client := api_client self; temp_api_client := Some client |}
      else self
  | Login.LoginFailed _ => self
  end.

(** [handle_2fa_result]: reading [self.temp_api_client] raises when the
    attribute was never set. *)
Definition handle_2fa_result (success : bool) (self : t) : result t :=
  if success then
    match temp_api_client self with
    | Some client =>
        Return {| api_client := Some client; temp_api_client := temp_api_client self |}
    | None => Raise AttributeError
    end
  else Return self.

Definition handle (event : Event) (self : t) : result t :=
  match event with
  | LoginAnswered client answer dialog_accepted =>
      Return (handle_login_result client answer dialog_accepted self)
  | TwoFactorAnswered success => handle_2fa_result success self
  | WorkerFailed => Return self
  end.

Fixpoint run (events : list Event) (self : t) : result t :=
  match events with
  | [] => Return self
  | event :: rest => self ← handle event self; run rest self
  end.

(** A login answered with the current user vouches for the client it was
    made with. *)
Definition authenticated (event : Event) : option nat :=
  match event with
  | LoginAnswered client (Login.CurrentUser _) _ => Some client
  | _ => None
  end.

(** A login that was refused with status 200 and a reason naming the two
    factors, for which the user then submitted a code. *)
Definition challenged (event : Event) : option nat :=
  match event with
  | LoginAnswered client (Login.UnauthorizedException status reason) true =>
      if (status =? 200) && contains "2 Factor Authentication" reason
      then Some client else None
  | _ => None
  end.

Definition verification_succeeded (event : Event) : bool :=
  match event with
  | TwoFactorAnswered true => true
  | _ => false
  end.

(** What the events so far allow the two attributes to hold. *)
Definition vouched (past : list Event) (self : t) : Prop :=
  (∀ client, api_client self = Some client →
     client ∈ omap authenticated past
     ∨ (client ∈ omap challenged past ∧ existsb verification_succeeded past = true))
  ∧ (∀ client, temp_api_client self = Some client → client ∈ omap challenged past).

End Session.

(** ** Walking through the pages *)
Module Paging.
Import Py.

(** The window's copies of the page number and the page size agree with
    the widget's. *)
Definition synced (self : VRChatManager.t) : Prop :=
  VRChatManager.current_page self =
    PaginationWidget.current_page (VRChatManager.pagination self)
  ∧ VRChatManager.items_per_page self =
      PaginationWidget.items_per_page (VRChatManager.pagination self).

(** What the grid shows once [change_page page_num] has run. *)
Definition page (page_num : Z) (self : VRChatManager.t) : list (gmap string value) :=
  VRChatManager.avatar_grid (VRChatManager.change_page page_num self).

(** The pages 1, 2, ..., [total_pages], in order. *)
Definition all_pages (self : VRChatManager.t) : list (list (gmap string value)) :=
  map (λ k : nat, page (Z.of_nat k) self)
    (seq 1 (Z.to_nat (PaginationWidget.total_pages (VRChatManager.pagination self)))).

(** The window showing page [page_num], everything else as in [self]. *)
Definition on_page (page_num : Z) (self : VRChatManager.t) : VRChatManager.t :=
  let p := VRChatManager.pagination self in
  VRChatManager.display_current_page
    {| VRChatManager.api_client := VRChatManager.api_client self;
       VRChatManager.avatars_data := VRChatManager.avatars_data self;
       VRChatManager.filtered_avatars := VRChatManager.filtered_avatars self;
       VRChatManager.current_page := page_num;
       VRChatManager.items_per_page := VRChatManager.items_per_page self;
       VRChatManager.pagination :=
         {| PaginationWidget.current_page := page_num;
            PaginationWidget.total_pages := PaginationWidget.total_pages p;
            PaginationWidget.items_per_page := PaginationWidget.items_per_page p |};
       VRChatManager.search_input := VRChatManager.search_input self;
       VRChatManager.avatar_grid := VRChatManager.avatar_grid self |}.

(** Sixty avatars have been fetched: page 1 of 2 at fifty per page. *)
Definition sixty_fetched : list VRChatManager.Event :=
  [VRChatManager.LoggedIn; VRChatManager.AvatarsFetched (repeat ∅ 60)].

(** ... and the user has gone to page 2. *)
Definition sixty_then_next : list VRChatManager.Event :=
  sixty_fetched ++ [VRChatManager.NextClicked].

(** The state these events lead to: page 2 of 2, showing the last ten. *)
Definition page_two_of_sixty : VRChatManager.t :=
  {| VRChatManager.api_client := true;
     VRChatManager.avatars_data := repeat ∅ 60;
     VRChatManager.filtered_avatars := repeat ∅ 60;
     VRChatManager.current_page := 2;
     VRChatManager.items_per_page := 50;
     VRChatManager.pagination := PaginationWidget.on_page_two;
     VRChatManager.search_input := "";
     VRChatManager.avatar_grid := repeat ∅ 10 |}.

End Paging.

(** ** The file name proposed in the save dialog *)
Module SaveDialog.
Import Py.

(** No character of [name] is one the slot replaces. *)
Fixpoint safe (name : string) : bool :=
  match name with
  | EmptyString => true
  | String c rest => negb (AvatarDownload.forbidden_in_filename c) && safe rest
  end.

(** [avatar_data.get('name', 'avatar')] on a record whose name, where
    present, is a string. *)
Definition name_of (avatar_data : gmap string value) : string :=
  match avatar_data !! "name" with
  | Some (VStr name) => name
  | _ => "avatar"
  end.

(** A record whose name holds two forbidden characters. *)
Definition record_named : gmap string value :=
  {[ "name" := VStr "Fox/Owl: v2"; "assetUrl" := VStr "https://files/1/file" ]}.

End SaveDialog.

(** ** What the pagination widget shows: [PaginationWidget.update_ui] *)
Module PaginationUi.
Import Py.

(** The numbers in the label [Page c of t] and the two buttons. *)
Record t : Type := {
  page_label : Z * Z;
  prev_enabled : bool;
  next_enabled : bool;
}.

(** Lines 784-790. *)
Definition update_ui (p : PaginationWidget.t) : t :=
  {| page_label := (PaginationWidget.current_page p, PaginationWidget.total_pages p);
     prev_enabled := PaginationWidget.current_page p >? 1;
     next_enabled := PaginationWidget.current_page p <? PaginationWidget.total_pages p |}.

(** The window together with what its pagination widget shows. *)
Definition shown : Type := VRChatManager.t * t.

(** [setup_ui] of the widget ends with [update_ui]. *)
Definition init : shown := (VRChatManager.init, update_ui PaginationWidget.init).

(** [change_page]: the widget is redrawn by [set_page_count], which runs
    only when there are filtered avatars; [display_current_page] does not
    touch the widget. *)
Definition change_page (page_num : Z) (s : shown) : shown :=
  let (self, ui) := s in
  let self' := VRChatManager.change_page page_num self in
  (self',
   match VRChatManager.filtered_avatars self with
   | [] => ui
   | _ :: _ => update_ui (VRChatManager.pagination self')
   end).

(** A widget method run inside the window.  [prev_page] and [next_page]
    call [update_ui] before they emit; [change_items_per_page] emits without
    redrawing ([redraws] tells which). *)
Definition with_pagination (method : PaginationWidget.t → PaginationWidget.t * option Z)
    (redraws : bool) (s : shown) : shown :=
  let (self, ui) := s in
  let (p, signal) := method (VRChatManager.pagination self) in
  let self := VRChatManager.set_pagination p self in
  match signal with
  | Some page_num => change_page page_num (self, if redraws then update_ui p else ui)
  | None => (self, ui)
  end.

(** [filter_avatars] ends with [set_page_count], which redraws. *)
Definition filter_avatars (s : shown) : result shown :=
  self' ← VRChatManager.filter_avatars (fst s);
  Return (self', update_ui (VRChatManager.pagination self')).

(** [fetch_avatars] redraws after resetting the page, when logged in. *)
Definition fetch_avatars (s : shown) : shown :=
  let (self, ui) := s in
  let self' := VRChatManager.fetch_avatars self in
  (self', if VRChatManager.api_client self
          then update_ui (VRChatManager.pagination self') else ui).

Definition handle (event : VRChatManager.Event) (s : shown) : result shown :=
  let (self, ui) := s in
  match event with
  | VRChatManager.LoggedIn =>
      self' ← VRChatManager.handle event self;
      Return (self', update_ui (VRChatManager.pagination self'))
  | VRChatManager.FetchRequested => Return (fetch_avatars s)
  | VRChatManager.AvatarsFetched _ | VRChatManager.SearchTextChanged _ =>
      self' ← VRChatManager.handle event self;
      Return (self', update_ui (VRChatManager.pagination self'))
  | VRChatManager.RefreshTimerFired =>
      self' ← VRChatManager.handle event self;
      Return (self', ui)
  | VRChatManager.PrevClicked =>
      Return (with_pagination PaginationWidget.prev_page true s)
  | VRChatManager.NextClicked =>
      Return (with_pagination PaginationWidget.next_page true s)
  | VRChatManager.ItemsPerPageIndexChanged index =>
      Return (with_pagination (PaginationWidget.change_items_per_page index) false s)
  end.

Inductive reachable : shown → Prop :=
| reachable_init : reachable init
| reachable_step (event : VRChatManager.Event) (s s' : shown) :
    reachable s → handle event s = Return s' → reachable s'.

Fixpoint run (events : list VRChatManager.Event) (s : shown) : result shown :=
  match events with
  | [] => Return s
  | event :: rest => s ← handle event s; run rest s
  end.

(** The widget shows its own state. *)
Definition fresh (s : shown) : Prop := snd s = update_ui (VRChatManager.pagination (fst s)).

End PaginationUi.
(** *** Facts about the string builtins *)
Section StringFacts.
Import Py.

Lemma prefix_app (a b : string) : String.prefix a (a +:+ b) = true.
Proof.
  induction a as [|c a IH]; simpl.
  - by destruct b.
  - destruct (ascii_dec c c); [exact IH | congruence].
Qed.

Lemma prefix_inv (a s : string) :
  String.prefix a s = true → ∃ b, s = a +:+ b.
Proof.
  revert s. induction a as [|c a IH]; intros s H.
  - by exists s.
  - destruct s as [|d s]; simpl in H; [done|].
    destruct (ascii_dec c d) as [->|]; [|done].
    destruct (IH _ H) as [b ->]. by exists b.
Qed.

Lemma app_assoc_str (a b c : string) : (a +:+ b) +:+ c = a +:+ (b +:+ c).
Proof. induction a as [|x a IH]; simpl; [done | by rewrite IH]. Qed.

Lemma app_empty_r (a : string) : a +:+ "" = a.
Proof. induction a as [|x a IH]; simpl; [done | by rewrite IH]. Qed.

Lemma length_app_str (a b : string) :
  String.length (a +:+ b) = (String.length a + String.length b)%nat.
Proof. induction a as [|x a IH]; simpl; [done | by rewrite IH]. Qed.

Lemma take_app (a b : string) : take (String.length a) (a +:+ b) = a.
Proof. induction a as [|x a IH]; simpl; [by destruct b | by rewrite IH]. Qed.

Lemma drop_app (a b : string) : drop (String.length a) (a +:+ b) = b.
Proof. induction a as [|x a IH]; simpl; [by destruct b | by rewrite IH]. Qed.

Lemma find_eq (sub s : string) :
  find sub s =
    if String.prefix sub s then Some 0%nat
    else match s with
         | EmptyString => None
         | String _ s' => S <$> find sub s'
         end.
Proof. by destruct s. Qed.

(** [find] returns the position of an occurrence ... *)
Lemma find_Some (sub s : string) (i : nat) :
  find sub s = Some i →
  ∃ b, s = take i s +:+ sub +:+ b ∧ String.length (take i s) = i.
Proof.
  revert i. induction s as [|c s IH]; intros i; rewrite find_eq;
    destruct (String.prefix sub _) eqn:Hp; try done.
  - intros [= <-]. destruct (prefix_inv _ _ Hp) as [b Hb]. by exists b.
  - intros [= <-]. destruct (prefix_inv _ _ Hp) as [b Hb]. by exists b.
  - destruct (find sub s) as [j|] eqn:Hf; [|done].
    intros [= <-]. destruct (IH j eq_refl) as (b & Hb & Hl).
    exists b. simpl. split; [by rewrite <- Hb | by rewrite Hl].
Qed.

(** ... and no occurrence starts before it. *)
Lemma find_first (sub a b : string) :
  ∃ i, find sub (a +:+ sub +:+ b) = Some i ∧ (i <= String.length a)%nat.
Proof.
  induction a as [|c a IH]; rewrite find_eq.
  - exists 0%nat. simpl. by rewrite prefix_app.
  - destruct (String.prefix sub _).
    + exists 0%nat. split; [done | lia].
    + simpl. destruct IH as (i & -> & Hi). exists (S i). simpl. split; [done | lia].
Qed.

(** [sub in s] holds exactly when [s] can be cut around a copy of [sub]. *)
Lemma contains_spec (sub s : string) :
  contains sub s = true ↔ ∃ a b, s = a +:+ sub +:+ b.
Proof.
  unfold contains. split.
  - destruct (find sub s) as [i|] eqn:Hf; [|done].
    intros _. destruct (find_Some _ _ _ Hf) as (b & Hb & _). eauto.
  - intros (a & b & ->). destruct (find_first sub a b) as (i & -> & _). done.
Qed.

Lemma contains_false (sub s : string) :
  contains sub s = false ↔ ∀ a b, s ≠ a +:+ sub +:+ b.
Proof.
  split.
  - intros H a b E. assert (contains sub s = true) by (apply contains_spec; eauto).
    congruence.
  - intros H. destruct (contains sub s) eqn:E; [|done].
    apply contains_spec in E as (a & b & E). by destruct (H a b).
Qed.

Lemma contains_empty (s : string) : contains "" s = true.
Proof. apply contains_spec. exists ""%string, s. done. Qed.

Lemma contains_suffix (a sub : string) : contains sub (a +:+ sub) = true.
Proof. apply contains_spec. exists a, ""%string. by rewrite app_empty_r. Qed.

(** The head of [split]: everything before the first occurrence, or the
    whole string when there is none. *)
Lemma first_split (sep s : string) :
  first (split sep s) =
    match find sep s with Some i => take i s | None => s end.
Proof. unfold split. simpl. by destruct (find sep s). Qed.

Lemma lower_empty_iff (s : string) : lower s = ""%string ↔ s = ""%string.
Proof. by destruct s. Qed.


Lemma length_take (n : nat) (s : string) : (String.length (take n s) <= n)%nat.
Proof.
  revert s. induction n as [|n IH]; intros [|c s]; simpl; try lia.
  specialize (IH s). lia.
Qed.


Lemma find_is_first (sub s a b : string) (i : nat) :
  find sub s = Some i → s = a +:+ sub +:+ b → (i <= String.length a)%nat.
Proof.
  intros Hf ->. destruct (find_first sub a b) as (j & Hj & Hle). congruence.
Qed.

(** Two ways of cutting the same string in two. *)
Lemma app_eq_app_str (a x b y : string) :
  a +:+ x = b +:+ y →
  ∃ m, (b = a +:+ m ∧ x = m +:+ y) ∨ (a = b +:+ m ∧ y = m +:+ x).
Proof.
  revert b. induction a as [|c a IH]; intros b H.
  - exists b. by left.
  - destruct b as [|d b].
    + exists (String c a). by right.
    + simpl in H. injection H as -> H. destruct (IH b H) as [m [[-> ->]|[-> ->]]];
        exists m; [by left | by right].
Qed.

(** With a borderless separator, the occurrence at the very end of
    [p +:+ sep] is the first one as soon as [p] has none. *)
Lemma find_trailing (sep p : string) :
  borderless sep = true → contains sep p = false →
  find sep (p +:+ sep) = Some (String.length p).
Proof.
  intros Hb. induction p as [|c p IH]; intros Hp; rewrite find_eq.
  - simpl. pose proof (prefix_app sep "") as H. rewrite app_empty_r in H. by rewrite H.
  - destruct (String.prefix sep (String c p +:+ sep)) eqn:Hpre.
    + exfalso. apply prefix_inv in Hpre as [b Hcut].
      pose proof (proj1 (contains_false _ _) Hp) as Hno. clear Hp. rename Hno into Hp.
      destruct (app_eq_app_str _ _ _ _ Hcut) as [m [[H1 H2]|[H1 H2]]].
      * destruct m as [|e m].
        { rewrite app_empty_r in H1. apply (Hp ""%string ""%string).
          rewrite app_empty_r. by rewrite <- H1. }
        set (k := String.length (String c p)).
        assert (drop k sep = String e m) as Hd.
        { rewrite H1. apply drop_app. }
        assert (take (String.length sep - k) sep = String e m) as Ht.
        { rewrite H1 at 1. rewrite length_app_str. fold k.
          replace (k + String.length (String e m) - k)%nat
            with (String.length (String e m)) by lia.
          rewrite H2. apply take_app. }
        unfold borderless in Hb. rewrite forallb_forall in Hb.
        assert (In k (seq 1 (String.length sep - 1))) as Hin.
        { apply in_seq. rewrite H1, length_app_str. fold k. simpl. unfold k. simpl. lia. }
        specialize (Hb k Hin). rewrite Hd, Ht, String.eqb_refl in Hb. done.
      * apply (Hp ""%string m). by rewrite H1.
    + simpl. rewrite IH; [done|].
      apply contains_false. intros a b E.
      apply (proj1 (contains_false _ _) Hp (String c a) b). simpl. by rewrite E.
Qed.

End StringFacts.

(** *** Resolution against the priority rules *)
Section ResolutionFacts.
Import Py AvatarDownload.

Lemma present_truthy_asset (d : gmap string value) :
  asset_url_typed d = true →
  present_truthy d "assetUrl" = VStr <$> asset_url d.
Proof.
  unfold asset_url_typed, present_truthy, asset_url.
  destruct (d !! "assetUrl") as [[| | |s| |]|]; try done.
  intros _. simpl. by destruct (String.eqb s "").
Qed.

Lemma asset_url_truthy (d : gmap string value) :
  truthy (of_url (asset_url d)) = bool_decide (is_Some (asset_url d)).
Proof.
  unfold asset_url. destruct (d !! "assetUrl") as [[| | |s| |]|]; try done.
  destruct (String.eqb s "") eqn:E; [done|]. simpl. by rewrite E.
Qed.

Lemma iter_typed_packages (l : list value) :
  forallb (λ v, match v with VDict d => asset_url_typed d | _ => false end) l = true →
  mapM as_dict l = Return (omap unwrap_dict l) ∧
  Forall (λ d, asset_url_typed d = true) (omap unwrap_dict l).
Proof.
  induction l as [|v l IH]; simpl; [done|].
  intros [Hv Hl]%andb_prop. destruct v; try done.
  destruct (IH Hl) as [-> HF]. simpl. split; [done | by constructor].
Qed.

Lemma first_package_url_typed (packages : list (gmap string value)) :
  Forall (λ d, asset_url_typed d = true) packages →
  first_package_url VNone packages = of_url (head (omap asset_url packages)).
Proof.
  induction 1 as [|d ds Hd _ IH]; simpl; [done|].
  rewrite (present_truthy_asset d Hd).
  destruct (asset_url d); simpl; [done | exact IH].
Qed.

Lemma windows_package_url_typed (packages : list (gmap string value)) :
  Forall (λ d, asset_url_typed d = true) packages →
  windows_package_url packages =
    of_url (List.find (platform_is "standalonewindows") packages ≫= asset_url).
Proof.
  unfold windows_package_url.
  induction 1 as [|d ds Hd _ IH]; simpl; [done|].
  destruct (platform_is _ d); [|exact IH].
  simpl. rewrite (present_truthy_asset d Hd). by destruct (asset_url d).
Qed.

Lemma find_asset_truthy (packages : list (gmap string value)) :
  truthy (of_url (List.find (platform_is "standalonewindows") packages ≫= asset_url)) =
  bool_decide (is_Some (List.find (platform_is "standalonewindows") packages ≫= asset_url)).
Proof.
  destruct (List.find _ packages) as [d|]; simpl; [apply asset_url_truthy | done].
Qed.

Lemma head_asset_truthy (packages : list (gmap string value)) :
  truthy (of_url (head (omap asset_url packages))) =
  bool_decide (is_Some (head (omap asset_url packages))).
Proof.
  induction packages as [|d ds IH]; simpl; [done|].
  pose proof (asset_url_truthy d) as Hd.
  destruct (asset_url d); simpl in *; [done | exact IH].
Qed.

(** The package block on a well-typed record. *)
Lemma packages_url_typed (record : gmap string value) :
  well_typed record = true →
  let packages := nested_packages record in
  packages_url record =
    Return (of_url
      match List.find (platform_is "standalonewindows") packages ≫= asset_url with
      | Some url => Some url
      | None => head (omap asset_url packages)
      end).
Proof.
  unfold well_typed. intros [_ Hpk]%andb_prop.
  unfold packages_url, nested_packages, present_truthy.
  destruct (record !! "unityPackages") as [[| | | |l|]|] eqn:Hup; try done.
  destruct l as [|v l']; [done|].
  set (l := v :: l') in *. change (truthy (VList l)) with true. cbn iota.
  destruct (iter_typed_packages l Hpk) as [Hiter Htyped].
  unfold iter_packages. rewrite Hiter. fold unwrap_dict.
  set (packages := omap unwrap_dict l) in *. simpl.
  rewrite (windows_package_url_typed packages Htyped), find_asset_truthy.
  destruct (List.find _ packages ≫= asset_url) as [url|] eqn:E; simpl; [done|].
  by rewrite (first_package_url_typed packages Htyped).
Qed.

Lemma resolve_follows_rules (record : gmap string value) :
  well_typed record = true →
  resolve_download_url record = Return (priority_rules record).
Proof.
  intros Hwt. unfold resolve_download_url, priority_rules.
  rewrite (packages_url_typed record Hwt). simpl.
  apply andb_prop in Hwt as [Htop _].
  pose proof (find_asset_truthy (nested_packages record)) as H1.
  pose proof (head_asset_truthy (nested_packages record)) as H2.
  pose proof (asset_url_truthy record) as H3.
  unfold top_level_url. rewrite (present_truthy_asset record Htop).
  destruct (List.find _ _ ≫= asset_url) as [u1|]; simpl in *.
  { rewrite H1. simpl. by rewrite H1. }
  destruct (head (omap asset_url _)) as [u2|]; simpl in *.
  { rewrite H2. simpl. by rewrite H2. }
  destruct (asset_url record) as [u3|]; simpl in *; [|done].
  by rewrite H3.
Qed.
(** C1: on every detailed avatar record (typed as the detail endpoint
    documents it), download-URL resolution returns what the four priority
    rules give, first match winning: the asset URL of the
    [standalonewindows] package when it is non-empty, otherwise the first
    non-empty package asset URL in listed order, otherwise the non-empty
    top-level asset URL, otherwise the "no downloadable asset" outcome.
    The record with an android package "A" and a windows package "B"
    resolves to "B", the one with only the android package to "A", the one
    with only a top-level URL "C" to "C", and a record with none of these
    fails. *)
Theorem resolution_priority (record : gmap string value)
    (Htyped : well_typed record = true) :
  resolve_download_url record = Return (priority_rules record)
  ∧ resolve_download_url record_android_windows = Return (Found (VStr "B"))
  ∧ resolve_download_url record_android = Return (Found (VStr "A"))
  ∧ resolve_download_url record_top_level = Return (Found (VStr "C"))
  ∧ resolve_download_url record_bare = Return NoDownloadableAsset.
Proof.
  split; [by apply resolve_follows_rules|].
  repeat split; reflexivity.
Qed.

Lemma resolution_priority_witness :
  well_typed record_android_windows = true
  ∧ resolve_download_url record_android_windows =
      Return (priority_rules record_android_windows).
Proof.
  split; [reflexivity|].
  exact (proj1 (resolution_priority record_android_windows eq_refl)).
Defined.

End ResolutionFacts.

(** *** Pagination *)
Section PaginationFacts.
Import Py.
#[local] Arguments PaginationWidget.ceil_div : simpl never.
#[local] Arguments Z.max : simpl never.
#[local] Arguments Z.min : simpl never.
#[local] Arguments Z.div : simpl never.

Lemma page_count_ceil (n d : Z) :
  0 < d → (n + d - 1) / d = PaginationWidget.ceil_div n d.
Proof.
  intros Hd. unfold PaginationWidget.ceil_div.
  pose proof (Z.div_mod n d ltac:(lia)) as Hn.
  pose proof (Z.mod_pos_bound n d Hd) as Hr.
  destruct (n mod d =? 0) eqn:E.
  - apply Z.eqb_eq in E. symmetry.
    apply (Z.div_unique_pos _ _ _ (d - 1)); lia.
  - apply Z.eqb_neq in E. symmetry.
    apply (Z.div_unique_pos _ _ _ (n mod d - 1)); lia.
Qed.

(** [ceil_div] is the ceiling of the quotient. *)
Lemma ceil_div_bounds (n d : Z) :
  0 < d →
  (PaginationWidget.ceil_div n d - 1) * d < n <= PaginationWidget.ceil_div n d * d.
Proof.
  intros Hd. unfold PaginationWidget.ceil_div.
  pose proof (Z.div_mod n d ltac:(lia)) as Hn.
  pose proof (Z.mod_pos_bound n d Hd) as Hr.
  destruct (n mod d =? 0) eqn:E.
  - apply Z.eqb_eq in E. lia.
  - apply Z.eqb_neq in E. lia.
Qed.

Lemma set_page_count_establishes (total_items : Z) (p : PaginationWidget.t) :
  0 < PaginationWidget.items_per_page p →
  1 <= PaginationWidget.current_page p →
  PaginationWidget.page_invariant total_items
    (PaginationWidget.set_page_count total_items p).
Proof.
  intros Hd Hc. unfold PaginationWidget.page_invariant, PaginationWidget.set_page_count.
  simpl. rewrite (page_count_ceil _ _ Hd). lia.
Qed.

Lemma items_map_positive (index : Z) : 0 < PaginationWidget.items_map index.
Proof.
  unfold PaginationWidget.items_map.
  destruct index as [|[[|[]|]|[|[]|]|]|]; lia.
Qed.

Lemma empty_is_one_page (d : Z) : 0 < d → Z.max 1 (PaginationWidget.ceil_div 0 d) = 1.
Proof.
  intros Hd. unfold PaginationWidget.ceil_div.
  rewrite Z.div_0_l, Z.mod_0_l by lia. reflexivity.
Qed.

(** [change_page] keeps the invariant whatever page number arrives, as long
    as the widget is already on a valid page. *)
Lemma change_page_invariant (page_num : Z) (self : VRChatManager.t) :
  0 < PaginationWidget.items_per_page (VRChatManager.pagination self) →
  1 <= PaginationWidget.current_page (VRChatManager.pagination self) →
  (VRChatManager.filtered_avatars self = [] →
   PaginationWidget.total_pages (VRChatManager.pagination self) = 1 ∧
   PaginationWidget.current_page (VRChatManager.pagination self) = 1) →
  VRChatManager.invariant (VRChatManager.change_page page_num self).
Proof.
  intros Hd Hc Hempty. unfold VRChatManager.invariant, VRChatManager.change_page. simpl.
  destruct (VRChatManager.filtered_avatars self) as [|a l] eqn:E.
  - destruct (Hempty eq_refl) as [Ht Hp]. split; [done|].
    unfold PaginationWidget.page_invariant. simpl.
    change (Z.of_nat 0) with 0. rewrite (empty_is_one_page _ Hd). lia.
  - split; [done|]. by apply set_page_count_establishes.
Qed.

Lemma invariant_empty (self : VRChatManager.t) :
  VRChatManager.invariant self →
  VRChatManager.filtered_avatars self = [] →
  PaginationWidget.total_pages (VRChatManager.pagination self) = 1 ∧
  PaginationWidget.current_page (VRChatManager.pagination self) = 1.
Proof.
  intros (Hd & Ht & Hc) E. rewrite E in Ht. simpl in Ht.
  change (Z.of_nat 0) with 0 in Ht. rewrite (empty_is_one_page _ Hd) in Ht. lia.
Qed.

Lemma prev_page_invariant (self : VRChatManager.t) :
  VRChatManager.invariant self →
  VRChatManager.invariant
    (VRChatManager.with_pagination PaginationWidget.prev_page self).
Proof.
  intros Hinv. pose proof (invariant_empty self Hinv) as Hempty.
  destruct Hinv as (Hd & Ht & Hc).
  unfold VRChatManager.with_pagination, PaginationWidget.prev_page.
  destruct (PaginationWidget.current_page _ >? 1) eqn:E.
  - apply change_page_invariant; simpl; [done | lia |].
    intros Hf. destruct (Hempty Hf). lia.
  - cbn. by destruct self as [? ? ? ? ? []].
Qed.

Lemma next_page_invariant (self : VRChatManager.t) :
  VRChatManager.invariant self →
  VRChatManager.invariant
    (VRChatManager.with_pagination PaginationWidget.next_page self).
Proof.
  intros Hinv. pose proof (invariant_empty self Hinv) as Hempty.
  destruct Hinv as (Hd & Ht & Hc).
  unfold VRChatManager.with_pagination, PaginationWidget.next_page.
  destruct (PaginationWidget.current_page _ <? PaginationWidget.total_pages _) eqn:E.
  - apply change_page_invariant; simpl; [done | lia |].
    intros Hf. destruct (Hempty Hf). lia.
  - cbn. by destruct self as [? ? ? ? ? []].
Qed.

Lemma change_items_per_page_invariant (index : Z) (self : VRChatManager.t) :
  VRChatManager.invariant self →
  VRChatManager.invariant
    (VRChatManager.with_pagination (PaginationWidget.change_items_per_page index) self).
Proof.
  intros Hinv. pose proof (invariant_empty self Hinv) as Hempty.
  destruct Hinv as (Hd & Ht & Hc).
  unfold VRChatManager.with_pagination, PaginationWidget.change_items_per_page.
  destruct (negb _) eqn:E.
  - apply change_page_invariant; simpl; [apply items_map_positive | lia |].
    intros Hf. destruct (Hempty Hf). done.
  - cbn. by destruct self as [? ? ? ? ? []].
Qed.

Lemma filter_avatars_invariant (self self' : VRChatManager.t) :
  0 < PaginationWidget.items_per_page (VRChatManager.pagination self) →
  VRChatManager.filter_avatars self = Return self' →
  VRChatManager.invariant self'.
Proof.
  intros Hd. unfold VRChatManager.filter_avatars.
  destruct (if negb _ then _ else _) as [filtered|]; [|done].
  simpl. intros [= <-]. split; [done|].
  by apply set_page_count_establishes.
Qed.

Lemma refresh_keeps_pages (self : VRChatManager.t) :
  VRChatManager.invariant self →
  VRChatManager.invariant (VRChatManager.refresh_avatar_panels self).
Proof.
  unfold VRChatManager.refresh_avatar_panels.
  by destruct (VRChatManager.filtered_avatars self) eqn:E.
Qed.

Lemma handle_invariant (event : VRChatManager.Event) (self self' : VRChatManager.t) :
  VRChatManager.invariant self →
  VRChatManager.handle event self = Return self' →
  VRChatManager.invariant self'.
Proof.
  intros Hinv. destruct event; simpl.
  - intros [= <-]. destruct Hinv as (Hd & Ht & Hc). repeat split; simpl; try done; lia.
  - intros [= <-]. unfold VRChatManager.fetch_avatars.
    destruct (VRChatManager.api_client self); [|done].
    destruct Hinv as (Hd & Ht & Hc). repeat split; simpl; try done; lia.
  - unfold VRChatManager.handle_avatars_result.
    intros E. eapply filter_avatars_invariant; [|exact E]. apply Hinv.
  - intros [= <-]. by apply refresh_keeps_pages.
  - apply filter_avatars_invariant, Hinv.
  - intros [= <-]. by apply prev_page_invariant.
  - intros [= <-]. by apply next_page_invariant.
  - intros [= <-]. by apply change_items_per_page_invariant.
Qed.

Lemma init_invariant : VRChatManager.invariant VRChatManager.init.
Proof. repeat split; simpl; lia. Qed.

Lemma reachable_invariant (self : VRChatManager.t) :
  VRChatManager.reachable self → VRChatManager.invariant self.
Proof.
  induction 1 as [|event self self' _ IH Hstep].
  - apply init_invariant.
  - by apply (handle_invariant event self self').
Qed.

Lemma filtered_of_with_pagination
    (method : PaginationWidget.t → PaginationWidget.t * option Z) (self : VRChatManager.t) :
  VRChatManager.filtered_avatars (VRChatManager.with_pagination method self) =
  VRChatManager.filtered_avatars self.
Proof.
  unfold VRChatManager.with_pagination.
  destruct (method _) as [p [page_num|]]; reflexivity.
Qed.

Lemma run_reachable (events : list VRChatManager.Event) (self self' : VRChatManager.t) :
  VRChatManager.reachable self →
  VRChatManager.run events self = Return self' → VRChatManager.reachable self'.
Proof.
  revert self. induction events as [|event rest IH]; intros self Hreach.
  - by intros [= <-].
  - cbn [VRChatManager.run]. destruct (VRChatManager.handle event self) as [next|] eqn:E; [|done].
    intros Hrun. apply (IH next); [|exact Hrun].
    exact (VRChatManager.reachable_step event self next Hreach E).
Qed.

(** The widget's own [prev_page] and [next_page] move the page inside the
    range and touch nothing else. *)
Lemma prev_page_keeps (total_items : Z) (p : PaginationWidget.t) :
  PaginationWidget.page_invariant total_items p →
  PaginationWidget.page_invariant total_items (fst (PaginationWidget.prev_page p)).
Proof.
  intros [Ht Hc]. unfold PaginationWidget.prev_page.
  destruct (_ >? 1) eqn:E; [|done]. apply Z.gtb_lt in E.
  split; simpl; [done | lia].
Qed.

Lemma next_page_keeps (total_items : Z) (p : PaginationWidget.t) :
  PaginationWidget.page_invariant total_items p →
  PaginationWidget.page_invariant total_items (fst (PaginationWidget.next_page p)).
Proof.
  intros [Ht Hc]. unfold PaginationWidget.next_page.
  destruct (_ <? _) eqn:E; [|done]. apply Z.ltb_lt in E.
  split; simpl; [done | lia].
Qed.

(** [change_items_per_page] by itself: page 1 at the new size, the page
    count as it was. *)
Lemma change_items_per_page_alone (index : Z) (p : PaginationWidget.t) :
  let p' := fst (PaginationWidget.change_items_per_page index p) in
  (PaginationWidget.items_map index ≠ PaginationWidget.items_per_page p →
   PaginationWidget.current_page p' = 1
   ∧ PaginationWidget.items_per_page p' = PaginationWidget.items_map index
   ∧ PaginationWidget.total_pages p' = PaginationWidget.total_pages p)
  ∧ (PaginationWidget.items_map index = PaginationWidget.items_per_page p → p' = p).
Proof.
  unfold PaginationWidget.change_items_per_page. cbv zeta. split.
  - intros Hne. apply Z.eqb_neq in Hne. by rewrite Hne.
  - intros He. apply Z.eqb_eq in He. by rewrite He.
Qed.

(** C5, as amended: in every state the window reaches, the widget's page
    count is max(1, ceil(item_count / items_per_page)) for the filtered
    items and the current page lies between 1 and the page count; an empty
    item set is page 1 of 1.  [set_page_count] establishes this for whatever
    item count it is given (on a widget with a positive page size and a
    page of at least 1), and [set_page_count], [prev_page] and [next_page]
    keep it.  [change_items_per_page] alone does not: it goes to page 1 at
    the new size and leaves the page count as it was; the invariant holds
    again once the [change_page] slot run by its [pageChanged] signal has
    recounted the pages. *)
Theorem pagination_invariant (self : VRChatManager.t)
    (Hreach : VRChatManager.reachable self) :
  let p := VRChatManager.pagination self in
  let item_count := Z.of_nat (length (VRChatManager.filtered_avatars self)) in
  (PaginationWidget.total_pages p =
     Z.max 1 (PaginationWidget.ceil_div item_count (PaginationWidget.items_per_page p))
   ∧ 1 <= PaginationWidget.current_page p <= PaginationWidget.total_pages p)
  ∧ (item_count = 0 →
     PaginationWidget.current_page p = 1 ∧ PaginationWidget.total_pages p = 1)
  ∧ (∀ widget total_items,
       0 < PaginationWidget.items_per_page widget →
       1 <= PaginationWidget.current_page widget →
       PaginationWidget.page_invariant total_items
         (PaginationWidget.set_page_count total_items widget))
  ∧ (∀ widget total_items,
       PaginationWidget.page_invariant total_items widget →
       PaginationWidget.page_invariant total_items (fst (PaginationWidget.prev_page widget))
       ∧ PaginationWidget.page_invariant total_items
           (fst (PaginationWidget.next_page widget)))
  ∧ (∀ widget index,
       let widget' := fst (PaginationWidget.change_items_per_page index widget) in
       (PaginationWidget.items_map index ≠ PaginationWidget.items_per_page widget →
        PaginationWidget.current_page widget' = 1
        ∧ PaginationWidget.items_per_page widget' = PaginationWidget.items_map index
        ∧ PaginationWidget.total_pages widget' = PaginationWidget.total_pages widget)
       ∧ (PaginationWidget.items_map index = PaginationWidget.items_per_page widget →
          widget' = widget))
  ∧ PaginationWidget.page_invariant item_count
      (VRChatManager.pagination
         (VRChatManager.with_pagination PaginationWidget.prev_page self))
  ∧ PaginationWidget.page_invariant item_count
      (VRChatManager.pagination
         (VRChatManager.with_pagination PaginationWidget.next_page self))
  ∧ (∀ index,
       PaginationWidget.page_invariant item_count
         (VRChatManager.pagination
            (VRChatManager.with_pagination
               (PaginationWidget.change_items_per_page index) self))).
Proof.
  intros p item_count.
  pose proof (reachable_invariant self Hreach) as Hinv.
  pose proof Hinv as (Hd & Ht & Hc).
  split; [exact (conj Ht Hc)|].
  split.
  { intros H0. apply invariant_empty in Hinv; [tauto|].
    apply length_zero_iff_nil. unfold item_count in H0. clear -H0. lia. }
  split.
  { intros widget total_items Hsize Hpage. by apply set_page_count_establishes. }
  split.
  { intros widget total_items Hw. split; [by apply prev_page_keeps | by apply next_page_keeps]. }
  split.
  { intros widget index. apply change_items_per_page_alone. }
  split.
  { pose proof (prev_page_invariant self Hinv) as [_ H].
    by rewrite filtered_of_with_pagination in H. }
  split.
  { pose proof (next_page_invariant self Hinv) as [_ H].
    by rewrite filtered_of_with_pagination in H. }
  intros index.
  pose proof (change_items_per_page_invariant index self Hinv) as [_ H].
  by rewrite filtered_of_with_pagination in H.
Qed.

(** A window showing page 2 of sixty avatars, fifty per page: the widget
    counts 2 pages, and after a change to ten per page, with the slot run,
    it counts 6. *)
Lemma pagination_invariant_witness :
  VRChatManager.run Paging.sixty_then_next VRChatManager.init =
    Return Paging.page_two_of_sixty
  ∧ PaginationWidget.page_invariant 60 (VRChatManager.pagination Paging.page_two_of_sixty)
  ∧ PaginationWidget.page_invariant 60
      (VRChatManager.pagination
         (VRChatManager.with_pagination (PaginationWidget.change_items_per_page 0)
            Paging.page_two_of_sixty)).
Proof.
  assert (VRChatManager.run Paging.sixty_then_next VRChatManager.init =
            Return Paging.page_two_of_sixty) as Hrun by (vm_compute; reflexivity).
  split; [exact Hrun|].
  pose proof (pagination_invariant Paging.page_two_of_sixty
                (run_reachable Paging.sixty_then_next VRChatManager.init _
                   VRChatManager.reachable_init Hrun))
    as (H1 & _ & _ & _ & _ & _ & _ & H2).
  split; [exact H1 | exact (H2 0)].
Defined.

(** C5, as stated, fails for [change_items_per_page]: on the widget of that
    window, which satisfies the invariant for its sixty items, the method
    alone leaves 2 pages where ten per page need 6. *)
Lemma change_items_per_page_leaves_count_stale :
  PaginationWidget.page_invariant 60 PaginationWidget.on_page_two
  ∧ fst (PaginationWidget.change_items_per_page 0 PaginationWidget.on_page_two) =
      {| PaginationWidget.current_page := 1;
         PaginationWidget.total_pages := 2;
         PaginationWidget.items_per_page := 10 |}
  ∧ Z.max 1 (PaginationWidget.ceil_div 60 10) = 6
  ∧ ¬ PaginationWidget.page_invariant 60
        (fst (PaginationWidget.change_items_per_page 0 PaginationWidget.on_page_two)).
Proof.
  split; [by vm_compute|]. split; [reflexivity|]. split; [reflexivity|].
  intros [Ht _]. by vm_compute in Ht.
Qed.

End PaginationFacts.

(** *** The two-factor dialog *)
Section TwoFactorFacts.
Import Py TwoFactorDialog.





#[local] Arguments take : simpl never.







End TwoFactorFacts.

(** *** Login routing *)
Section LoginFacts.
Import Py Login.

Lemma contains_true (sub s : string) : occurs_in sub s → contains sub s = true.
Proof. intros H. by apply contains_spec. Qed.

Lemma contains_not (sub s : string) : ¬ occurs_in sub s → contains sub s = false.
Proof.
  intros H. destruct (contains sub s) eqn:E; [|done].
  by apply contains_spec in E.
Qed.

(** The e-mail marker contains the generic one. *)
Lemma email_marker_is_generic (reason : string) :
  occurs_in "Email 2 Factor Authentication" reason →
  occurs_in "2 Factor Authentication" reason.
Proof.
  intros (a & b & ->). exists (a +:+ "Email "), b.
  by rewrite !app_assoc_str.
Qed.

(** C3, as amended: an unauthorized login response with status 200 is
    routed on its reason text: to the e-mail code step when the reason
    contains "Email 2 Factor Authentication", otherwise to the
    authenticator code step when it contains "2 Factor Authentication",
    and to a plain login failure carrying the raw reason when it contains
    neither.  With any other status the response is a plain login failure
    carrying the raw reason, whatever the reason says. *)
Theorem unauthorized_routing (status : Z) (reason : string) :
  let flow := handle_login_result (login_worker (UnauthorizedException status reason)) in
  (status = 200 → occurs_in "Email 2 Factor Authentication" reason →
   flow = AwaitingTwoFactor true
   ∧ verify_2fa_endpoint true = verify2_fa_email_code)
  ∧ (status = 200 → ¬ occurs_in "Email 2 Factor Authentication" reason →
     occurs_in "2 Factor Authentication" reason →
     flow = AwaitingTwoFactor false
     ∧ verify_2fa_endpoint false = verify2_fa)
  ∧ (status = 200 → ¬ occurs_in "2 Factor Authentication" reason →
     flow = LoginFailed reason)
  ∧ (status ≠ 200 → flow = LoginFailed reason).
Proof.
  cbn zeta. unfold login_worker. split; [|split; [|split]].
  - intros -> H. simpl. by rewrite (contains_true _ _ H).
  - intros -> H1 H2. simpl. by rewrite (contains_not _ _ H1), (contains_true _ _ H2).
  - intros -> H. simpl.
    rewrite (contains_not _ _ H), (contains_not "Email 2 Factor Authentication" reason); [done|].
    intros He. by apply H, email_marker_is_generic.
  - intros Hs. apply Z.eqb_neq in Hs. by rewrite Hs.
Qed.

Lemma unauthorized_routing_witness :
  handle_login_result
    (login_worker (UnauthorizedException 200 "Email 2 Factor Authentication Required")) =
  AwaitingTwoFactor true.
Proof.
  apply (proj1 (unauthorized_routing 200 "Email 2 Factor Authentication Required")).
  - reflexivity.
  - by exists ""%string, " Required"%string.
Defined.

(** C3, as stated, fails: an unauthorized response with status 401 whose
    reason contains the e-mail marker is a plain login failure. *)
Lemma unauthorized_401_not_routed :
  occurs_in "Email 2 Factor Authentication" "Email 2 Factor Authentication Required"
  ∧ handle_login_result
      (login_worker (UnauthorizedException 401 "Email 2 Factor Authentication Required")) =
    LoginFailed "Email 2 Factor Authentication Required"
  ∧ handle_login_result
      (login_worker (UnauthorizedException 401 "Email 2 Factor Authentication Required")) ≠
    AwaitingTwoFactor true.
Proof.
  split; [by exists ""%string, " Required"%string|]. split; [reflexivity | done].
Qed.

End LoginFacts.

(** *** The paginated fetch *)
Section FetchFacts.
Import Py AvatarFetch.
Context {A : Type}.

Lemma offset_of_make_params (filter_type : string) (offset : Z) :
  offset_of (make_params filter_type offset) = Some offset.
Proof.
  unfold offset_of, make_params.
  destruct (String.eqb filter_type "Private Avatars");
    [|destruct (String.eqb filter_type "Public Avatars")];
    by simplify_map_eq.
Qed.

(** The loop from page [i] on, for at most [n] more pages, against a server
    that always answers 200: it sends [k] requests, all but the last
    answered by a full page. *)
Lemma fetch_pages_serving (pages : nat → list A) (filter_type : string)
    (n i : nat) (log : list (gmap string value)) (acc : list A) :
  length log = i →
  ∃ k : nat,
    (k <= n)%nat ∧ (n = 0%nat ∨ 1 <= k)%nat
    ∧ fetch_pages (serving pages) filter_type (seq i n)
        {| sent := log; offset := page_size * Z.of_nat i; all_avatars := acc |} =
      (log ++ map (λ j, make_params filter_type (page_size * Z.of_nat j)) (seq i k),
       Return (acc ++ concat (map pages (seq i k))))
    ∧ (∀ j, (i <= j)%nat → (S j < i + k)%nat → page_size <= Z.of_nat (length (pages j)))
    ∧ ((k < n)%nat → Z.of_nat (length (pages (i + k - 1)%nat)) < page_size).
Proof.
  revert i log acc. induction n as [|n IH]; intros i log acc Hlog.
  - exists 0%nat. simpl. rewrite !app_nil_r. repeat split; lia.
  - cbn [seq fetch_pages sent offset all_avatars serving status_code json].
    rewrite Hlog. cbn [serving status_code json negb Z.eqb Pos.eqb].
    destruct (pages i) as [|a page] eqn:Hpage.
    + exists 1%nat. cbn [seq map concat]. rewrite Hpage, !app_nil_r.
      repeat split; try lia.
      intros _. replace (i + 1 - 1)%nat with i by lia. rewrite Hpage. done.
    + rewrite <- Hpage.
      destruct (Z.of_nat (length (pages i)) <? page_size) eqn:Hshort.
      * exists 1%nat. cbn [seq map concat]. rewrite !app_nil_r.
        repeat split; try lia.
        intros _. replace (i + 1 - 1)%nat with i by lia. lia.
      * apply Z.ltb_ge in Hshort.
        destruct (IH (S i) (log ++ [make_params filter_type (page_size * Z.of_nat i)])
                    (acc ++ pages i)) as (k & Hk & Hk1 & Hrun & Hfull & Hlast).
        { rewrite length_app. simpl. lia. }
        exists (S k). split; [lia|]. split; [right; lia|]. split; [|split].
        -- replace (page_size * Z.of_nat i + page_size) with (page_size * Z.of_nat (S i))
             by lia.
           rewrite Hrun. cbn [seq map concat]. by rewrite <- !app_assoc.
        -- intros j Hj1 Hj2. destruct (decide (j = i)) as [->|Hne]; [done|].
           apply Hfull; lia.
        -- intros Hkn. destruct Hk1 as [->|Hk1]; [lia|].
           replace (i + S k - 1)%nat with (S i + k - 1)%nat by lia.
           apply Hlast. lia.
Qed.

Lemma offsets_distinct (k : nat) :
  NoDup (map (λ j : nat, Some (page_size * Z.of_nat j)) (seq 0 k)).
Proof.
  apply NoDup_fmap_2; [|apply NoDup_seq].
  intros x y [= H]. unfold page_size in H. lia.
Qed.

(** A status other than 200 aborts the fetch with that status in the
    message, whatever was accumulated. *)
Lemma fetch_pages_error (server : nat → Response A) (filter_type : string)
    (page : nat) (rest : list nat) (st : Loop A) :
  status_code (server (length (sent st))) ≠ 200 →
  snd (fetch_pages server filter_type (page :: rest) st) =
    Raise (Exception ("API error: " +:+ str (status_code (server (length (sent st)))))).
Proof.
  intros H. apply Z.eqb_neq in H. cbn [fetch_pages]. by rewrite H.
Qed.

(** C2: for every sequence of page responses, the fetch sends its requests
    one after the other with offsets 0, 100, 200, ... (no offset twice),
    returns the records of the answered pages in request order, and stops
    exactly at the first page with no records or with fewer than 100
    records, or after 10 pages, whichever comes first; stopping on an empty
    or short page returns normally. *)
Theorem fetch_stops_at_short_page (pages : nat → list A) (filter_type : string) :
  ∃ (k : nat) (requests : list (gmap string value)),
    (1 <= k <= 10)%nat
    ∧ fetch_avatars_worker (serving pages) filter_type =
        (requests, Return (concat (map pages (seq 0 k))))
    ∧ map offset_of requests = map (λ j : nat, Some (100 * Z.of_nat j)) (seq 0 k)
    ∧ NoDup (map offset_of requests)
    ∧ (∀ j, (S j < k)%nat → 100 <= Z.of_nat (length (pages j)))
    ∧ ((k < 10)%nat → Z.of_nat (length (pages (k - 1)%nat)) < 100).
Proof.
  destruct (fetch_pages_serving pages filter_type max_pages 0 [] [] eq_refl)
    as (k & Hk & Hk1 & Hrun & Hfull & Hlast).
  unfold max_pages in *. destruct Hk1 as [|Hk1]; [done|].
  assert (map offset_of
            (map (λ j : nat, make_params filter_type (page_size * Z.of_nat j)) (seq 0 k)) =
          map (λ j : nat, Some (100 * Z.of_nat j)) (seq 0 k)) as Hoff.
  { rewrite map_map. apply map_ext. intros j. apply offset_of_make_params. }
  exists k, (map (λ j, make_params filter_type (page_size * Z.of_nat j)) (seq 0 k)).
  split; [lia|]. split; [exact Hrun|]. split; [exact Hoff|]. split.
  { rewrite Hoff. apply offsets_distinct. }
  split.
  - intros j Hj. apply (Hfull j); lia.
  - intros Hlt. apply Hlast in Hlt. exact Hlt.
Qed.

End FetchFacts.

(** *** The client-side filter *)
Section FilterFacts.
Import Py VRChatManager.

Lemma lowered_field_typed (key : string) (avatar : gmap string value) :
  text_field_typed key avatar = true →
  lowered_field key avatar = Return (lower (field key avatar)).
Proof.
  unfold text_field_typed, lowered_field, field.
  by destruct (avatar !! key) as [[]|].
Qed.

Lemma matches_typed (filter_text : string) (avatar : gmap string value) :
  text_fields_typed avatar = true →
  matches (lower filter_text) avatar = Return (selected filter_text avatar).
Proof.
  unfold text_fields_typed, matches, selected.
  intros [[Hn Ha]%andb_prop Hd]%andb_prop.
  rewrite (lowered_field_typed _ _ Hn). simpl.
  destruct (contains _ (lower (field "name" avatar))); [done|].
  rewrite (lowered_field_typed _ _ Ha). simpl.
  destruct (contains _ (lower (field "authorName" avatar))); [done|].
  by rewrite (lowered_field_typed _ _ Hd).
Qed.

Lemma filter_loop_typed (filter_text : string)
    (avatars filtered : list (gmap string value)) :
  Forall (λ avatar, text_fields_typed avatar = true) avatars →
  filter_loop (lower filter_text) avatars filtered =
    Return (filtered ++ List.filter (selected filter_text) avatars).
Proof.
  intros Htyped. revert filtered.
  induction Htyped as [|avatar rest Ha _ IH]; intros filtered; simpl.
  - by rewrite app_nil_r.
  - rewrite (matches_typed _ _ Ha). simpl. rewrite IH.
    destruct (selected filter_text avatar); [|done].
    by rewrite <- app_assoc.
Qed.

Lemma selected_empty (avatar : gmap string value) : selected "" avatar = true.
Proof. unfold selected. simpl. by rewrite contains_empty. Qed.

Lemma filter_everything (avatars : list (gmap string value)) :
  List.filter (selected "") avatars = avatars.
Proof.
  induction avatars as [|a l IH]; simpl; [done|].
  by rewrite selected_empty, IH.
Qed.




(** What [filter_avatars] leaves in [self.filtered_avatars]. *)
Lemma filter_avatars_typed (self : t) :
  Forall (λ avatar, text_fields_typed avatar = true) (avatars_data self) →
  ∃ self',
    filter_avatars self = Return self'
    ∧ avatars_data self' = avatars_data self
    ∧ filtered_avatars self' =
        List.filter (selected (search_input self)) (avatars_data self)
    ∧ avatar_grid self' = current_page_avatars self'.
Proof.
  intros Htyped. unfold filter_avatars.
  destruct (String.eqb (lower (search_input self)) "") eqn:E; simpl.
  - apply String.eqb_eq in E. apply (proj1 (lower_empty_iff _)) in E.
    eexists. split; [reflexivity|]. simpl. rewrite E, filter_everything. done.
  - rewrite (filter_loop_typed _ _ [] Htyped). simpl.
    eexists. split; [reflexivity|]. done.
Qed.






End FilterFacts.

(** *** Going back to page 1 *)
Section PageResetFacts.
Import Py VRChatManager.
#[local] Arguments Z.max : simpl never.
#[local] Arguments Z.min : simpl never.
#[local] Arguments Z.div : simpl never.

Lemma filter_resets_page (self self' : t) :
  filter_avatars self = Return self' →
  current_page self' = 1 ∧ PaginationWidget.current_page (pagination self') = 1.
Proof.
  unfold filter_avatars.
  destruct (if negb _ then _ else _) as [filtered|]; [|done].
  simpl. intros [= <-]. simpl. split; [done | lia].
Qed.

Lemma resize_resets_page (index : Z) (self : t) :
  PaginationWidget.items_map index ≠ PaginationWidget.items_per_page (pagination self) →
  let self' := with_pagination (PaginationWidget.change_items_per_page index) self in
  current_page self' = 1
  ∧ PaginationWidget.current_page (pagination self') = 1
  ∧ PaginationWidget.items_per_page (pagination self') = PaginationWidget.items_map index
  ∧ items_per_page self' = PaginationWidget.items_map index.
Proof.
  intros Hne. unfold with_pagination, PaginationWidget.change_items_per_page.
  apply Z.eqb_neq in Hne. rewrite Hne. simpl.
  destruct (filtered_avatars self); simpl; repeat split; lia.
Qed.

Lemma resize_to_same_size (index : Z) (self : t) :
  PaginationWidget.items_map index = PaginationWidget.items_per_page (pagination self) →
  with_pagination (PaginationWidget.change_items_per_page index) self = self.
Proof.
  intros He. unfold with_pagination, PaginationWidget.change_items_per_page.
  apply Z.eqb_eq in He. rewrite He. simpl. by destruct self.
Qed.

(** C8, as amended: every invocation of the filter operation that
    completes, be it after a change of the filter text or after a fetch,
    sets the current page to 1, in the window and in the widget, and it
    completes on records whose text fields are strings; and every change
    of the page size to a size other than the current one sets the
    current page to 1, whatever the window holds.  Called with the size
    already in force, the operation changes nothing. *)
Theorem page_one_after_filter_or_resize (self : t) (text : string) (index : Z)
    (avatars : list (gmap string value)) :
  (∀ self', handle (SearchTextChanged text) self = Return self' →
            search_input self' = text
            ∧ current_page self' = 1
            ∧ PaginationWidget.current_page (pagination self') = 1)
  ∧ (∀ self', handle (AvatarsFetched avatars) self = Return self' →
              current_page self' = 1
              ∧ PaginationWidget.current_page (pagination self') = 1)
  ∧ (Forall (λ avatar, text_fields_typed avatar = true) (avatars_data self) →
     ∃ self', handle (SearchTextChanged text) self = Return self')
  ∧ (Forall (λ avatar, text_fields_typed avatar = true) avatars →
     ∃ self', handle (AvatarsFetched avatars) self = Return self')
  ∧ (PaginationWidget.items_map index ≠ PaginationWidget.items_per_page (pagination self) →
     ∃ self', handle (ItemsPerPageIndexChanged index) self = Return self'
              ∧ PaginationWidget.items_per_page (pagination self') =
                  PaginationWidget.items_map index
              ∧ current_page self' = 1
              ∧ PaginationWidget.current_page (pagination self') = 1)
  ∧ (PaginationWidget.items_map index = PaginationWidget.items_per_page (pagination self) →
     handle (ItemsPerPageIndexChanged index) self = Return self
     ∧ PaginationWidget.change_items_per_page index (pagination self) =
         (pagination self, None)).
Proof.
  split; [|split; [|split; [|split; [|split]]]].
  - intros self' Hrun. cbn [handle] in Hrun.
    destruct (filter_resets_page _ _ Hrun) as [H1 H2].
    split; [|done].
    revert Hrun. unfold filter_avatars.
    destruct (if negb _ then _ else _); [|done]. by intros [= <-].
  - intros self' Hrun. cbn [handle] in Hrun. unfold handle_avatars_result in Hrun.
    exact (filter_resets_page _ _ Hrun).
  - intros Htyped. cbn [handle].
    set (typing := {| search_input := text |}).
    destruct (filter_avatars_typed typing Htyped) as (self' & Hrun & _).
    by exists self'.
  - intros Hfetched. cbn [handle]. unfold handle_avatars_result.
    set (fetched := {| avatars_data := avatars |}).
    destruct (filter_avatars_typed fetched Hfetched) as (self' & Hrun & _).
    by exists self'.
  - intros Hne. eexists. split; [reflexivity|].
    destruct (resize_resets_page index self Hne) as (H1 & H2 & H3 & _). done.
  - intros He. split.
    + cbn [handle]. by rewrite resize_to_same_size.
    + unfold PaginationWidget.change_items_per_page. cbv zeta.
      apply Z.eqb_eq in He. by rewrite He.
Qed.

(** A window on page 2 of sixty avatars at fifty per page: a new filter
    text, and a change to ten per page, both lead to page 1. *)
Lemma page_one_after_filter_or_resize_witness :
  run Paging.sixty_then_next init = Return Paging.page_two_of_sixty
  ∧ (∃ self', handle (SearchTextChanged "fox") Paging.page_two_of_sixty = Return self'
              ∧ current_page self' = 1
              ∧ PaginationWidget.current_page (pagination self') = 1)
  ∧ (∃ self', handle (ItemsPerPageIndexChanged 0) Paging.page_two_of_sixty = Return self'
              ∧ PaginationWidget.items_per_page (pagination self') = 10
              ∧ current_page self' = 1
              ∧ PaginationWidget.current_page (pagination self') = 1).
Proof.
  split; [vm_compute; reflexivity|].
  pose proof (page_one_after_filter_or_resize Paging.page_two_of_sixty "fox" 0 [])
    as (Hpage & _ & Hruns & _ & Hsize & _).
  split.
  - destruct Hruns as [self' Hrun].
    { apply List.Forall_forall. intros avatar Hin.
      apply (repeat_spec 60 ∅) in Hin. by subst avatar. }
    exists self'. split; [exact Hrun|]. destruct (Hpage self' Hrun) as (_ & H1 & H2).
    exact (conj H1 H2).
  - apply Hsize. discriminate.
Defined.

(** C8, as stated, fails for the size already in force: on the widget of
    that window, on page 2 at fifty per page, the operation called for
    fifty per page changes nothing and emits nothing, so the page stays 2.
    (The combo box calls the operation only when its index changes; this
    is the operation called directly.) *)
Lemma resize_to_same_size_stays_on_page :
  run Paging.sixty_then_next init = Return Paging.page_two_of_sixty
  ∧ PaginationWidget.items_map 2 =
      PaginationWidget.items_per_page (pagination Paging.page_two_of_sixty)
  ∧ PaginationWidget.change_items_per_page 2 (pagination Paging.page_two_of_sixty) =
      (pagination Paging.page_two_of_sixty, None)
  ∧ with_pagination (PaginationWidget.change_items_per_page 2) Paging.page_two_of_sixty =
      Paging.page_two_of_sixty
  ∧ current_page Paging.page_two_of_sixty = 2
  ∧ PaginationWidget.current_page (pagination Paging.page_two_of_sixty) = 2.
Proof. split; [vm_compute; reflexivity|]. by vm_compute. Qed.

End PageResetFacts.

(** *** The streamed download *)
Section DownloadFacts.
Import Py FileDownload.

(** The worker's inlined copy of the URL fix, folded into [fix_url]. *)
Ltac fold_fix_url :=
  match goal with
  | |- context [if contains "/variant/security" ?u
                then first (split "/variant/security" ?u) else ?u] =>
      change (if contains "/variant/security" u
              then first (split "/variant/security" u) else u)
        with (AvatarDownload.fix_url u)
  end.

(** One round of the loop on a non-empty chunk; [percent % 1] is always 0. *)
Lemma write_chunks_step (total_size : Z) (output_path : string)
    (chunk : list byte) (rest : list (list byte)) (downloaded : Z) (w : World) :
  chunk ≠ [] →
  write_chunks total_size output_path (chunk :: rest) downloaded w =
    let downloaded := downloaded + Z.of_nat (length chunk) in
    write_chunks total_size output_path rest downloaded
      (if total_size >? 0
       then emit_progress (fst (progress_signal total_size downloaded))
              (snd (progress_signal total_size downloaded)) (write output_path chunk w)
       else write output_path chunk w).
Proof.
  intros Hne. destruct chunk as [|b chunk]; [done|].
  cbn [write_chunks]. cbv zeta. by rewrite Z.mod_1_r.
Qed.

Lemma downloaded_after_step (chunk : list byte) (rest : list (list byte)) (downloaded : Z) :
  chunk ≠ [] →
  downloaded_after downloaded (chunk :: rest) =
    (downloaded + Z.of_nat (length chunk))
      :: downloaded_after (downloaded + Z.of_nat (length chunk)) rest.
Proof. intros Hne. by destruct chunk. Qed.

Lemma write_chunks_requested (total_size : Z) (output_path : string)
    (chunks : list (list byte)) (downloaded : Z) (w : World) :
  requested (write_chunks total_size output_path chunks downloaded w) = requested w.
Proof.
  revert downloaded w. induction chunks as [|chunk rest IH]; intros; [done|].
  destruct (decide (chunk = [])) as [->|Hne]; [apply IH|].
  rewrite (write_chunks_step _ _ _ _ _ _ Hne). cbv zeta. rewrite IH.
  by destruct (total_size >? 0).
Qed.

(** The file receives every chunk, in order. *)
Lemma write_chunks_files (total_size : Z) (output_path : string)
    (chunks : list (list byte)) (downloaded : Z) (w : World) :
  files (write_chunks total_size output_path chunks downloaded w) =
    alter (λ content, content ++ concat chunks) output_path (files w).
Proof.
  revert downloaded w. induction chunks as [|chunk rest IH]; intros.
  - simpl. apply map_eq. intros k. rewrite lookup_alter.
    case_decide; [|done]. subst k. destruct (files w !! output_path); simpl; [|done].
    by rewrite app_nil_r.
  - destruct (decide (chunk = [])) as [->|Hne]; [apply IH|].
    rewrite (write_chunks_step _ _ _ _ _ _ Hne). cbv zeta. rewrite IH.
    assert (∀ w', files w' = alter (λ content, content ++ chunk) output_path (files w) →
      alter (λ content, content ++ concat rest) output_path (files w') =
      alter (λ content, content ++ concat (chunk :: rest)) output_path (files w)) as Hstep.
    { intros w' ->. rewrite alter_alter_eq. apply alter_ext.
      intros content _. simpl. by rewrite <- app_assoc. }
    apply Hstep. by destruct (total_size >? 0).
Qed.

(** One signal per non-empty chunk when the size is known, none
    otherwise. *)
Lemma write_chunks_progress (total_size : Z) (output_path : string)
    (chunks : list (list byte)) (downloaded : Z) (w : World) :
  progress (write_chunks total_size output_path chunks downloaded w) =
    progress w ++
    (if total_size >? 0
     then map (progress_signal total_size) (downloaded_after downloaded chunks)
     else []).
Proof.
  revert downloaded w. induction chunks as [|chunk rest IH]; intros.
  - simpl. destruct (total_size >? 0); by rewrite app_nil_r.
  - destruct (decide (chunk = [])) as [->|Hne]; [apply IH|].
    rewrite (write_chunks_step _ _ _ _ _ _ Hne), (downloaded_after_step _ _ _ Hne).
    cbv zeta. rewrite IH. destruct (total_size >? 0); [|done].
    cbn [emit_progress progress map]. rewrite <- app_assoc.
    by destruct (progress_signal total_size (downloaded + Z.of_nat (length chunk))).
Qed.

Lemma downloaded_after_repeat (chunk : list byte) (n : nat) (downloaded : Z) :
  chunk ≠ [] →
  downloaded_after downloaded (repeat chunk n) =
    map (λ k : nat, downloaded + Z.of_nat (length chunk) * Z.of_nat k) (seq 1 n).
Proof.
  intros Hne. revert downloaded. induction n as [|n IH]; intros; [done|].
  cbn [repeat]. rewrite (downloaded_after_step _ _ _ Hne), IH.
  cbn [seq map]. f_equal; [lia|].
  rewrite <- (seq_shift n 1), map_map. apply map_ext. intros k. lia.
Qed.

(** The worker fixes the URL the way the avatar slot does. *)
Lemma worker_requests_fixed (server : string → Response) (can_open : string → bool)
    (file_url output_path : string) (w : World) :
  requested (fst (download_file_worker server can_open file_url output_path w)) =
    requested w ++ [AvatarDownload.fix_url file_url].
Proof.
  unfold download_file_worker.
  fold_fix_url.
  destruct (negb _); [done|]. destruct (can_open output_path); [|done].
  cbn [fst]. by rewrite write_chunks_requested.
Qed.

(** A 200 response to a destination that opens. *)
Lemma download_completes (server : string → Response) (can_open : string → bool)
    (file_url output_path : string) (w : World) :
  let response := server (AvatarDownload.fix_url file_url) in
  status_code response = 200 → can_open output_path = true →
  download_file_worker server can_open file_url output_path w =
    (write_chunks (default 0 (content_length response)) output_path
       (iter_content response) 0
       (open_wb output_path (http_get (AvatarDownload.fix_url file_url) w)),
     Return {| success := true; path := output_path |}).
Proof.
  intros response Hs Ho. unfold download_file_worker.
  fold_fix_url.
  fold response. by rewrite Hs, Ho.
Qed.

(** When the length is not announced (no header, or a header that is not
    positive), nothing is reported and the body is on disk in full. *)
Lemma unknown_size_writes_body (server : string → Response) (can_open : string → bool)
    (file_url output_path : string) (w : World) :
  let response := server (AvatarDownload.fix_url file_url) in
  status_code response = 200 → can_open output_path = true →
  default 0 (content_length response) <= 0 →
  let (w', r) := download_file_worker server can_open file_url output_path w in
  r = Return {| success := true; path := output_path |}
  ∧ progress w' = progress w
  ∧ files w' !! output_path = Some (body response).
Proof.
  intros response Hs Ho Hz.
  rewrite (download_completes server can_open file_url output_path w Hs Ho).
  fold response. split; [done|]. split.
  - rewrite write_chunks_progress.
    destruct (_ >? 0) eqn:E; [lia|]. by rewrite app_nil_r.
  - rewrite write_chunks_files. cbn [open_wb http_get files].
    by rewrite lookup_alter_eq, lookup_insert_eq.
Qed.

(** With the length announced, every non-empty chunk is reported. *)
Lemma known_size_reports_every_chunk (server : string → Response)
    (can_open : string → bool) (file_url output_path : string) (w : World) :
  let response := server (AvatarDownload.fix_url file_url) in
  status_code response = 200 → can_open output_path = true →
  0 < default 0 (content_length response) →
  progress (fst (download_file_worker server can_open file_url output_path w)) =
    progress w ++
    map (progress_signal (default 0 (content_length response)))
      (downloaded_after 0 (iter_content response)).
Proof.
  intros response Hs Ho Hz.
  rewrite (download_completes server can_open file_url output_path w Hs Ho).
  fold response. cbn [fst]. rewrite write_chunks_progress.
  destruct (_ >? 0) eqn:E; [done | lia].
Qed.

(** C4 fails on the code: for a body of 1 638 400 bytes announced by the
    length header and delivered in 200 chunks of 8192 bytes, only 100 whole
    percents are passed, yet the progress signal is emitted 200 times, once
    per chunk: the first signal reports 0 %, before any whole percent is
    reached, and the second and the third both report 1 %. *)
Theorem progress_every_chunk_not_every_percent :
  let w' := fst (download_file_worker serve_1600k always_opens
                   "https://files.example/file" "avatar.vrca" empty_world) in
  percent_steps 1638400 0 1638400 = 100
  ∧ length (progress w') = 200%nat
  ∧ map fst (progress w') = map (λ k : nat, Z.of_nat k / 2) (seq 1 200)
  ∧ fst <$> progress w' !! 0%nat = Some 0
  ∧ fst <$> progress w' !! 1%nat = Some 1
  ∧ fst <$> progress w' !! 2%nat = Some 1
  ∧ percent_steps 1638400 (2 * 8192) (3 * 8192) = 0.
Proof.
  cbn zeta. split; [reflexivity|].
  rewrite (known_size_reports_every_chunk serve_1600k always_opens
             "https://files.example/file" "avatar.vrca" empty_world eq_refl eq_refl eq_refl).
  cbn [serve_1600k response_1600k content_length iter_content default empty_world progress app].
  rewrite (downloaded_after_repeat full_chunk 200 0); [|done].
  unfold full_chunk. rewrite repeat_length, Z2Nat.id by done.
  unfold chunk_size. by vm_compute.
Qed.

Lemma borderless_security_variant : borderless AvatarDownload.security_variant = true.
Proof. reflexivity. Qed.

Lemma fix_url_cuts_first (url : string) :
  occurs_in AvatarDownload.security_variant url →
  ∃ rest, url = AvatarDownload.fix_url url +:+ AvatarDownload.security_variant +:+ rest
          ∧ ∀ a b, url = a +:+ AvatarDownload.security_variant +:+ b →
                   (String.length (AvatarDownload.fix_url url) <= String.length a)%nat.
Proof.
  intros Hocc. unfold AvatarDownload.fix_url.
  pose proof (proj2 (contains_spec _ _) Hocc) as Hc. rewrite Hc, first_split.
  unfold contains in Hc.
  destruct (find AvatarDownload.security_variant url) as [i|] eqn:Hf; [|done].
  destruct (find_Some _ _ _ Hf) as (rest & Hcut & Hlen).
  exists rest. split; [exact Hcut|]. intros a b E. rewrite Hlen.
  by apply (find_is_first _ _ a b i Hf).
Qed.

Lemma fix_url_unchanged (url : string) :
  ¬ occurs_in AvatarDownload.security_variant url → AvatarDownload.fix_url url = url.
Proof.
  intros Hno. unfold AvatarDownload.fix_url.
  destruct (contains _ url) eqn:E; [|done]. by apply contains_spec in E.
Qed.

Lemma fix_url_trailing (url : string) :
  ¬ occurs_in AvatarDownload.security_variant url →
  AvatarDownload.fix_url (url +:+ AvatarDownload.security_variant) = url.
Proof.
  intros Hno. unfold AvatarDownload.fix_url.
  rewrite contains_suffix, first_split, find_trailing.
  - apply take_app.
  - apply borderless_security_variant.
  - destruct (contains _ url) eqn:E; [|done]. by apply contains_spec in E.
Qed.

(** The avatar slot hands the fixed URL to the downloader. *)
Lemma slot_hands_over_fixed (ask_save : string → string)
    (avatar_data : gmap string value) (url : string) :
  AvatarDownload.resolve_download_url avatar_data =
    Return (AvatarDownload.Found (VStr url)) →
  VRChatManager.text_field_typed "name" avatar_data = true →
  ∃ default_filename,
    AvatarDownload.continue_avatar_download ask_save (Some avatar_data) =
      Return (if String.eqb (ask_save default_filename) ""
              then AvatarDownload.Cancelled
              else AvatarDownload.StartDownload (AvatarDownload.fix_url url)
                     (ask_save default_filename)).
Proof.
  intros Hres Hname. unfold AvatarDownload.continue_avatar_download.
  destruct (bool_decide (avatar_data = ∅)) eqn:E.
  { apply bool_decide_eq_true in E. subst. by vm_compute in Hres. }
  rewrite Hres. cbn [mbind result_bind AvatarDownload.remove_security_variant].
  unfold VRChatManager.text_field_typed in Hname.
  destruct (avatar_data !! "name") as [[| | |name| |]|]; try done;
    cbn [mbind result_bind].
  - exists (AvatarDownload.sanitize name +:+ ".vrca"). by destruct (String.eqb _ _).
  - exists (AvatarDownload.sanitize "avatar" +:+ ".vrca"). by destruct (String.eqb _ _).
Qed.

(** C7: a download URL that contains the security-variant segment
    ['/variant/security'] is cut at that segment (at its first occurrence,
    dropping the segment and what follows) before the request is sent, both
    when the URL was resolved from an avatar record and when it was given to
    the download worker; a URL ending in [.../file/variant/security] is
    fetched as [.../file], and a URL without the segment is fetched
    unchanged. *)
Theorem security_variant_removed (url : string) :
  (occurs_in AvatarDownload.security_variant url →
   ∃ rest, url = AvatarDownload.fix_url url +:+ AvatarDownload.security_variant +:+ rest
           ∧ ∀ a b, url = a +:+ AvatarDownload.security_variant +:+ b →
                    (String.length (AvatarDownload.fix_url url) <= String.length a)%nat)
  ∧ (¬ occurs_in AvatarDownload.security_variant url →
     AvatarDownload.fix_url url = url
     ∧ AvatarDownload.fix_url (url +:+ AvatarDownload.security_variant) = url)
  ∧ AvatarDownload.fix_url
      "https://api.vrchat.cloud/api/1/file/file_1/2/file/variant/security" =
    "https://api.vrchat.cloud/api/1/file/file_1/2/file"%string
  ∧ (∀ server can_open output_path w,
       requested (fst (download_file_worker server can_open url output_path w)) =
         requested w ++ [AvatarDownload.fix_url url])
  ∧ (∀ ask_save avatar_data,
       AvatarDownload.resolve_download_url avatar_data =
         Return (AvatarDownload.Found (VStr url)) →
       VRChatManager.text_field_typed "name" avatar_data = true →
       ∃ default_filename,
         AvatarDownload.continue_avatar_download ask_save (Some avatar_data) =
           Return (if String.eqb (ask_save default_filename) ""
                   then AvatarDownload.Cancelled
                   else AvatarDownload.StartDownload (AvatarDownload.fix_url url)
                          (ask_save default_filename))).
Proof.
  split; [apply fix_url_cuts_first|].
  split; [intros Hno; split; [by apply fix_url_unchanged | by apply fix_url_trailing]|].
  split; [reflexivity|].
  split; [intros; apply worker_requests_fixed|].
  intros. by apply slot_hands_over_fixed.
Qed.

Lemma security_variant_removed_witness :
  ∃ rest,
    "https://files.example/file/variant/security?x=1"%string =
      AvatarDownload.fix_url "https://files.example/file/variant/security?x=1"
      +:+ AvatarDownload.security_variant +:+ rest.
Proof.
  destruct (proj1 (security_variant_removed
                     "https://files.example/file/variant/security?x=1"))
    as (rest & Hcut & _).
  - by exists "https://files.example/file"%string, "?x=1"%string.
  - exists rest. exact Hcut.
Defined.

(** C10: when the response status is not 200, the worker stops with an
    error whose message contains that status code, and it stops before the
    destination is opened: the files on disk are as they were, so the
    destination is neither created nor modified. *)
Theorem failed_download_keeps_destination (server : string → Response)
    (can_open : string → bool) (file_url output_path : string) (w : World)
    (Hstatus : status_code (server (AvatarDownload.fix_url file_url)) ≠ 200) :
  let status := status_code (server (AvatarDownload.fix_url file_url)) in
  let message := "Download failed with status " +:+ str status in
  download_file_worker server can_open file_url output_path w =
    (http_get (AvatarDownload.fix_url file_url) w, Raise (Exception message))
  ∧ occurs_in (str status) message
  ∧ files (fst (download_file_worker server can_open file_url output_path w)) = files w
  ∧ progress (fst (download_file_worker server can_open file_url output_path w)) =
      progress w.
Proof.
  cbn zeta.
  assert (download_file_worker server can_open file_url output_path w =
          (http_get (AvatarDownload.fix_url file_url) w,
           Raise (Exception ("Download failed with status " +:+
                    str (status_code (server (AvatarDownload.fix_url file_url))))))) as Hrun.
  { unfold download_file_worker. fold_fix_url.
    apply Z.eqb_neq in Hstatus. by rewrite Hstatus. }
  rewrite Hrun. split; [done|]. split; [|done].
  exists "Download failed with status "%string, ""%string. by rewrite app_empty_r.
Qed.

Lemma failed_download_keeps_destination_witness :
  download_file_worker serve_404 always_opens "https://files.example/file" "avatar.vrca"
    world_with_file =
  (http_get "https://files.example/file" world_with_file,
   Raise (Exception "Download failed with status 404"))
  ∧ files (fst (download_file_worker serve_404 always_opens "https://files.example/file"
                  "avatar.vrca" world_with_file)) !! "avatar.vrca" =
    Some [Byte.x01; Byte.x02].
Proof.
  destruct (failed_download_keeps_destination serve_404 always_opens
              "https://files.example/file" "avatar.vrca" world_with_file)
    as (Hrun & _ & Hfiles & _).
  - done.
  - split; [exact Hrun|]. rewrite Hfiles. reflexivity.
Defined.

End DownloadFacts.

(** *** Colour arithmetic *)
Section ColorFacts.
Import Py Text Color.

Lemma hex_digit_chars (c : ascii) (d : Z) :
  hex_digit c = Some d → In c hex_chars ∧ 0 ≤ d ≤ 15.
Proof.
  destruct c as [[] [] [] [] [] [] [] []]; vm_compute; intros H; try discriminate H;
    (split; [ repeat (first [ left; reflexivity | right ])
            | injection H as <-; split; discriminate ]).
Qed.

Lemma hex_digit_not_hash (c : ascii) (d : Z) : hex_digit c = Some d → is_hash c = false.
Proof.
  intros H. destruct (hex_digit_chars c d H) as [Hin _].
  unfold hex_chars in Hin. simpl in Hin.
  repeat (destruct Hin as [<- | Hin]; [reflexivity|]). destruct Hin.
Qed.

Lemma int16_pair (hi lo : ascii) (a b : Z) :
  hex_digit hi = Some a → hex_digit lo = Some b →
  int16 (String hi (String lo "")) = Some (16 * a + b).
Proof.
  intros Hhi Hlo.
  assert (forallb (λ hi, forallb (λ lo,
            bool_decide (int16 (String hi (String lo "")) =
                         (a ← hex_digit hi; b ← hex_digit lo; Some (16 * a + b))))
            hex_chars) hex_chars = true) as Hall by (vm_compute; reflexivity).
  rewrite forallb_forall in Hall.
  specialize (Hall hi (proj1 (hex_digit_chars _ _ Hhi))).
  rewrite forallb_forall in Hall.
  specialize (Hall lo (proj1 (hex_digit_chars _ _ Hlo))).
  apply bool_decide_eq_true in Hall. rewrite Hall, Hhi, Hlo. reflexivity.
Qed.

Lemma format_two_digits (n : Z) : is_channel n = true → two_digits n = true.
Proof.
  intros Hn. unfold is_channel in Hn. apply andb_true_iff in Hn as [H0 H1].
  apply Z.leb_le in H0, H1.
  assert (forallb (λ k, two_digits (Z.of_nat k)) (seq 0 256) = true) as Hall
    by (vm_compute; reflexivity).
  rewrite forallb_forall in Hall.
  specialize (Hall (Z.to_nat n)). rewrite Z2Nat.id in Hall by lia.
  apply Hall. apply in_seq. lia.
Qed.


Lemma format_02x_digits (n : Z) :
  is_channel n = true →
  ∃ hi lo, format_02x n = String hi (String lo "") ∧
           hex_digit hi = Some (n / 16) ∧ hex_digit lo = Some (n mod 16).
Proof.
  intros Hn. apply format_two_digits in Hn. unfold two_digits in Hn.
  destruct (format_02x n) as [|hi [|lo [|]]]; try discriminate Hn.
  apply andb_true_iff in Hn as [Hhi Hlo].
  apply bool_decide_eq_true in Hhi, Hlo. eauto.
Qed.

Lemma to_hex_shape (r g b : Z) :
  is_channel r = true → is_channel g = true → is_channel b = true →
  ∃ r1 r2 g1 g2 b1 b2,
    to_hex r g b =
      String "#" (String r1 (String r2 (String g1 (String g2 (String b1 (String b2 "")))))) ∧
    hex_digit r1 = Some (r / 16) ∧ hex_digit r2 = Some (r mod 16) ∧
    hex_digit g1 = Some (g / 16) ∧ hex_digit g2 = Some (g mod 16) ∧
    hex_digit b1 = Some (b / 16) ∧ hex_digit b2 = Some (b mod 16).
Proof.
  intros Hr Hg Hb.
  destruct (format_02x_digits r Hr) as (r1 & r2 & Er & ? & ?).
  destruct (format_02x_digits g Hg) as (g1 & g2 & Eg & ? & ?).
  destruct (format_02x_digits b Hb) as (b1 & b2 & Eb & ? & ?).
  exists r1, r2, g1, g2, b1, b2. unfold to_hex. rewrite Er, Eg, Eb. simpl. auto 10.
Qed.

Lemma channels_to_hex (r g b : Z) :
  is_channel r = true → is_channel g = true → is_channel b = true →
  channels (to_hex r g b) = Some (r, g, b).
Proof.
  intros Hr Hg Hb.
  destruct (to_hex_shape r g b Hr Hg Hb) as (r1 & r2 & g1 & g2 & b1 & b2 & E & H1 & H2 & H3 & H4 & H5 & H6).
  rewrite E. unfold channels.
  change (lstrip is_hash (String "#" ?s)) with (lstrip is_hash s).
  cbn [lstrip]. rewrite (hex_digit_not_hash _ _ H1). cbn [take drop].
  rewrite (int16_pair _ _ _ _ H1 H2), (int16_pair _ _ _ _ H3 H4), (int16_pair _ _ _ _ H5 H6).
  cbn. unfold is_channel in *.
  repeat f_equal; match goal with |- 16 * (?n / 16) + _ = _ => symmetry; apply (Z.div_mod n 16); lia end.
Qed.

Lemma is_color_to_hex (r g b : Z) :
  is_channel r = true → is_channel g = true → is_channel b = true →
  is_color (to_hex r g b) = true ∧ String.length (to_hex r g b) = 7%nat.
Proof.
  intros Hr Hg Hb.
  destruct (to_hex_shape r g b Hr Hg Hb) as (r1 & r2 & g1 & g2 & b1 & b2 & E & H1 & H2 & H3 & H4 & H5 & H6).
  rewrite E. split; [|reflexivity]. unfold is_color.
  change (lstrip is_hash (String "#" ?s)) with (lstrip is_hash s).
  cbn [lstrip]. rewrite (hex_digit_not_hash _ _ H1). cbn [take String.length all_hex].
  rewrite H1, H2, H3, H4, H5, H6. reflexivity.
Qed.

Lemma is_color_channels (color : string) :
  is_color color = true →
  ∃ r g b, channels color = Some (r, g, b) ∧
           is_channel r = true ∧ is_channel g = true ∧ is_channel b = true.
Proof.
  unfold is_color, channels. intros H. apply andb_true_iff in H as [Hlen Hhex].
  destruct (lstrip is_hash color) as [|r1 [|r2 [|g1 [|g2 [|b1 [|b2 rest]]]]]];
    try discriminate Hlen.
  cbn [take all_hex] in Hhex.
  destruct (hex_digit r1) as [x1|] eqn:H1; [|discriminate].
  destruct (hex_digit r2) as [x2|] eqn:H2; [|discriminate].
  destruct (hex_digit g1) as [x3|] eqn:H3; [|discriminate].
  destruct (hex_digit g2) as [x4|] eqn:H4; [|discriminate].
  destruct (hex_digit b1) as [x5|] eqn:H5; [|discriminate].
  destruct (hex_digit b2) as [x6|] eqn:H6; [|discriminate].
  cbn [take drop].
  rewrite (int16_pair _ _ _ _ H1 H2), (int16_pair _ _ _ _ H3 H4), (int16_pair _ _ _ _ H5 H6).
  apply hex_digit_chars in H1 as [_ ?], H2 as [_ ?], H3 as [_ ?], H4 as [_ ?], H5 as [_ ?], H6 as [_ ?].
  eexists _, _, _. split; [reflexivity|]. unfold is_channel.
  repeat split; apply andb_true_iff; split; apply Z.leb_le; lia.
Qed.

Lemma is_channel_lighten (n amount : Z) :
  is_channel n = true → 0 ≤ amount → is_channel (Z.min 255 (n + amount)) = true.
Proof.
  unfold is_channel. intros H Ha. apply andb_true_iff in H as [H0 H1].
  apply Z.leb_le in H0, H1. apply andb_true_iff; split; apply Z.leb_le; lia.
Qed.

Lemma is_channel_darken (n amount : Z) :
  is_channel n = true → 0 ≤ amount → is_channel (Z.max 0 (n - amount)) = true.
Proof.
  unfold is_channel. intros H Ha. apply andb_true_iff in H as [H0 H1].
  apply Z.leb_le in H0, H1. apply andb_true_iff; split; apply Z.leb_le; lia.
Qed.

Lemma lighten_channels (color : string) (amount r g b : Z) :
  channels color = Some (r, g, b) →
  _lighten_color color amount =
    Some (to_hex (Z.min 255 (r + amount)) (Z.min 255 (g + amount)) (Z.min 255 (b + amount))).
Proof. intros E. unfold _lighten_color. rewrite E. reflexivity. Qed.

Lemma darken_channels (color : string) (amount r g b : Z) :
  channels color = Some (r, g, b) →
  _darken_color color amount =
    Some (to_hex (Z.max 0 (r - amount)) (Z.max 0 (g - amount)) (Z.max 0 (b - amount))).
Proof. intros E. unfold _darken_color. rewrite E. reflexivity. Qed.

(** X1.  On a colour as the theme table writes them (six hexadecimal digits
    after the hashes) and a non-negative amount, [_lighten_color] and
    [_darken_color] return a colour again: a hash and six hexadecimal
    digits, whose channels are the input's channels moved by the amount and
    cut off at 255, respectively at 0. *)
Theorem shades_are_colors (color : string) (amount : Z)
    (Hcolor : is_color color = true) (Hamount : 0 ≤ amount) :
  ∃ r g b lighter darker,
    channels color = Some (r, g, b) ∧
    _lighten_color color amount = Some lighter ∧
    _darken_color color amount = Some darker ∧
    is_color lighter = true ∧ String.length lighter = 7%nat ∧
    is_color darker = true ∧ String.length darker = 7%nat ∧
    channels lighter =
      Some (Z.min 255 (r + amount), Z.min 255 (g + amount), Z.min 255 (b + amount)) ∧
    channels darker =
      Some (Z.max 0 (r - amount), Z.max 0 (g - amount), Z.max 0 (b - amount)).
Proof.
  destruct (is_color_channels color Hcolor) as (r & g & b & E & Hr & Hg & Hb).
  exists r, g, b. eexists _, _.
  rewrite (lighten_channels _ _ _ _ _ E), (darken_channels _ _ _ _ _ E).
  pose proof (is_channel_lighten r amount Hr Hamount).
  pose proof (is_channel_lighten g amount Hg Hamount).
  pose proof (is_channel_lighten b amount Hb Hamount).
  pose proof (is_channel_darken r amount Hr Hamount).
  pose proof (is_channel_darken g amount Hg Hamount).
  pose proof (is_channel_darken b amount Hb Hamount).
  split; [exact E|]. split; [reflexivity|]. split; [reflexivity|].
  split; [apply is_color_to_hex; assumption|].
  split; [apply is_color_to_hex; assumption|].
  split; [apply is_color_to_hex; assumption|].
  split; [apply is_color_to_hex; assumption|].
  split; apply channels_to_hex; assumption.
Qed.

Lemma shades_are_colors_witness :
  ∃ r g b lighter darker,
    channels "#6C5CE7" = Some (r, g, b) ∧
    _lighten_color "#6C5CE7" 20 = Some lighter ∧
    _darken_color "#6C5CE7" 20 = Some darker ∧
    is_color lighter = true ∧ String.length lighter = 7%nat ∧
    is_color darker = true ∧ String.length darker = 7%nat ∧
    channels lighter =
      Some (Z.min 255 (r + 20), Z.min 255 (g + 20), Z.min 255 (b + 20)) ∧
    channels darker =
      Some (Z.max 0 (r - 20), Z.max 0 (g - 20), Z.max 0 (b - 20)).
Proof. apply (shades_are_colors "#6C5CE7" 20); [reflexivity | lia]. Defined.

(** X2.  Shading composes: on a colour, lightening by [a] and then by [b]
    is lightening by [a + b], and the same for darkening (non-negative
    amounts); and [_adjust_color] is [_lighten_color] for a positive amount
    and [_darken_color] by the opposite amount otherwise, on every input. *)
Theorem shades_compose (color : string) (a b : Z)
    (Hcolor : is_color color = true) (Ha : 0 ≤ a) (Hb : 0 ≤ b) :
  (_lighten_color color a ≫= λ c, _lighten_color c b) = _lighten_color color (a + b) ∧
  (_darken_color color a ≫= λ c, _darken_color c b) = _darken_color color (a + b) ∧
  (∀ text amount,
     _adjust_color text amount =
       if amount >? 0 then _lighten_color text amount else _darken_color text (- amount)).
Proof.
  destruct (is_color_channels color Hcolor) as (r & g & bl & E & Hr & Hg & Hbl).
  split; [|split].
  - rewrite (lighten_channels _ a _ _ _ E), (lighten_channels _ (a + b) _ _ _ E).
    change (Some ?c ≫= ?f) with (f c). cbv beta.
    rewrite (lighten_channels _ b _ _ _
               (channels_to_hex _ _ _ (is_channel_lighten _ _ Hr Ha)
                  (is_channel_lighten _ _ Hg Ha) (is_channel_lighten _ _ Hbl Ha))).
    unfold is_channel in *.
    apply andb_true_iff in Hr as [?%Z.leb_le ?%Z.leb_le].
    apply andb_true_iff in Hg as [?%Z.leb_le ?%Z.leb_le].
    apply andb_true_iff in Hbl as [?%Z.leb_le ?%Z.leb_le].
    f_equal. f_equal; lia.
  - rewrite (darken_channels _ a _ _ _ E), (darken_channels _ (a + b) _ _ _ E).
    change (Some ?c ≫= ?f) with (f c). cbv beta.
    rewrite (darken_channels _ b _ _ _
               (channels_to_hex _ _ _ (is_channel_darken _ _ Hr Ha)
                  (is_channel_darken _ _ Hg Ha) (is_channel_darken _ _ Hbl Ha))).
    unfold is_channel in *.
    apply andb_true_iff in Hr as [?%Z.leb_le ?%Z.leb_le].
    apply andb_true_iff in Hg as [?%Z.leb_le ?%Z.leb_le].
    apply andb_true_iff in Hbl as [?%Z.leb_le ?%Z.leb_le].
    f_equal. f_equal; lia.
  - intros text amount. unfold _adjust_color, _lighten_color, _darken_color.
    destruct (channels text) as [[[x y] z]|]; cbn [mbind option_bind].
    + destruct (amount >? 0); [reflexivity|].
      replace (x - - amount) with (x + amount) by lia.
      replace (y - - amount) with (y + amount) by lia.
      replace (z - - amount) with (z + amount) by lia. reflexivity.
    + destruct (amount >? 0); reflexivity.
Qed.

Lemma shades_compose_witness :
  (_lighten_color "#6C5CE7" 20 ≫= λ c, _lighten_color c 30) = _lighten_color "#6C5CE7" (20 + 30) ∧
  (_darken_color "#6C5CE7" 20 ≫= λ c, _darken_color c 30) = _darken_color "#6C5CE7" (20 + 30) ∧
  (∀ text amount,
     _adjust_color text amount =
       if amount >? 0 then _lighten_color text amount else _darken_color text (- amount)).
Proof. apply (shades_compose "#6C5CE7" 20 30); [reflexivity | lia | lia]. Defined.

(** X3.  A colour with fewer than five characters after the hashes makes
    each of the three functions raise the [ValueError] of [int('', 16)]. *)
Theorem short_color_raises (color : string) (amount : Z)
    (Hshort : (String.length (lstrip is_hash color) < 5)%nat) :
  _lighten_color color amount = None ∧
  _darken_color color amount = None ∧
  _adjust_color color amount = None.
Proof.
  assert (channels color = None) as E.
  { unfold channels.
    destruct (lstrip is_hash color) as [|c1 [|c2 [|c3 [|c4 [|c5 rest]]]]];
      cbn [String.length] in Hshort; try lia; cbn [take drop];
      repeat match goal with |- context [int16 (String ?a ?s)] =>
               destruct (int16 (String a s)); cbn [mbind option_bind] end;
      reflexivity. }
  unfold _lighten_color, _darken_color, _adjust_color. rewrite E. auto.
Qed.

Lemma short_color_raises_witness :
  _lighten_color "#fff" 20 = None ∧
  _darken_color "#fff" 20 = None ∧
  _adjust_color "#fff" 20 = None.
Proof. apply (short_color_raises "#fff" 20). vm_compute. lia. Defined.

End ColorFacts.

(** *** The download, beyond the claims *)
Section DownloadMore.
Import Py Text FileDownload.

(** What [fix_url] returns holds no security-variant segment. *)
Lemma fix_url_clean (url : string) :
  ¬ occurs_in AvatarDownload.security_variant (AvatarDownload.fix_url url).
Proof.
  unfold AvatarDownload.fix_url.
  destruct (contains AvatarDownload.security_variant url) eqn:Hc.
  - rewrite first_split. unfold contains in Hc.
    destruct (find AvatarDownload.security_variant url) as [i|] eqn:Hf; [|done].
    destruct (find_Some _ _ _ Hf) as (rest & Hcut & Hlen).
    intros (a & b & E). rewrite E in Hcut. rewrite !app_assoc_str in Hcut.
    pose proof (find_is_first _ _ _ _ _ Hf Hcut) as Hle.
    apply (f_equal String.length) in E. rewrite Hlen, !length_app_str in E.
    simpl in E. lia.
  - intros Hocc. apply contains_spec in Hocc. congruence.
Qed.

Lemma lstrip_suffix (pred : ascii → bool) (s : string) : ∃ a, s = a +:+ lstrip pred s.
Proof.
  induction s as [|c s [a IH]]; [by exists ""%string|].
  simpl. destruct (pred c); [|by exists ""%string].
  exists (String c a). simpl. by rewrite <- IH.
Qed.

Lemma rstrip_prefix (pred : ascii → bool) (s : string) : ∃ b, s = rstrip pred s +:+ b.
Proof.
  induction s as [|c s [b IH]]; [by exists ""%string|].
  simpl. destruct (rstrip pred s) as [|c' kept] eqn:E.
  - destruct (pred c); [by exists (String c s)|]. exists s. done.
  - exists b. simpl. simpl in IH. by rewrite <- IH.
Qed.

Lemma strip_occurs (s : string) : occurs_in (strip s) s.
Proof.
  unfold strip. destruct (lstrip_suffix isspace s) as [a Ha].
  destruct (rstrip_prefix isspace (lstrip isspace s)) as [b Hb].
  exists a, b. rewrite <- Hb. exact Ha.
Qed.

Lemma occurs_in_trans (a b c : string) : occurs_in a b → occurs_in b c → occurs_in a c.
Proof.
  intros (x & y & ->) (u & v & ->). exists (u +:+ x), (y +:+ v).
  by rewrite !app_assoc_str.
Qed.

(** X4.  The security-variant segment never reaches the server: what
    [fix_url] returns holds no occurrence of it, fixing twice is fixing
    once, and the one URL a run of the download worker requests holds
    none. *)
Theorem fixed_url_is_clean (server : string → Response) (can_open : string → bool)
    (file_url output_path : string) (w : World) :
  ¬ occurs_in AvatarDownload.security_variant (AvatarDownload.fix_url file_url)
  ∧ AvatarDownload.fix_url (AvatarDownload.fix_url file_url) = AvatarDownload.fix_url file_url
  ∧ ∃ url,
      requested (fst (download_file_worker server can_open file_url output_path w)) =
        requested w ++ [url]
      ∧ ¬ occurs_in AvatarDownload.security_variant url.
Proof.
  split; [apply fix_url_clean|]. split; [apply fix_url_unchanged, fix_url_clean|].
  exists (AvatarDownload.fix_url file_url).
  split; [apply worker_requests_fixed | apply fix_url_clean].
Qed.

(** Stripping a fixed URL leaves nothing to fix. *)
Lemma fix_url_of_stripped (url : string) :
  AvatarDownload.fix_url (strip (AvatarDownload.fix_url url)) =
    strip (AvatarDownload.fix_url url).
Proof.
  apply fix_url_unchanged. intros Hocc.
  apply (fix_url_clean url). eapply occurs_in_trans; [exact Hocc | apply strip_occurs].
Qed.

(** X5.  The downloader tab, for a URL field holding ASCII text: without a
    session, or with a URL field that is empty once stripped,
    [download_file] changes nothing (no request, no file); otherwise the
    worker it starts sends one request, for the stripped field text with
    the security variant cut off.  When the field was filled by the avatar
    slot with an ASCII URL, that second cut changes nothing. *)
Theorem tab_download_requests (server : string → Response) (can_open : string → bool)
    (api_client : bool) (file_url_input file_output_input : string) (w : World)
    (Hascii : isascii file_url_input = true) :
  let w' := DownloadTab.download server can_open api_client file_url_input file_output_input w in
  (api_client = false → w' = w)
  ∧ (strip file_url_input = ""%string → w' = w)
  ∧ (api_client = true → strip file_url_input ≠ ""%string →
     requested w' = requested w ++ [AvatarDownload.fix_url (strip file_url_input)])
  ∧ (∀ url, isascii url = true →
            AvatarDownload.fix_url (strip (AvatarDownload.fix_url url)) =
            strip (AvatarDownload.fix_url url)).
Proof.
  unfold DownloadTab.download, DownloadTab.download_file. cbv zeta.
  split; [by intros ->|]. split; [intros ->; by destruct api_client|].
  split.
  - intros -> Hne. simpl. apply String.eqb_neq in Hne. rewrite Hne.
    apply worker_requests_fixed.
  - intros url _. apply fix_url_of_stripped.
Qed.

Lemma tab_download_requests_witness :
  requested (DownloadTab.download serve_1600k always_opens true
               "  https://files/1/file/variant/security " "avatar.vrca" empty_world) =
    ["https://files/1/file"%string].
Proof.
  refine (proj1 (proj2 (proj2 (tab_download_requests serve_1600k always_opens true
            "  https://files/1/file/variant/security " "avatar.vrca" empty_world _)))
            eq_refl _).
  - reflexivity.
  - discriminate.
Defined.

Lemma write_chunks_fresh (total_size : Z) (output_path : string)
    (chunks : list (list byte)) (w : World) :
  files (write_chunks total_size output_path chunks 0 (open_wb output_path w)) =
    <[output_path := concat chunks]> (files w).
Proof.
  rewrite write_chunks_files. cbn [open_wb files].
  apply map_eq. intros k. destruct (decide (k = output_path)) as [->|Hne].
  - by rewrite lookup_alter_eq, !lookup_insert_eq.
  - by rewrite lookup_alter_ne, !lookup_insert_ne.
Qed.

(** X6.  A download answered with status 200: when the destination opens,
    the worker returns success with the path, the destination holds exactly
    the body of the response (whatever it held before, whatever length the
    server announced) and every other file is as it was; when it does not
    open, the worker raises and no file changes.  Either way exactly one
    request was sent. *)
Theorem download_replaces_destination (server : string → Response)
    (can_open : string → bool) (file_url output_path : string) (w : World)
    (Hstatus : status_code (server (AvatarDownload.fix_url file_url)) = 200) :
  let response := server (AvatarDownload.fix_url file_url) in
  let run := download_file_worker server can_open file_url output_path w in
  requested (fst run) = requested w ++ [AvatarDownload.fix_url file_url]
  ∧ (can_open output_path = true →
     snd run = Return {| success := true; path := output_path |}
     ∧ files (fst run) = <[output_path := body response]> (files w))
  ∧ (can_open output_path = false →
     snd run = Raise OSError ∧ files (fst run) = files w ∧ progress (fst run) = progress w).
Proof.
  intros response run. split; [apply worker_requests_fixed|]. split.
  - intros Ho. unfold run.
    rewrite (download_completes server can_open file_url output_path w Hstatus Ho).
    split; [done|]. cbn [fst]. rewrite write_chunks_fresh. done.
  - intros Ho. unfold run, download_file_worker.
    change (if contains "/variant/security" file_url
            then first (split "/variant/security" file_url) else file_url)
      with (AvatarDownload.fix_url file_url).
    rewrite Hstatus, Ho. done.
Qed.

Lemma download_replaces_destination_witness :
  let response := serve_1600k (AvatarDownload.fix_url "https://files/1/file") in
  let run := download_file_worker serve_1600k always_opens "https://files/1/file"
               "avatar.vrca" world_with_file in
  requested (fst run) = requested world_with_file ++ [AvatarDownload.fix_url "https://files/1/file"]
  ∧ (always_opens "avatar.vrca" = true →
     snd run = Return {| success := true; path := "avatar.vrca" |}
     ∧ files (fst run) = <["avatar.vrca" := body response]> (files world_with_file))
  ∧ (always_opens "avatar.vrca" = false →
     snd run = Raise OSError ∧ files (fst run) = files world_with_file
     ∧ progress (fst run) = progress world_with_file).
Proof.
  apply (download_replaces_destination serve_1600k always_opens "https://files/1/file"
           "avatar.vrca" world_with_file).
  reflexivity.
Defined.

(** The byte counts after each chunk grow, up to the length of the body. *)
Lemma downloaded_after_bounds (chunks : list (list byte)) (downloaded : Z) :
  Forall (λ d, downloaded < d ≤ downloaded + Z.of_nat (length (concat chunks)))
    (downloaded_after downloaded chunks)
  ∧ StronglySorted Z.le (downloaded_after downloaded chunks)
  ∧ (concat chunks ≠ [] →
     last (downloaded_after downloaded chunks) =
       Some (downloaded + Z.of_nat (length (concat chunks)))).
Proof.
  revert downloaded. induction chunks as [|chunk rest IH]; intros downloaded.
  - simpl. split; [constructor|]. split; [constructor | done].
  - destruct (decide (chunk = [])) as [->|Hne]; [exact (IH downloaded)|].
    rewrite (downloaded_after_step _ _ _ Hne).
    destruct (IH (downloaded + Z.of_nat (length chunk))) as (Hall & Hsorted & Hlast).
    assert (0 < Z.of_nat (length chunk)) as Hpos by (destruct chunk; [done | simpl; lia]).
    cbn [concat]. rewrite length_app, Nat2Z.inj_add.
    split; [|split].
    + constructor; [lia|]. eapply Forall_impl; [exact Hall|]. intros d Hd. simpl in Hd. lia.
    + constructor; [exact Hsorted|].
      eapply Forall_impl; [exact Hall|]. intros d Hd. simpl in Hd. lia.
    + intros _. destruct (decide (concat rest = [])) as [E|Hrest].
      * destruct (downloaded_after _ rest) as [|d ds] eqn:Ed.
        -- rewrite E. simpl. f_equal. lia.
        -- exfalso. apply Forall_inv in Hall. rewrite E in Hall. simpl in Hall. lia.
      * rewrite last_cons, (Hlast Hrest). f_equal. lia.
Qed.

Lemma StronglySorted_map_mono (f : Z → Z) (l : list Z) :
  (∀ a b, In a l → In b l → a ≤ b → f a ≤ f b) →
  StronglySorted Z.le l → StronglySorted Z.le (map f l).
Proof.
  intros Hf Hs. induction Hs as [|a l Hs IH Ha]; [constructor|].
  cbn [map]. constructor.
  - apply IH. intros x y Hx Hy. apply Hf; by right.
  - apply List.Forall_forall. intros y Hy. apply in_map_iff in Hy as (x & <- & Hx).
    apply Hf; [by left | by right |]. rewrite List.Forall_forall in Ha. by apply Ha.
Qed.

(** X7.  Progress of a download whose announced length is positive and
    covers the body: the percents reported never decrease, lie between 0
    and 100, and end at 100 when the body has exactly the announced
    length. *)
Theorem progress_percents_rise (server : string → Response) (can_open : string → bool)
    (file_url output_path : string) (w : World)
    (Hstatus : status_code (server (AvatarDownload.fix_url file_url)) = 200)
    (Hopen : can_open output_path = true)
    (Hpositive : 0 < default 0 (content_length (server (AvatarDownload.fix_url file_url))))
    (Hfits : Z.of_nat (length (body (server (AvatarDownload.fix_url file_url)))) ≤
             default 0 (content_length (server (AvatarDownload.fix_url file_url)))) :
  let response := server (AvatarDownload.fix_url file_url) in
  ∃ signals,
    progress (fst (download_file_worker server can_open file_url output_path w)) =
      progress w ++ signals
    ∧ StronglySorted Z.le (map fst signals)
    ∧ Forall (λ percent, 0 ≤ percent ≤ 100) (map fst signals)
    ∧ (Z.of_nat (length (body response)) = default 0 (content_length response) →
       last (map fst signals) = Some 100).
Proof.
  intros response. eexists. split.
  { apply (known_size_reports_every_chunk server can_open file_url output_path w
             Hstatus Hopen Hpositive). }
  fold response in Hpositive, Hfits |- *.
  destruct (downloaded_after_bounds (iter_content response) 0) as (Hall & Hsorted & Hlast).
  fold (body response) in Hall, Hlast. rewrite List.Forall_forall in Hall.
  clearbody response.
  generalize dependent (default 0 (content_length response)). intros total_size Hpositive Hfits.
  rewrite map_map. cbn [progress_signal fst].
  split; [|split].
  - apply StronglySorted_map_mono; [|exact Hsorted].
    intros a b Ha Hb Hab. apply Z.quot_le_mono; lia.
  - apply List.Forall_forall. intros p Hp. apply in_map_iff in Hp as (d & <- & Hd).
    specialize (Hall d Hd). split.
    + apply Z.quot_pos; lia.
    + transitivity ((100 * total_size) `quot` total_size).
      * apply Z.quot_le_mono; lia.
      * rewrite Z.quot_mul; lia.
  - intros Hexact.
    assert (body response ≠ []) as Hne by (intros E; rewrite E in Hexact; simpl in Hexact; lia).
    change (map ?f ?l) with (f <$> l). rewrite fmap_last, (Hlast Hne).
    cbn [fmap option_fmap option_map].
    f_equal. rewrite Z.add_0_l, Hexact, Z.mul_comm. apply Z.quot_mul. lia.
Qed.

Lemma progress_percents_rise_witness :
  ∃ signals,
    progress (fst (download_file_worker serve_1600k always_opens "https://files/1/file"
                     "avatar.vrca" empty_world)) =
      progress empty_world ++ signals
    ∧ StronglySorted Z.le (map fst signals)
    ∧ Forall (λ percent, 0 ≤ percent ≤ 100) (map fst signals)
    ∧ (Z.of_nat (length (body (serve_1600k (AvatarDownload.fix_url "https://files/1/file")))) =
         default 0 (content_length (serve_1600k (AvatarDownload.fix_url "https://files/1/file"))) →
       last (map fst signals) = Some 100).
Proof.
  apply (progress_percents_rise serve_1600k always_opens "https://files/1/file"
           "avatar.vrca" empty_world).
  - reflexivity.
  - reflexivity.
  - reflexivity.
  - change (Z.of_nat (length (concat (repeat full_chunk 200))) ≤ 1638400).
    assert (∀ n, Z.of_nat (length (concat (repeat full_chunk n))) = Z.of_nat n * chunk_size)
      as Hlen.
    { induction n as [|n IH]; [done|]. cbn [repeat concat].
      rewrite length_app, Nat2Z.inj_add, IH.
      unfold full_chunk. rewrite repeat_length, Z2Nat.id by done. lia. }
    rewrite Hlen. unfold chunk_size. lia.
Defined.

End DownloadMore.

(** *** The fetch against any server *)
Section FetchMore.
Import Py AvatarFetch.
Context {A : Type}.

Lemma make_params_n (filter_type : string) (offset : Z) :
  make_params filter_type offset !! "n" = Some (VInt 100).
Proof.
  unfold make_params.
  destruct (String.eqb filter_type "Private Avatars");
    [|destruct (String.eqb filter_type "Public Avatars")];
    by simplify_map_eq.
Qed.

(** The loop against any server: full pages answered with 200, then a
    status other than 200. *)
Lemma fetch_pages_error_after (server : nat → Response A) (filter_type : string)
    (pages : list nat) (j : nat) (st : Loop A) :
  (j < length pages)%nat →
  (∀ k, (k < j)%nat →
        status_code (server (length (sent st) + k)%nat) = 200
        ∧ page_size ≤ Z.of_nat (length (json (server (length (sent st) + k)%nat)))) →
  status_code (server (length (sent st) + j)%nat) ≠ 200 →
  fetch_pages server filter_type pages st =
    (sent st ++ map (λ k, make_params filter_type (offset st + page_size * Z.of_nat k))
                  (seq 0 (S j)),
     Raise (Exception
              ("API error: " +:+ str (status_code (server (length (sent st) + j)%nat))))).
Proof.
  revert j st. induction pages as [|page rest IH]; intros j st Hj Hfull Herr.
  { simpl in Hj. lia. }
  cbn [fetch_pages]. destruct j as [|j].
  - rewrite Nat.add_0_r in Herr |- *. apply Z.eqb_neq in Herr. rewrite Herr.
    cbn [negb seq map]. by rewrite Z.mul_0_r, Z.add_0_r.
  - destruct (Hfull 0%nat ltac:(lia)) as [Hok Hlen]. rewrite Nat.add_0_r in Hok, Hlen.
    rewrite Hok. cbn [negb Z.eqb Pos.eqb].
    destruct (json (server (length (sent st)))) as [|a page'] eqn:Hpage.
    { exfalso. unfold page_size in Hlen. cbn [length] in Hlen. lia. }
    rewrite <- Hpage in Hlen |- *.
    destruct (Z.of_nat (length (json (server (length (sent st))))) <? page_size) eqn:Hshort.
    { exfalso. apply Z.ltb_lt in Hshort. lia. }
    rewrite (IH j); cbn [sent offset all_avatars].
    + rewrite length_app, Nat.add_1_r. cbn [length]. rewrite <- Nat.add_succ_comm.
      f_equal. rewrite <- app_assoc. f_equal.
      change (seq 0 (S (S j))) with (0%nat :: seq 1 (S j)).
      rewrite <- (seq_shift (S j) 0), map_cons, map_map. cbn [app].
      f_equal; [f_equal; lia|]. apply map_ext. intros k. f_equal. lia.
    + simpl in Hj. lia.
    + intros k Hk. rewrite length_app. cbn [length].
      replace (length (sent st) + 1 + k)%nat with (length (sent st) + S k)%nat by lia.
      apply Hfull. lia.
    + rewrite length_app. cbn [length].
      by replace (length (sent st) + 1 + j)%nat with (length (sent st) + S j)%nat by lia.
Qed.

(** The loop against any server: at most one request per round, each asking
    for a hundred records, and what is returned grows by at most one page
    a round. *)
Lemma fetch_pages_bounds (server : nat → Response A) (filter_type : string)
    (pages : list nat) (st : Loop A) :
  let run := fetch_pages server filter_type pages st in
  (length (fst run) ≤ length (sent st) + length pages)%nat
  ∧ (pages ≠ [] → length (sent st) < length (fst run))%nat
  ∧ (Forall (λ params, params !! "n" = Some (VInt 100)) (sent st) →
     Forall (λ params, params !! "n" = Some (VInt 100)) (fst run))
  ∧ (∀ l, snd run = Return l →
          (∀ k, Z.of_nat (length (json (server k))) ≤ page_size) →
          Z.of_nat (length l) ≤
            Z.of_nat (length (all_avatars st)) + page_size * Z.of_nat (length pages)).
Proof.
  revert st. induction pages as [|page rest IH]; intros st.
  { simpl. split; [lia|]. split; [done|]. split; [done|]. intros l [= <-] _. lia. }
  cbn zeta. cbn [fetch_pages].
  assert (Forall (λ params, params !! "n" = Some (VInt 100)) (sent st) →
          Forall (λ params, params !! "n" = Some (VInt 100))
            (sent st ++ [make_params filter_type (offset st)])) as Hn.
  { intros H. apply Forall_app. split; [exact H|]. constructor; [|constructor].
    apply make_params_n. }
  assert (length (sent st ++ [make_params filter_type (offset st)]) = S (length (sent st)))
    as Hlen by (rewrite length_app; simpl; lia).
  destruct (negb (status_code (server (length (sent st))) =? 200)).
  { cbn [fst snd]. rewrite Hlen. cbn [length]. split; [lia|]. split; [lia|].
    split; [exact Hn|]. done. }
  destruct (json (server (length (sent st)))) as [|a page'] eqn:Hpage.
  { cbn [fst snd]. rewrite Hlen. cbn [length]. split; [lia|]. split; [lia|].
    split; [exact Hn|]. intros l [= <-] _. unfold page_size. lia. }
  rewrite <- Hpage.
  destruct (Z.of_nat (length (json (server (length (sent st))))) <? page_size) eqn:Hshort.
  { cbn [fst snd]. rewrite Hlen. cbn [length]. split; [lia|]. split; [lia|].
    split; [exact Hn|]. intros l [= <-] Hserver.
    specialize (Hserver (length (sent st))). rewrite length_app. unfold page_size in *. lia. }
  match goal with |- context [fetch_pages _ _ rest ?st'] =>
    destruct (IH st') as (H1 & H2 & H3 & H4) end.
  cbn [sent offset all_avatars] in H1, H2, H3, H4. rewrite Hlen in H1, H2.
  cbn [length]. split; [lia|]. split.
  { intros _. destruct rest as [|p rest']; [simpl; rewrite Hlen; lia|].
    specialize (H2 ltac:(done)). lia. }
  split; [intros H; apply H3, Hn, H|].
  intros l Hl Hserver. specialize (H4 l Hl Hserver).
  specialize (Hserver (length (sent st))). rewrite length_app in H4.
  unfold page_size in *. lia.
Qed.

(** X8.  A status other than 200 on request [j], after full pages answered
    with 200, ends the fetch with the exception naming that status: the
    worker has sent [j + 1] requests, at offsets 0, 100, ..., and the
    records of the pages already received are not returned. *)
Theorem fetch_error_drops_pages (server : nat → Response A) (filter_type : string)
    (j : nat) (Hj : (j < 10)%nat)
    (Hfull : ∀ k, (k < j)%nat →
               status_code (server k) = 200 ∧ 100 ≤ Z.of_nat (length (json (server k))))
    (Herror : status_code (server j) ≠ 200) :
  fetch_avatars_worker server filter_type =
    (map (λ k : nat, make_params filter_type (100 * Z.of_nat k)) (seq 0 (S j)),
     Raise (Exception ("API error: " +:+ str (status_code (server j))))).
Proof.
  unfold fetch_avatars_worker.
  rewrite (fetch_pages_error_after server filter_type (seq 0 max_pages) j); cbn [sent offset].
  - reflexivity.
  - rewrite length_seq. exact Hj.
  - exact Hfull.
  - exact Herror.
Qed.

(** X9.  Whatever the server answers, the worker sends between one and ten
    requests, each asking for a hundred records; and when the server sends
    no more than the hundred asked for, a returned list has at most a
    thousand records. *)
Theorem fetch_is_bounded (server : nat → Response A) (filter_type : string) :
  let run := fetch_avatars_worker server filter_type in
  (1 ≤ length (fst run) ≤ 10)%nat
  ∧ Forall (λ params, params !! "n" = Some (VInt 100)) (fst run)
  ∧ ((∀ k, Z.of_nat (length (json (server k))) ≤ 100) →
     ∀ avatars, snd run = Return avatars → (length avatars ≤ 1000)%nat).
Proof.
  intros run. unfold run, fetch_avatars_worker.
  destruct (fetch_pages_bounds server filter_type (seq 0 max_pages)
              {| sent := []; offset := 0; all_avatars := [] |}) as (H1 & H2 & H3 & H4).
  cbn [sent all_avatars] in H1, H2, H3, H4. rewrite length_seq in H1, H4.
  change (length []) with 0%nat in H1, H2, H4.
  unfold max_pages, page_size in *.
  split; [split; [apply H2; done | lia]|]. split; [apply H3; constructor|].
  intros Hserver avatars Hret. specialize (H4 avatars Hret Hserver). lia.
Qed.

End FetchMore.

Lemma fetch_error_drops_pages_witness :
  AvatarFetch.fetch_avatars_worker
    (λ k, if (k =? 0)%nat
          then {| AvatarFetch.status_code := 200; AvatarFetch.json := repeat 7%nat 100 |}
          else {| AvatarFetch.status_code := 503; AvatarFetch.json := [] |})
    "All Avatars" =
    (map (λ k : nat, AvatarFetch.make_params "All Avatars" (100 * Z.of_nat k)) (seq 0 2),
     Py.Raise (Py.Exception ("API error: " +:+ Py.str 503))).
Proof.
  apply (fetch_error_drops_pages
           (λ k, if (k =? 0)%nat
                 then {| AvatarFetch.status_code := 200; AvatarFetch.json := repeat 7%nat 100 |}
                 else {| AvatarFetch.status_code := 503; AvatarFetch.json := [] |})
           "All Avatars" 1%nat).
  - lia.
  - intros k Hk. replace k with 0%nat by lia. split; [reflexivity|].
    cbn [Nat.eqb AvatarFetch.json]. rewrite repeat_length. lia.
  - discriminate.
Defined.

Lemma fetch_is_bounded_witness :
  let run := AvatarFetch.fetch_avatars_worker
               (AvatarFetch.serving (λ _, repeat 7%nat 100)) "All Avatars" in
  (1 ≤ length (fst run) ≤ 10)%nat
  ∧ Forall (λ params, params !! "n" = Some (Py.VInt 100)) (fst run)
  ∧ ∀ avatars, snd run = Py.Return avatars → (length avatars ≤ 1000)%nat.
Proof.
  pose proof (fetch_is_bounded (AvatarFetch.serving (λ _, repeat 7%nat 100)) "All Avatars")
    as (Hsent & Hasked & Hbound).
  split; [exact Hsent|]. split; [exact Hasked|]. apply Hbound.
  intros k. cbn [AvatarFetch.serving AvatarFetch.json]. rewrite repeat_length. lia.
Defined.

(** *** Walking through the pages *)
Section PagingFacts.
Import Py Paging.
#[local] Arguments PaginationWidget.ceil_div : simpl never.
#[local] Arguments Z.max : simpl never.
#[local] Arguments Z.min : simpl never.
#[local] Arguments Z.div : simpl never.
#[local] Arguments Z.mul : simpl never.
#[local] Arguments slice : simpl never.

(** Under the invariant, recounting the pages changes nothing. *)
Lemma recount_same (self : VRChatManager.t) :
  VRChatManager.invariant self →
  Z.max 1
    ((Z.of_nat (length (VRChatManager.filtered_avatars self)) +
      PaginationWidget.items_per_page (VRChatManager.pagination self) - 1) /
     PaginationWidget.items_per_page (VRChatManager.pagination self)) =
  PaginationWidget.total_pages (VRChatManager.pagination self).
Proof.
  intros (Hd & Ht & Hc). rewrite (page_count_ceil _ _ Hd). by rewrite Ht.
Qed.

(** [change_page] on the page number the widget has just emitted. *)
Lemma change_page_emitted (self : VRChatManager.t) :
  VRChatManager.invariant self →
  VRChatManager.change_page
    (PaginationWidget.current_page (VRChatManager.pagination self)) self =
  VRChatManager.display_current_page
    {| VRChatManager.api_client := VRChatManager.api_client self;
       VRChatManager.avatars_data := VRChatManager.avatars_data self;
       VRChatManager.filtered_avatars := VRChatManager.filtered_avatars self;
       VRChatManager.current_page :=
         PaginationWidget.current_page (VRChatManager.pagination self);
       VRChatManager.items_per_page :=
         PaginationWidget.items_per_page (VRChatManager.pagination self);
       VRChatManager.pagination := VRChatManager.pagination self;
       VRChatManager.search_input := VRChatManager.search_input self;
       VRChatManager.avatar_grid := VRChatManager.avatar_grid self |}.
Proof.
  intros Hinv. pose proof (recount_same self Hinv) as Hsame.
  destruct Hinv as (Hd & Ht & Hc).
  unfold VRChatManager.change_page. f_equal.
  destruct (VRChatManager.filtered_avatars self) eqn:E; [done|].
  f_equal. unfold PaginationWidget.set_page_count. rewrite Hsame.
  destruct (VRChatManager.pagination self) as [c t d]. simpl in *. f_equal. lia.
Qed.

Lemma change_page_synced (self : VRChatManager.t) :
  PaginationWidget.current_page (VRChatManager.pagination self) ≤
    Z.max 1
      ((Z.of_nat (length (VRChatManager.filtered_avatars self)) +
        PaginationWidget.items_per_page (VRChatManager.pagination self) - 1) /
       PaginationWidget.items_per_page (VRChatManager.pagination self)) →
  synced (VRChatManager.change_page
            (PaginationWidget.current_page (VRChatManager.pagination self)) self).
Proof.
  intros Hle. unfold VRChatManager.change_page.
  destruct (VRChatManager.filtered_avatars self) eqn:E; split; simpl; try done.
  simpl in Hle. lia.
Qed.

Lemma with_pagination_synced
    (method : PaginationWidget.t → PaginationWidget.t * option Z) (self : VRChatManager.t) :
  synced self →
  (∀ p signal, method (VRChatManager.pagination self) = (p, signal) →
     match signal with
     | Some page_num =>
         page_num = PaginationWidget.current_page p
         ∧ PaginationWidget.current_page p ≤
             Z.max 1
               ((Z.of_nat (length (VRChatManager.filtered_avatars self)) +
                 PaginationWidget.items_per_page p - 1) / PaginationWidget.items_per_page p)
     | None => p = VRChatManager.pagination self
     end) →
  synced (VRChatManager.with_pagination method self).
Proof.
  intros Hsync Hmethod. unfold VRChatManager.with_pagination.
  destruct (method (VRChatManager.pagination self)) as [p signal] eqn:E.
  specialize (Hmethod p signal eq_refl). destruct signal as [page_num|].
  - destruct Hmethod as [-> Hle].
    exact (change_page_synced (VRChatManager.set_pagination p self) Hle).
  - subst p. by destruct self.
Qed.

Lemma filter_avatars_synced (self self' : VRChatManager.t) :
  VRChatManager.items_per_page self =
    PaginationWidget.items_per_page (VRChatManager.pagination self) →
  VRChatManager.filter_avatars self = Return self' → synced self'.
Proof.
  intros Hd. unfold VRChatManager.filter_avatars. cbv zeta.
  destruct (if negb _ then _ else _) as [filtered|]; [|done].
  intros [= <-]. split; simpl; [lia | exact Hd].
Qed.

Lemma handle_synced (event : VRChatManager.Event) (self self' : VRChatManager.t) :
  VRChatManager.invariant self → synced self →
  VRChatManager.handle event self = Return self' → synced self'.
Proof.
  intros Hinv Hsync Hstep. pose proof (recount_same self Hinv) as Hsame.
  pose proof Hinv as (Hd & Ht & Hc). pose proof Hsync as [Hpage Hsize].
  destruct event; cbn [VRChatManager.handle] in Hstep.
  - injection Hstep as <-. unfold VRChatManager.fetch_avatars. simpl. split; done.
  - injection Hstep as <-. unfold VRChatManager.fetch_avatars.
    destruct (VRChatManager.api_client self); [split; done | done].
  - unfold VRChatManager.handle_avatars_result in Hstep.
    eapply filter_avatars_synced; [|exact Hstep]. done.
  - injection Hstep as <-. unfold VRChatManager.refresh_avatar_panels.
    destruct (VRChatManager.filtered_avatars self); done.
  - eapply filter_avatars_synced; [|exact Hstep]. exact Hsize.
  - injection Hstep as <-. apply with_pagination_synced; [done|].
    intros p signal. unfold PaginationWidget.prev_page.
    destruct (_ >? 1) eqn:E; intros [= <- <-]; [|done].
    split; [done|]. simpl. rewrite Hsame. lia.
  - injection Hstep as <-. apply with_pagination_synced; [done|].
    intros p signal. unfold PaginationWidget.next_page.
    destruct (_ <? _) eqn:E; intros [= <- <-]; [|done].
    apply Z.ltb_lt in E. split; [done|]. simpl. rewrite Hsame. lia.
  - injection Hstep as <-. apply with_pagination_synced; [done|].
    intros p signal. unfold PaginationWidget.change_items_per_page. cbv zeta.
    destruct (negb _) eqn:E; intros [= <- <-]; [|done].
    split; [done|]. simpl. lia.
Qed.

Lemma reachable_synced (self : VRChatManager.t) :
  VRChatManager.reachable self → synced self.
Proof.
  induction 1 as [|event self self' Hreach IH Hstep]; [done|].
  exact (handle_synced event self self' (reachable_invariant self Hreach) IH Hstep).
Qed.

(** X10.  In every state the window reaches, its own copies of the page
    number and of the page size equal the pagination widget's, and the page
    number is one of the pages the widget counts. *)
Theorem window_follows_widget (self : VRChatManager.t)
    (Hreach : VRChatManager.reachable self) :
  VRChatManager.current_page self =
    PaginationWidget.current_page (VRChatManager.pagination self)
  ∧ VRChatManager.items_per_page self =
      PaginationWidget.items_per_page (VRChatManager.pagination self)
  ∧ 1 ≤ VRChatManager.current_page self ≤
      PaginationWidget.total_pages (VRChatManager.pagination self)
  ∧ 0 < VRChatManager.items_per_page self.
Proof.
  destruct (reachable_synced self Hreach) as [Hpage Hsize].
  destruct (reachable_invariant self Hreach) as (Hd & Ht & Hc).
  rewrite Hpage, Hsize. done.
Qed.

Lemma window_follows_widget_witness :
  ∃ self,
    VRChatManager.run VRChatManager.sixty_then_next_then_fifty VRChatManager.init =
      Return self
    ∧ VRChatManager.current_page self =
        PaginationWidget.current_page (VRChatManager.pagination self)
    ∧ VRChatManager.items_per_page self =
        PaginationWidget.items_per_page (VRChatManager.pagination self)
    ∧ 1 ≤ VRChatManager.current_page self ≤
        PaginationWidget.total_pages (VRChatManager.pagination self)
    ∧ 0 < VRChatManager.items_per_page self.
Proof.
  eexists. split; [reflexivity|].
  apply window_follows_widget.
  apply (run_reachable VRChatManager.sixty_then_next_then_fifty VRChatManager.init);
    [apply VRChatManager.reachable_init | reflexivity].
Defined.

(** A widget method that turns to [page_num] and emits it. *)
Lemma with_pagination_turns
    (method : PaginationWidget.t → PaginationWidget.t * option Z)
    (page_num : Z) (self : VRChatManager.t) :
  VRChatManager.invariant self → synced self →
  1 ≤ page_num ≤ PaginationWidget.total_pages (VRChatManager.pagination self) →
  method (VRChatManager.pagination self) =
    ({| PaginationWidget.current_page := page_num;
        PaginationWidget.total_pages :=
          PaginationWidget.total_pages (VRChatManager.pagination self);
        PaginationWidget.items_per_page :=
          PaginationWidget.items_per_page (VRChatManager.pagination self) |},
     Some page_num) →
  VRChatManager.with_pagination method self = on_page page_num self.
Proof.
  intros Hinv [Hpage Hsize] Hrange Hmethod. unfold VRChatManager.with_pagination.
  rewrite Hmethod.
  match goal with |- VRChatManager.change_page _ ?s = _ =>
    assert (VRChatManager.invariant s) as Hinv'
      by (destruct Hinv as (Hd & Ht & Hc); repeat split; simpl; try done; lia);
    etransitivity; [exact (change_page_emitted s Hinv')|]
  end.
  unfold on_page. cbn [VRChatManager.set_pagination VRChatManager.pagination
    VRChatManager.api_client VRChatManager.avatars_data VRChatManager.filtered_avatars
    VRChatManager.search_input VRChatManager.avatar_grid
    PaginationWidget.current_page PaginationWidget.items_per_page].
  by rewrite Hsize.
Qed.

Lemma next_clicked (self : VRChatManager.t) :
  VRChatManager.reachable self →
  VRChatManager.handle VRChatManager.NextClicked self =
    Return (if VRChatManager.current_page self <?
                 PaginationWidget.total_pages (VRChatManager.pagination self)
            then on_page (VRChatManager.current_page self + 1) self else self).
Proof.
  intros Hreach. pose proof (reachable_invariant self Hreach) as Hinv.
  pose proof (reachable_synced self Hreach) as Hsync.
  pose proof Hinv as (Hd & Ht & Hc). pose proof Hsync as [Hpage Hsize].
  cbn [VRChatManager.handle]. f_equal. rewrite Hpage.
  destruct (_ <? _) eqn:E.
  - apply Z.ltb_lt in E. apply with_pagination_turns; [done | done | lia |].
    unfold PaginationWidget.next_page. apply Z.ltb_lt in E. by rewrite E.
  - unfold VRChatManager.with_pagination, PaginationWidget.next_page. rewrite E.
    by destruct self.
Qed.

Lemma prev_clicked (self : VRChatManager.t) :
  VRChatManager.reachable self →
  VRChatManager.handle VRChatManager.PrevClicked self =
    Return (if VRChatManager.current_page self >? 1
            then on_page (VRChatManager.current_page self - 1) self else self).
Proof.
  intros Hreach. pose proof (reachable_invariant self Hreach) as Hinv.
  pose proof (reachable_synced self Hreach) as Hsync.
  pose proof Hinv as (Hd & Ht & Hc). pose proof Hsync as [Hpage Hsize].
  cbn [VRChatManager.handle]. f_equal. rewrite Hpage.
  destruct (_ >? 1) eqn:E.
  - pose proof (proj1 (Z.gtb_lt _ _) E). apply with_pagination_turns; [done | done | lia |].
    unfold PaginationWidget.prev_page. by rewrite E.
  - unfold VRChatManager.with_pagination, PaginationWidget.prev_page. rewrite E.
    by destruct self.
Qed.

(** X11.  Turning pages, in every state the window reaches: Next shows the
    following page unless the window is on the last one, Previous the
    preceding page unless it is on the first, and then nothing changes at
    all; Next followed by Previous, and Previous followed by Next, lead
    back to the page the window was on. *)
Theorem page_turns (self : VRChatManager.t) (Hreach : VRChatManager.reachable self) :
  let page_num := VRChatManager.current_page self in
  let total_pages := PaginationWidget.total_pages (VRChatManager.pagination self) in
  VRChatManager.handle VRChatManager.NextClicked self =
    Return (if page_num <? total_pages then on_page (page_num + 1) self else self)
  ∧ VRChatManager.handle VRChatManager.PrevClicked self =
      Return (if page_num >? 1 then on_page (page_num - 1) self else self)
  ∧ (page_num < total_pages →
     VRChatManager.run [VRChatManager.NextClicked; VRChatManager.PrevClicked] self =
       Return (on_page page_num self))
  ∧ (1 < page_num →
     VRChatManager.run [VRChatManager.PrevClicked; VRChatManager.NextClicked] self =
       Return (on_page page_num self))
  ∧ on_page page_num self = VRChatManager.display_current_page self.
Proof.
  intros page_num total_pages.
  pose proof (next_clicked self Hreach) as Hnext.
  pose proof (prev_clicked self Hreach) as Hprev.
  fold page_num total_pages in Hnext, Hprev.
  split; [exact Hnext|]. split; [exact Hprev|]. split; [|split].
  - intros Hlt. cbn [VRChatManager.run]. rewrite Hnext.
    pose proof (proj2 (Z.ltb_lt _ _) Hlt) as E. rewrite E in Hnext |- *.
    change (Return ?s ≫= ?f) with (f s). cbv beta.
    rewrite (prev_clicked _ (VRChatManager.reachable_step _ _ _ Hreach Hnext)).
    change (VRChatManager.current_page (on_page (page_num + 1) self)) with (page_num + 1).
    assert ((page_num + 1 >? 1) = true) as ->.
    { apply Z.gtb_lt. destruct (reachable_invariant self Hreach) as (_ & _ & Hc).
      destruct (reachable_synced self Hreach) as [Hpage _]. unfold page_num. lia. }
    cbn [mbind result_bind]. f_equal. replace (page_num + 1 - 1) with page_num by lia.
    reflexivity.
  - intros Hlt. cbn [VRChatManager.run]. rewrite Hprev.
    pose proof (proj2 (Z.gtb_lt _ _) Hlt) as E. rewrite E in Hprev |- *.
    change (Return ?s ≫= ?f) with (f s). cbv beta.
    rewrite (next_clicked _ (VRChatManager.reachable_step _ _ _ Hreach Hprev)).
    change (VRChatManager.current_page (on_page (page_num - 1) self)) with (page_num - 1).
    change (PaginationWidget.total_pages
              (VRChatManager.pagination (on_page (page_num - 1) self))) with total_pages.
    assert ((page_num - 1 <? total_pages) = true) as ->.
    { apply Z.ltb_lt. destruct (reachable_invariant self Hreach) as (_ & _ & Hc).
      destruct (reachable_synced self Hreach) as [Hpage _]. unfold page_num, total_pages. lia. }
    cbn [mbind result_bind]. f_equal. replace (page_num - 1 + 1) with page_num by lia.
    reflexivity.
  - destruct (reachable_synced self Hreach) as [Hpage Hsize].
    unfold on_page, page_num. destruct self as [? ? ? ? ? [] ? ?].
    cbn in Hpage |- *. by subst.
Qed.

Lemma page_turns_witness :
  ∃ self,
    VRChatManager.run sixty_fetched VRChatManager.init = Return self
    ∧ let page_num := VRChatManager.current_page self in
      let total_pages := PaginationWidget.total_pages (VRChatManager.pagination self) in
      VRChatManager.handle VRChatManager.NextClicked self =
        Return (if page_num <? total_pages then on_page (page_num + 1) self else self)
      ∧ VRChatManager.handle VRChatManager.PrevClicked self =
          Return (if page_num >? 1 then on_page (page_num - 1) self else self)
      ∧ (page_num < total_pages →
         VRChatManager.run [VRChatManager.NextClicked; VRChatManager.PrevClicked] self =
           Return (on_page page_num self))
      ∧ (1 < page_num →
         VRChatManager.run [VRChatManager.PrevClicked; VRChatManager.NextClicked] self =
           Return (on_page page_num self))
      ∧ on_page page_num self = VRChatManager.display_current_page self.
Proof.
  eexists. split; [reflexivity|].
  apply page_turns.
  apply (run_reachable sixty_fetched VRChatManager.init);
    [apply VRChatManager.reachable_init | reflexivity].
Defined.

Lemma slice_page {A} (l : list A) (j : nat) (d : Z) :
  0 < d →
  slice l (Z.of_nat j * d) (Z.min (Z.of_nat j * d + d) (Z.of_nat (length l))) =
    firstn (Z.to_nat d) (skipn (j * Z.to_nat d) l).
Proof.
  intros Hd. unfold slice, clamp_index.
  assert (0 ≤ Z.of_nat j * d) as Hs by lia.
  destruct (Z.of_nat j * d <? 0) eqn:E1; [apply Z.ltb_lt in E1; lia|].
  destruct (Z.min (Z.of_nat j * d + d) (Z.of_nat (length l)) <? 0) eqn:E2;
    [apply Z.ltb_lt in E2; lia|].
  replace (j * Z.to_nat d)%nat with (Z.to_nat (Z.of_nat j * d)) by lia.
  destruct (decide (Z.of_nat j * d ≤ Z.of_nat (length l))) as [Hle|Hgt].
  - replace (Z.max 0 (Z.min (Z.of_nat (length l)) (Z.of_nat j * d))) with (Z.of_nat j * d)
      by lia.
    destruct (decide (Z.of_nat j * d + d ≤ Z.of_nat (length l))) as [Hfull|Hpart].
    + f_equal. lia.
    + rewrite !take_ge; [done | |]; rewrite length_drop; lia.
  - rewrite !drop_ge by lia. by rewrite !take_nil.
Qed.

Lemma take_take_more {A} (a b : nat) (l : list A) :
  firstn a l ++ firstn b (skipn a l) = firstn (a + b) l.
Proof.
  revert l. induction a as [|a IH]; intros l; [done|].
  destruct l as [|x l]; [simpl; by rewrite !take_nil|]. simpl. by rewrite IH.
Qed.

Lemma concat_pages {A} (l : list A) (d pages : nat) :
  concat (map (λ j, firstn d (skipn (j * d) l)) (seq 0 pages)) = firstn (pages * d) l.
Proof.
  induction pages as [|n IH]; [done|].
  rewrite seq_S, map_app, concat_app, IH. cbn [map concat Nat.add].
  rewrite app_nil_r, take_take_more. f_equal. lia.
Qed.

Lemma page_slice (k : nat) (self : VRChatManager.t) :
  0 < PaginationWidget.items_per_page (VRChatManager.pagination self) →
  page (Z.of_nat (S k)) self =
    firstn (Z.to_nat (PaginationWidget.items_per_page (VRChatManager.pagination self)))
      (skipn (k * Z.to_nat (PaginationWidget.items_per_page (VRChatManager.pagination self)))
         (VRChatManager.filtered_avatars self)).
Proof.
  intros Hd. rewrite <- (slice_page _ _ _ Hd).
  unfold page, VRChatManager.change_page, VRChatManager.display_current_page,
    VRChatManager.current_page_avatars.
  cbn [VRChatManager.avatar_grid VRChatManager.current_page VRChatManager.items_per_page
       VRChatManager.filtered_avatars].
  by replace (Z.of_nat (S k) - 1) with (Z.of_nat k) by lia.
Qed.

Lemma all_pages_slices (self : VRChatManager.t) :
  0 < PaginationWidget.items_per_page (VRChatManager.pagination self) →
  all_pages self =
    map (λ j,
           firstn (Z.to_nat (PaginationWidget.items_per_page (VRChatManager.pagination self)))
             (skipn (j * Z.to_nat (PaginationWidget.items_per_page
                                     (VRChatManager.pagination self)))
                (VRChatManager.filtered_avatars self)))
      (seq 0 (Z.to_nat (PaginationWidget.total_pages (VRChatManager.pagination self)))).
Proof.
  intros Hd. unfold all_pages. rewrite <- seq_shift, map_map.
  apply map_ext. intros k. by apply page_slice.
Qed.

(** X12.  In every state the window reaches, the pages 1 to [total_pages]
    laid end to end are the filtered list: walking through the pages shows
    every filtered avatar once, in order.  No page holds more than
    [items_per_page] avatars, and none is empty unless the filtered list
    is. *)
Theorem pages_partition (self : VRChatManager.t) (Hreach : VRChatManager.reachable self) :
  concat (all_pages self) = VRChatManager.filtered_avatars self
  ∧ Forall (λ shown, Z.of_nat (length shown) ≤ VRChatManager.items_per_page self)
      (all_pages self)
  ∧ (VRChatManager.filtered_avatars self ≠ [] → Forall (λ shown, shown ≠ []) (all_pages self)).
Proof.
  destruct (reachable_invariant self Hreach) as (Hd & Ht & Hc).
  destruct (reachable_synced self Hreach) as [Hpage Hsize].
  rewrite (all_pages_slices self Hd), Hsize.
  pose proof (ceil_div_bounds (Z.of_nat (length (VRChatManager.filtered_avatars self)))
                _ Hd) as [Hlow Hhigh].
  set (d := PaginationWidget.items_per_page (VRChatManager.pagination self)) in *.
  set (l := VRChatManager.filtered_avatars self) in *.
  set (total := PaginationWidget.total_pages (VRChatManager.pagination self)) in *.
  clearbody d l total. split; [|split].
  - rewrite concat_pages. apply take_ge. nia.
  - apply List.Forall_forall. intros shown Hin. apply in_map_iff in Hin as (j & <- & _).
    rewrite list.length_take. lia.
  - intros Hne. apply List.Forall_forall. intros shown Hin.
    apply in_map_iff in Hin as (j & <- & Hj). apply in_seq in Hj.
    assert (0 < Z.of_nat (length l)) as Hlen by (destruct l; [done | simpl; lia]).
    intros E. apply (f_equal length) in E. rewrite list.length_take, length_drop in E.
    simpl in E. nia.
Qed.

Lemma pages_partition_witness :
  ∃ self,
    VRChatManager.run sixty_fetched VRChatManager.init = Return self
    ∧ concat (all_pages self) = VRChatManager.filtered_avatars self
    ∧ Forall (λ shown, Z.of_nat (length shown) ≤ VRChatManager.items_per_page self)
        (all_pages self)
    ∧ (VRChatManager.filtered_avatars self ≠ [] →
       Forall (λ shown, shown ≠ []) (all_pages self)).
Proof.
  eexists. split; [reflexivity|].
  apply pages_partition.
  apply (run_reachable sixty_fetched VRChatManager.init);
    [apply VRChatManager.reachable_init | reflexivity].
Defined.

End PagingFacts.

(** *** The filter, beyond the claims *)
Section FilterMore.
Import Py VRChatManager.

Lemma contains_chain (a b c : string) :
  occurs_in a b → contains b c = true → contains a c = true.
Proof.
  intros Hab Hbc. apply contains_spec. apply contains_spec in Hbc.
  exact (occurs_in_trans a b c Hab Hbc).
Qed.

(** A longer filter text selects less. *)
Lemma selected_narrows (text text' : string) (avatar : gmap string value) :
  ci_substring text text' → selected text' avatar = true → selected text avatar = true.
Proof.
  unfold ci_substring, selected. intros Hocc H.
  apply orb_true_iff in H as [H|H]; [apply orb_true_iff in H as [H|H]|];
    apply (contains_chain _ _ _ Hocc) in H; rewrite H; by rewrite ?orb_true_r.
Qed.

Lemma filter_sublist_narrows {A} (f g : A → bool) (l : list A) :
  (∀ x, g x = true → f x = true) → List.filter g l `sublist_of` List.filter f l.
Proof.
  intros Hfg. induction l as [|x l IH]; [done|]. simpl.
  destruct (g x) eqn:Eg.
  - rewrite (Hfg x Eg). by constructor.
  - destruct (f x); [by constructor | done].
Qed.

(** X13.  Typing more narrows the result: on ASCII text and records whose
    text fields are strings, if the old filter text occurs in the new one
    (letter case aside), every avatar the new text selects was selected by
    the old text, in the same order; and two texts that differ in letter
    case only select the same avatars. *)
Theorem longer_text_narrows (self : t) (text text' : string)
    (Htyped : Forall (λ avatar, text_fields_typed avatar = true) (avatars_data self))
    (Hascii : Forall (λ avatar, text_fields_ascii avatar = true) (avatars_data self))
    (Htext : isascii text = true) (Htext' : isascii text' = true)
    (Hocc : ci_substring text text') :
  ∃ old new,
    handle (SearchTextChanged text) self = Return old
    ∧ handle (SearchTextChanged text') self = Return new
    ∧ filtered_avatars new `sublist_of` filtered_avatars old
    ∧ (length (filtered_avatars new) ≤ length (filtered_avatars old))%nat
    ∧ (lower text = lower text' → filtered_avatars new = filtered_avatars old).
Proof.
  cbn [handle].
  match goal with |- context [filter_avatars ?s] =>
    destruct (filter_avatars_typed s Htyped) as (old & Hold & _ & Hfo & _) end.
  match goal with |- context [filter_avatars ?s] =>
    match s with context [text'] =>
      destruct (filter_avatars_typed s Htyped) as (new & Hnew & _ & Hfn & _) end end.
  exists old, new. cbn [avatars_data search_input] in Hfo, Hfn.
  split; [exact Hold|]. split; [exact Hnew|]. rewrite Hfo, Hfn.
  assert (List.filter (selected text') (avatars_data self) `sublist_of`
          List.filter (selected text) (avatars_data self)) as Hsub.
  { apply filter_sublist_narrows. intros avatar. by apply selected_narrows. }
  split; [exact Hsub|]. split; [by apply sublist_length|].
  intros Hsame. unfold selected. by rewrite Hsame.
Qed.

Lemma longer_text_narrows_witness :
  ∃ old new,
    handle (SearchTextChanged "fo")
      {| api_client := true;
         avatars_data := [ {[ "name" := VStr "Fox" ]}; {[ "authorName" := VStr "Foal" ]} ];
         filtered_avatars := [];
         current_page := 1;
         items_per_page := 50;
         pagination := PaginationWidget.init;
         search_input := "";
         avatar_grid := [] |} = Return old
    ∧ handle (SearchTextChanged "FOX")
        {| api_client := true;
           avatars_data := [ {[ "name" := VStr "Fox" ]}; {[ "authorName" := VStr "Foal" ]} ];
           filtered_avatars := [];
           current_page := 1;
           items_per_page := 50;
           pagination := PaginationWidget.init;
           search_input := "";
           avatar_grid := [] |} = Return new
    ∧ filtered_avatars new `sublist_of` filtered_avatars old
    ∧ (length (filtered_avatars new) ≤ length (filtered_avatars old))%nat
    ∧ (lower "fo" = lower "FOX" → filtered_avatars new = filtered_avatars old).
Proof.
  apply (longer_text_narrows
           {| api_client := true;
              avatars_data := [ {[ "name" := VStr "Fox" ]}; {[ "authorName" := VStr "Foal" ]} ];
              filtered_avatars := [];
              current_page := 1;
              items_per_page := 50;
              pagination := PaginationWidget.init;
              search_input := "";
              avatar_grid := [] |} "fo" "FOX").
  - repeat constructor.
  - repeat constructor.
  - reflexivity.
  - reflexivity.
  - exists ""%string, "x"%string. reflexivity.
Defined.

Lemma lowered_field_raises (key : string) (avatar : gmap string value) :
  lowered_field key avatar =
    if text_field_typed key avatar then Return (lower (field key avatar))
    else Raise AttributeError.
Proof. unfold lowered_field, text_field_typed, field. by destruct (avatar !! key) as [[]|]. Qed.

(** [matches] raises nothing but the [AttributeError] of [None.lower()]
    and the like. *)
Lemma matches_raises (filter_text : string) (avatar : gmap string value) (e : exn) :
  matches filter_text avatar = Raise e → e = AttributeError.
Proof.
  unfold matches. rewrite !lowered_field_raises.
  destruct (text_field_typed "name" avatar); cbn [mbind result_bind];
    [|by intros [= <-]].
  destruct (contains filter_text _); [done|].
  destruct (text_field_typed "authorName" avatar); cbn [mbind result_bind];
    [|by intros [= <-]].
  destruct (contains filter_text _); [done|].
  destruct (text_field_typed "description" avatar); cbn [mbind result_bind];
    [done | by intros [= <-]].
Qed.

Lemma matches_untyped (filter_text : string) (avatar : gmap string value) :
  text_fields_typed avatar = false → selected filter_text avatar = false →
  matches (lower filter_text) avatar = Raise AttributeError.
Proof.
  unfold text_fields_typed, selected, matches. rewrite !lowered_field_raises.
  intros Htyped Hmiss.
  apply orb_false_iff in Hmiss as [Hmiss Hd]. apply orb_false_iff in Hmiss as [Hn Ha].
  destruct (text_field_typed "name" avatar); [|done]. cbn [mbind result_bind]. rewrite Hn.
  destruct (text_field_typed "authorName" avatar); [|done]. cbn [mbind result_bind]. rewrite Ha.
  destruct (text_field_typed "description" avatar); [done|]. done.
Qed.

Lemma filter_loop_raises (filter_text : string) (avatar : gmap string value)
    (avatars filtered : list (gmap string value)) :
  In avatar avatars →
  matches filter_text avatar = Raise AttributeError →
  filter_loop filter_text avatars filtered = Raise AttributeError.
Proof.
  intros Hin Hraise. revert filtered.
  induction avatars as [|first rest IH]; intros filtered; [done|].
  cbn [filter_loop]. destruct (matches filter_text first) as [m|e] eqn:E.
  - cbn [mbind result_bind]. apply IH. destruct Hin as [->|Hin]; [congruence | done].
  - cbn [mbind result_bind]. by rewrite (matches_raises _ _ _ E).
Qed.

(** X14.  A record with a text field that is present but not a string
    (a JSON null, say) makes the search raise [AttributeError] as soon as
    the filter text does not match that record through its string fields
    (the text and those fields being ASCII), and so does the arrival of
    any fetched list holding that record while the text is set; with an
    empty filter text nothing is inspected and the search returns all
    records, whatever they hold. *)
Theorem null_field_breaks_search (self : t) (avatar : gmap string value)
    (Hin : In avatar (avatars_data self))
    (Hnull : text_fields_typed avatar = false)
    (Htext : isascii (search_input self) = true)
    (Hascii : text_fields_ascii avatar = true)
    (Hmiss : selected (search_input self) avatar = false) :
  filter_avatars self = Raise AttributeError
  ∧ (∀ avatars, In avatar avatars →
                handle (AvatarsFetched avatars) self = Raise AttributeError)
  ∧ ∃ self',
      handle (SearchTextChanged "") self = Return self'
      ∧ filtered_avatars self' = avatars_data self.
Proof.
  assert (lower (search_input self) ≠ ""%string) as Hne.
  { intros E. apply (proj1 (lower_empty_iff _)) in E.
    rewrite E, selected_empty in Hmiss. done. }
  apply String.eqb_neq in Hne.
  assert (∀ avatars, In avatar avatars →
            filter_loop (lower (search_input self)) avatars [] = Raise AttributeError) as Hloop.
  { intros avatars Hin'. apply (filter_loop_raises _ avatar); [done|].
    by apply matches_untyped. }
  split; [|split].
  - unfold filter_avatars. cbv zeta. rewrite Hne. cbn [negb]. by rewrite (Hloop _ Hin).
  - intros avatars Hin'. cbn [handle]. unfold handle_avatars_result, filter_avatars. cbv zeta.
    cbn [search_input avatars_data]. rewrite Hne. cbn [negb]. by rewrite (Hloop _ Hin').
  - cbn [handle]. unfold filter_avatars. cbv zeta. cbn [search_input lower String.eqb negb].
    eexists. split; [reflexivity|]. reflexivity.
Qed.

Lemma null_field_breaks_search_witness :
  filter_avatars
    {| api_client := true;
       avatars_data := [ {[ "name" := VStr "Fox" ]};
                         {[ "name" := VStr "Owl"; "description" := VNone ]} ];
       filtered_avatars := [];
       current_page := 1;
       items_per_page := 50;
       pagination := PaginationWidget.init;
       search_input := "fo";
       avatar_grid := [] |} = Raise AttributeError.
Proof.
  refine (proj1 (null_field_breaks_search
           {| api_client := true;
              avatars_data := [ {[ "name" := VStr "Fox" ]};
                                {[ "name" := VStr "Owl"; "description" := VNone ]} ];
              filtered_avatars := [];
              current_page := 1;
              items_per_page := 50;
              pagination := PaginationWidget.init;
              search_input := "fo";
              avatar_grid := [] |}
           {[ "name" := VStr "Owl"; "description" := VNone ]} _ _ _ _ _)).
  - right. left. reflexivity.
  - reflexivity.
  - reflexivity.
  - reflexivity.
  - reflexivity.
Defined.

End FilterMore.

(** *** The proposed file name *)
Section SaveDialogFacts.
Import Py AvatarDownload SaveDialog.

Lemma underscore_allowed : forbidden_in_filename "_" = false.
Proof. reflexivity. Qed.

Lemma sanitize_safe (name : string) : safe (sanitize name) = true.
Proof.
  induction name as [|c name IH]; [done|]. cbn [sanitize safe]. rewrite IH.
  destruct (forbidden_in_filename c) eqn:E; [by rewrite underscore_allowed | by rewrite E].
Qed.

Lemma sanitize_length (name : string) : String.length (sanitize name) = String.length name.
Proof. induction name as [|c name IH]; [done|]. cbn [sanitize String.length]. by rewrite IH. Qed.

Lemma sanitize_fixed (name : string) : sanitize name = name ↔ safe name = true.
Proof.
  induction name as [|c name IH]; [done|]. cbn [sanitize safe].
  destruct (forbidden_in_filename c) eqn:E; cbn [negb andb].
  - split; [|done]. intros [= Hc _]. subst c. by rewrite underscore_allowed in E.
  - split.
    + intros [= H]. by apply IH.
    + intros H. f_equal. by apply IH.
Qed.

Lemma safe_app (a b : string) : safe (a +:+ b) = safe a && safe b.
Proof.
  induction a as [|c a IH]; [done|]. cbn [String.append safe]. rewrite IH.
  by rewrite andb_assoc.
Qed.

(** The slot on a record that resolves to a string URL. *)
Lemma slot_outcome (ask_save : string → string) (avatar_data : gmap string value)
    (url : string) :
  resolve_download_url avatar_data = Return (Found (VStr url)) →
  VRChatManager.text_field_typed "name" avatar_data = true →
  continue_avatar_download ask_save (Some avatar_data) =
    Return (if String.eqb (ask_save (sanitize (name_of avatar_data) +:+ ".vrca")) ""
            then Cancelled
            else StartDownload (fix_url url)
                   (ask_save (sanitize (name_of avatar_data) +:+ ".vrca"))).
Proof.
  intros Hresolved Hname. unfold continue_avatar_download.
  destruct (bool_decide (avatar_data = ∅)) eqn:E.
  { apply bool_decide_eq_true in E. subst. by vm_compute in Hresolved. }
  rewrite Hresolved. cbn [mbind result_bind remove_security_variant].
  unfold name_of. unfold VRChatManager.text_field_typed in Hname.
  destruct (avatar_data !! "name") as [[| | |name| |]|]; try done;
    cbn [mbind result_bind]; by destruct (String.eqb _ _).
Qed.

(** X15.  The file name the save dialog proposes is the avatar's name (or
    [avatar]) with each of the nine forbidden characters replaced by an
    underscore, followed by [.vrca]: it has the length of the name plus
    five, holds no forbidden character, and keeps a name that had none;
    sanitizing twice is sanitizing once.  The slot then starts the download
    of the fixed URL to the chosen path, or stops when the dialog is
    dismissed. *)
Theorem proposed_filename_is_safe (avatar_data : gmap string value) (url : string)
    (Hresolved : resolve_download_url avatar_data = Return (Found (VStr url)))
    (Hname : VRChatManager.text_field_typed "name" avatar_data = true) :
  let default_filename := sanitize (name_of avatar_data) +:+ ".vrca" in
  (∀ ask_save,
     continue_avatar_download ask_save (Some avatar_data) =
       Return (if String.eqb (ask_save default_filename) ""
               then Cancelled
               else StartDownload (fix_url url) (ask_save default_filename)))
  ∧ safe default_filename = true
  ∧ String.length default_filename = (String.length (name_of avatar_data) + 5)%nat
  ∧ (safe (name_of avatar_data) = true →
     default_filename = name_of avatar_data +:+ ".vrca")
  ∧ sanitize (sanitize (name_of avatar_data)) = sanitize (name_of avatar_data).
Proof.
  intros default_filename. split; [|split; [|split; [|split]]].
  - intros ask_save. by apply slot_outcome.
  - unfold default_filename. by rewrite safe_app, sanitize_safe.
  - unfold default_filename. rewrite length_app_str, sanitize_length. reflexivity.
  - intros Hsafe. unfold default_filename. by rewrite (proj2 (sanitize_fixed _) Hsafe).
  - apply sanitize_fixed, sanitize_safe.
Qed.

Lemma proposed_filename_is_safe_witness :
  (∀ ask_save,
     continue_avatar_download ask_save (Some record_named) =
       Return (if String.eqb (ask_save (sanitize (name_of record_named) +:+ ".vrca")) ""
               then Cancelled
               else StartDownload (fix_url "https://files/1/file")
                      (ask_save (sanitize (name_of record_named) +:+ ".vrca"))))
  ∧ safe (sanitize (name_of record_named) +:+ ".vrca") = true.
Proof.
  pose proof (proposed_filename_is_safe record_named "https://files/1/file"
                eq_refl eq_refl) as (Hslot & Hsafe & _).
  exact (conj Hslot Hsafe).
Defined.

End SaveDialogFacts.

(** *** The saved configuration *)
Section ConfigFacts.
Import Py Config.

(** The file agrees with what the window holds. *)
Lemma save_config_file (username password : string) (self : t) :
  config_file (save_config true username password self) =
    Json (VDict {[ "vrchat_username" := or_stored username (vrchat_username self);
                   "vrchat_password" := or_stored password (vrchat_password self);
                   "dark_mode" := is_dark_mode self ]}).
Proof. reflexivity. Qed.

Lemma start_saved (username password flag : value) :
  start (Json (VDict {[ "vrchat_username" := username;
                        "vrchat_password" := password;
                        "dark_mode" := flag ]})) =
    {| vrchat_username := username; vrchat_password := password;
       dark_mode := flag; is_dark_mode := flag;
       config_file := Json (VDict {[ "vrchat_username" := username;
                                     "vrchat_password" := password;
                                     "dark_mode" := flag ]}) |}.
Proof.
  unfold start, load_config, get. cbn [config_file is_dark_mode].
  by simplify_map_eq.
Qed.

(** X16.  Saving and starting again: after [save_config] has written the
    file, the next start of the program finds the name and the password
    that were passed, an empty argument standing for the value the window
    held, and the theme flag current at the time of saving.  A file that is
    missing, unreadable or not a JSON object gives the defaults: empty
    credentials and the dark theme. *)
Theorem saved_config_is_restored (username password : string) (self : t) :
  let restarted := start (config_file (save_config true username password self)) in
  vrchat_username restarted =
    (if String.eqb username "" then vrchat_username self else VStr username)
  ∧ vrchat_password restarted =
      (if String.eqb password "" then vrchat_password self else VStr password)
  ∧ dark_mode restarted = is_dark_mode self
  ∧ is_dark_mode restarted = is_dark_mode self
  ∧ (∀ file, (∀ config, file ≠ Json (VDict config)) →
       vrchat_username (start file) = VStr ""
       ∧ vrchat_password (start file) = VStr ""
       ∧ dark_mode (start file) = VBool true
       ∧ is_dark_mode (start file) = VBool true).
Proof.
  intros restarted. unfold restarted. rewrite save_config_file, start_saved.
  cbn [vrchat_username vrchat_password dark_mode is_dark_mode]. unfold or_stored.
  split; [by destruct (String.eqb username "")|].
  split; [by destruct (String.eqb password "")|].
  split; [done|]. split; [done|].
  intros file Hfile. unfold start, load_config. cbn [config_file is_dark_mode].
  destruct file as [| |[| | | | |config]]; try done. by destruct (Hfile config).
Qed.

(** After an event that writes, the file holds what the window holds. *)
Lemma handle_saves (event : Event) (self : t) :
  saves event = true →
  config_file (handle true event self) =
    Json (VDict {[ "vrchat_username" := vrchat_username (handle true event self);
                   "vrchat_password" := vrchat_password (handle true event self);
                   "dark_mode" := is_dark_mode (handle true event self) ]}).
Proof.
  destruct event as [is_dark|username password save]; cbn [saves handle].
  - intros _. reflexivity.
  - intros ->. unfold remember. rewrite save_config_file.
    cbn [vrchat_username vrchat_password is_dark_mode save_config].
    unfold or_stored. by destruct (String.eqb username ""), (String.eqb password "").
Qed.

Lemma handle_keeps (event : Event) (self : t) :
  saves event = false → handle true event self = self.
Proof. destruct event as [|? ? []]; done. Qed.

Lemma run_snoc (writable : bool) (events : list Event) (event : Event) (self : t) :
  run writable (events ++ [event]) self = handle writable event (run writable events self).
Proof. unfold run. by rewrite foldl_app. Qed.

Lemma run_saves (events : list Event) (self : t) :
  existsb saves events = true →
  config_file (run true events self) =
    Json (VDict {[ "vrchat_username" := vrchat_username (run true events self);
                   "vrchat_password" := vrchat_password (run true events self);
                   "dark_mode" := is_dark_mode (run true events self) ]}).
Proof.
  induction events as [|event events IH] using rev_ind; [done|].
  rewrite existsb_app, run_snoc. cbn [existsb]. rewrite orb_false_r.
  destruct (saves event) eqn:E.
  - intros _. by apply handle_saves.
  - rewrite orb_false_r. intros H. rewrite (handle_keeps _ _ E). by apply IH.
Qed.

(** X17.  Whatever the user does in a session (toggling the theme, logging
    in with or without the save box ticked), as long as the file can be
    written and one of these actions writes it, the next start restores
    the credentials the window held at the end and the theme chosen
    last. *)
Theorem session_is_restored (events : list Event) (self : t)
    (Hsaved : existsb saves events = true) :
  let final := run true events self in
  let restarted := start (config_file final) in
  vrchat_username restarted = vrchat_username final
  ∧ vrchat_password restarted = vrchat_password final
  ∧ dark_mode restarted = is_dark_mode final
  ∧ is_dark_mode restarted = is_dark_mode final.
Proof.
  intros final restarted. unfold restarted, final.
  rewrite (run_saves events self Hsaved), start_saved. done.
Qed.

Lemma session_is_restored_witness :
  let final := run true [LoginAccepted "fox" "secret" true; ThemeToggled false;
                         LoginAccepted "owl" "other" false] (start Missing) in
  let restarted := start (config_file final) in
  vrchat_username restarted = vrchat_username final
  ∧ vrchat_password restarted = vrchat_password final
  ∧ dark_mode restarted = is_dark_mode final
  ∧ is_dark_mode restarted = is_dark_mode final.
Proof.
  apply (session_is_restored
           [LoginAccepted "fox" "secret" true; ThemeToggled false;
            LoginAccepted "owl" "other" false] (start Missing)).
  reflexivity.
Defined.

End ConfigFacts.

(** *** The card grid *)
Section GridFacts.
Import Grid.
Context {A : Type}.

Lemma columns_range (viewport_width : Z) :
  (columns viewport_width = 3 ∨ columns viewport_width = 4)
  ∧ (columns viewport_width = 4 ↔ 1390 ≤ viewport_width).
Proof.
  unfold columns. cbv zeta.
  destruct (decide (1390 ≤ viewport_width)) as [Hwide|Hnarrow].
  - assert (4 ≤ (viewport_width - 30) / 340) by (apply Z.div_le_lower_bound; lia). lia.
  - assert ((viewport_width - 30) / 340 < 4) by (apply Z.div_lt_upper_bound; lia). lia.
Qed.

Lemma place_cards (cols i : Z) (avatars : list A) :
  map snd (place cols i avatars) = avatars.
Proof.
  revert i. induction avatars as [|a rest IH]; intros i; [done|].
  cbn [place map snd]. by rewrite IH.
Qed.

(** The cell of the [k]-th card is the [k]-th cell in reading order. *)
Lemma place_cells (cols i : Z) (avatars : list A) :
  map cell (place cols i avatars) =
    map (λ k : nat, ((i + Z.of_nat k) / cols, (i + Z.of_nat k) mod cols))
      (seq 0 (length avatars)).
Proof.
  revert i. induction avatars as [|a rest IH]; intros i; [done|].
  cbn [place map length seq]. rewrite IH, <- seq_shift, map_map.
  unfold cell at 1. cbn [fst snd]. f_equal.
  - by rewrite Z.add_0_r.
  - apply map_ext. intros k. by replace (i + 1 + Z.of_nat k) with (i + Z.of_nat (S k)) by lia.
Qed.

Lemma cell_index_injective (cols a b : Z) :
  0 < cols → (a / cols, a mod cols) = (b / cols, b mod cols) → a = b.
Proof.
  intros Hc [= Hq Hr]. rewrite (Z.div_mod a cols), (Z.div_mod b cols) by lia. congruence.
Qed.

(** X18.  The card grid: three columns, or four from a viewport width of
    1390 on; the cards keep the order of the page; no two cards share a
    cell; every card lies inside the grid, within the container height of
    360 per row; and the rows are as few as hold the cards. *)
Theorem grid_layout (viewport_width : Z) (avatars : list A) :
  let cols := columns viewport_width in
  let count := Z.of_nat (length avatars) in
  let height := fst (display_avatars viewport_width avatars) in
  let cards := snd (display_avatars viewport_width avatars) in
  (cols = 3 ∨ cols = 4)
  ∧ (cols = 4 ↔ 1390 ≤ viewport_width)
  ∧ map snd cards = avatars
  ∧ NoDup (map cell cards)
  ∧ Forall (λ card, 0 ≤ fst (cell card) < rows count cols
                    ∧ 0 ≤ snd (cell card) < cols
                    ∧ (fst (cell card) + 1) * 360 ≤ height) cards
  ∧ (rows count cols - 1) * cols < count ≤ rows count cols * cols.
Proof.
  intros cols count height cards.
  destruct (columns_range viewport_width) as [Hcols Hwide]. fold cols in Hcols, Hwide.
  assert (0 < cols) as Hpos by lia.
  assert ((rows count cols - 1) * cols < count ≤ rows count cols * cols) as Hrows.
  { unfold rows.
    pose proof (Z.div_mod (count + cols - 1) cols ltac:(lia)) as Hdm.
    pose proof (Z.mod_pos_bound (count + cols - 1) cols Hpos) as Hm. nia. }
  split; [exact Hcols|]. split; [exact Hwide|].
  unfold cards, height, display_avatars. cbv zeta. cbn [fst snd]. fold cols count.
  split; [apply place_cards|]. split; [|split; [|exact Hrows]].
  - rewrite place_cells. apply NoDup_fmap_2; [|apply NoDup_seq].
    intros a b E. apply (cell_index_injective cols) in E; lia.
  - assert (Forall (λ c : Z * Z, 0 ≤ fst c < rows count cols ∧ 0 ≤ snd c < cols
                                 ∧ (fst c + 1) * 360 ≤ total_height count cols)
              (map cell (place cols 0 avatars))) as Hcells.
    { rewrite place_cells. apply List.Forall_forall. intros c Hin.
      apply in_map_iff in Hin as (k & <- & Hk). apply in_seq in Hk. cbn [fst snd].
      rewrite Z.add_0_l.
      pose proof (Z.mod_pos_bound (Z.of_nat k) cols Hpos) as Hm.
      pose proof (Z.div_mod (Z.of_nat k) cols ltac:(lia)) as Hdm.
      assert (0 ≤ Z.of_nat k / cols) by (apply Z.div_pos; lia).
      assert (Z.of_nat k / cols < rows count cols) as Hrow by (unfold count in *; nia).
      unfold total_height. repeat split; try lia. }
    rewrite List.Forall_map in Hcells. exact Hcells.
Qed.

End GridFacts.

(** *** Who is logged in *)
Section SessionFacts.
Import Py Session.

(** The two ways [handle_login_result] leaves the failure branch. *)
Lemma flow_authenticated (answer : Login.Answer) (display_name : string) :
  Login.handle_login_result (Login.login_worker answer) = Login.Authenticated display_name →
  ∃ name, answer = Login.CurrentUser name.
Proof.
  destruct answer as [name|status reason|text|text]; [by exists name| | |]; try done.
  unfold Login.login_worker.
  destruct (status =? 200); [|done].
  destruct (contains "Email 2 Factor Authentication" reason); [done|].
  by destruct (contains "2 Factor Authentication" reason).
Qed.

Lemma flow_awaiting (answer : Login.Answer) (is_email : bool) :
  Login.handle_login_result (Login.login_worker answer) = Login.AwaitingTwoFactor is_email →
  ∃ status reason,
    answer = Login.UnauthorizedException status reason
    ∧ (status =? 200) && contains "2 Factor Authentication" reason = true.
Proof.
  destruct answer as [name|status reason|text|text]; try done.
  intros H. exists status, reason. split; [done|]. revert H.
  unfold Login.login_worker.
  destruct (status =? 200); [|done].
  destruct (contains "Email 2 Factor Authentication" reason) eqn:E.
  - intros _. apply contains_true, email_marker_is_generic. by apply contains_spec.
  - by destruct (contains "2 Factor Authentication" reason).
Qed.

Lemma vouched_later (past : list Event) (event : Event) (self : t) :
  vouched past self → vouched (past ++ [event]) self.
Proof.
  intros [Hapi Htemp]. split.
  - intros client Hc. rewrite !omap_app, existsb_app, !elem_of_app.
    destruct (Hapi client Hc) as [H|[H1 H2]]; [by left; left|].
    right. split; [by left | by rewrite H2].
  - intros client Hc. rewrite omap_app, elem_of_app. left. by apply Htemp.
Qed.

Lemma handle_vouched (past : list Event) (event : Event) (self self' : t) :
  vouched past self → handle event self = Return self' → vouched (past ++ [event]) self'.
Proof.
  intros Hv Hstep. pose proof (vouched_later past event self Hv) as [Hapi Htemp].
  destruct event as [client answer accepted|success|]; cbn [handle] in Hstep.
  - injection Hstep as <-. unfold handle_login_result.
    destruct (Login.handle_login_result (Login.login_worker answer)) as [name|is_email|error]
      eqn:Hflow.
    + destruct (flow_authenticated _ _ Hflow) as [name' ->].
      split; [|exact Htemp]. cbn [api_client]. intros c [= <-]. left.
      rewrite omap_app, elem_of_app. right. cbn. by left.
    + destruct accepted; [|by split].
      destruct (flow_awaiting _ _ Hflow) as (status & reason & -> & Hmark).
      split; [exact Hapi|]. cbn [temp_api_client]. intros c [= <-].
      rewrite omap_app, elem_of_app. right. cbn. rewrite Hmark. by left.
    + by split.
  - unfold handle_2fa_result in Hstep. destruct success; [|injection Hstep as <-; by split].
    destruct (temp_api_client self) as [client|] eqn:Ht; [|done].
    injection Hstep as <-. split; [|exact Htemp]. cbn [api_client]. intros c [= <-].
    right. split; [by apply Htemp|]. rewrite existsb_app. cbn. by rewrite orb_true_r.
  - injection Hstep as <-. by split.
Qed.

Lemma run_vouched (events past : list Event) (self self' : t) :
  vouched past self → run events self = Return self' → vouched (past ++ events) self'.
Proof.
  revert past self. induction events as [|event rest IH]; intros past self Hv.
  - intros [= <-]. by rewrite app_nil_r.
  - cbn [run]. destruct (handle event self) as [next|] eqn:E; [|done].
    cbn [mbind result_bind]. intros Hrun.
    replace (past ++ event :: rest) with ((past ++ [event]) ++ rest)
      by (by rewrite <- app_assoc).
    apply (IH _ next); [|exact Hrun]. exact (handle_vouched past event self next Hv E).
Qed.

(** X19.  Who is logged in: after any sequence of login answers,
    verification answers and worker failures that the window survives, a
    client is installed as the session only if a login made with it was
    answered with the current user, or if a two-factor code was submitted
    for it (after a refusal with status 200 naming the two factors) and
    some verification succeeded; the client kept for a pending
    verification is one for which a code was submitted. *)
Theorem session_is_vouched (events : list Event) (self : t)
    (Hrun : run events init = Return self) :
  (∀ client, api_client self = Some client →
     client ∈ omap authenticated events
     ∨ (client ∈ omap challenged events ∧ existsb verification_succeeded events = true))
  ∧ (∀ client, temp_api_client self = Some client → client ∈ omap challenged events).
Proof.
  apply (run_vouched events [] init self); [|exact Hrun]. by split.
Qed.

Lemma session_is_vouched_witness :
  ∃ self,
    run [LoginAnswered 1 (Login.UnauthorizedException 200 "Requires 2 Factor Authentication")
           true;
         TwoFactorAnswered true] init = Return self
    ∧ api_client self = Some 1%nat
    ∧ (∀ client, api_client self = Some client →
         client ∈ omap authenticated
                    [LoginAnswered 1 (Login.UnauthorizedException 200
                                        "Requires 2 Factor Authentication") true;
                     TwoFactorAnswered true]
         ∨ (client ∈ omap challenged
                       [LoginAnswered 1 (Login.UnauthorizedException 200
                                           "Requires 2 Factor Authentication") true;
                        TwoFactorAnswered true]
            ∧ existsb verification_succeeded
                [LoginAnswered 1 (Login.UnauthorizedException 200
                                    "Requires 2 Factor Authentication") true;
                 TwoFactorAnswered true] = true)).
Proof.
  eexists. split; [reflexivity|]. split; [reflexivity|].
  apply (session_is_vouched
           [LoginAnswered 1 (Login.UnauthorizedException 200 "Requires 2 Factor Authentication")
              true;
            TwoFactorAnswered true]).
  reflexivity.
Defined.

End SessionFacts.

(** *** What the pagination widget shows *)
Section PaginationUiFacts.
Import Py PaginationUi.
#[local] Arguments PaginationWidget.ceil_div : simpl never.
#[local] Arguments Z.max : simpl never.
#[local] Arguments Z.min : simpl never.
#[local] Arguments Z.div : simpl never.

(** Forgetting what is shown gives the window's own handlers. *)
Lemma change_page_window (page_num : Z) (s : shown) :
  fst (change_page page_num s) = VRChatManager.change_page page_num (fst s).
Proof. by destruct s. Qed.

Lemma with_pagination_window
    (method : PaginationWidget.t → PaginationWidget.t * option Z) (redraws : bool) (s : shown) :
  fst (with_pagination method redraws s) = VRChatManager.with_pagination method (fst s).
Proof.
  destruct s as [self ui]. unfold with_pagination, VRChatManager.with_pagination. cbn [fst].
  destruct (method (VRChatManager.pagination self)) as [p [page_num|]]; [|done].
  apply change_page_window.
Qed.

Lemma handle_window (event : VRChatManager.Event) (s s' : shown) :
  handle event s = Return s' → VRChatManager.handle event (fst s) = Return (fst s').
Proof.
  destruct s as [self ui]. cbn [fst].
  destruct event; cbn [handle];
    try (destruct (VRChatManager.handle _ self) as [self'|]; [|done];
         cbn [mbind result_bind]; by intros [= <-]).
  - intros [= <-]. unfold fetch_avatars. done.
  - intros E. assert (s' = with_pagination PaginationWidget.prev_page true (self, ui))
      as -> by congruence.
    cbn [VRChatManager.handle]. f_equal. symmetry.
    exact (with_pagination_window _ _ (self, ui)).
  - intros E. assert (s' = with_pagination PaginationWidget.next_page true (self, ui))
      as -> by congruence.
    cbn [VRChatManager.handle]. f_equal. symmetry.
    exact (with_pagination_window _ _ (self, ui)).
  - intros E.
    assert (s' = with_pagination (PaginationWidget.change_items_per_page index) false
                   (self, ui)) as -> by congruence.
    cbn [VRChatManager.handle]. f_equal. symmetry.
    exact (with_pagination_window _ _ (self, ui)).
Qed.

Lemma reachable_window (s : shown) : reachable s → VRChatManager.reachable (fst s).
Proof.
  induction 1 as [|event s s' Hreach IH Hstep]; [apply VRChatManager.reachable_init|].
  exact (VRChatManager.reachable_step event _ _ IH (handle_window event s s' Hstep)).
Qed.

Lemma change_page_fresh (page_num : Z) (self : VRChatManager.t) (ui : t) :
  (VRChatManager.filtered_avatars self = [] → ui = update_ui (VRChatManager.pagination self)) →
  fresh (change_page page_num (self, ui)).
Proof.
  intros Hempty. unfold fresh, change_page. cbn [fst snd].
  destruct (VRChatManager.filtered_avatars self) eqn:E; [|done].
  rewrite (Hempty eq_refl). unfold VRChatManager.change_page. by rewrite E.
Qed.

Lemma handle_fresh (event : VRChatManager.Event) (s s' : shown) :
  VRChatManager.invariant (fst s) → fresh s → handle event s = Return s' → fresh s'.
Proof.
  destruct s as [self ui]. unfold fresh at 1. cbn [fst snd]. intros Hinv Hfresh.
  destruct event; cbn [handle];
    try (destruct (VRChatManager.handle _ self) as [self'|]; [|done];
         cbn [mbind result_bind]; by intros [= <-]).
  - intros [= <-]. unfold fetch_avatars, fresh. cbn [fst snd].
    destruct (VRChatManager.api_client self) eqn:E; [done|].
    unfold VRChatManager.fetch_avatars. by rewrite E.
  - cbn [VRChatManager.handle mbind result_bind]. intros [= <-].
    unfold fresh. cbn [fst snd]. rewrite Hfresh.
    unfold VRChatManager.refresh_avatar_panels.
    by destruct (VRChatManager.filtered_avatars self).
  - intros E. assert (s' = with_pagination PaginationWidget.prev_page true (self, ui))
      as -> by congruence.
    unfold with_pagination, PaginationWidget.prev_page.
    destruct (_ >? 1); cbv beta iota; [|by destruct self]. by apply change_page_fresh.
  - intros E. assert (s' = with_pagination PaginationWidget.next_page true (self, ui))
      as -> by congruence.
    unfold with_pagination, PaginationWidget.next_page.
    destruct (_ <? _); cbv beta iota; [|by destruct self]. by apply change_page_fresh.
  - intros E.
    assert (s' = with_pagination (PaginationWidget.change_items_per_page index) false
                   (self, ui)) as -> by congruence.
    unfold with_pagination, PaginationWidget.change_items_per_page. cbv zeta.
    destruct (negb _); cbv beta iota; [|by destruct self]. apply change_page_fresh.
    cbn [VRChatManager.set_pagination VRChatManager.filtered_avatars VRChatManager.pagination].
    intros Hempty. destruct (invariant_empty self Hinv Hempty) as [Ht Hc].
    rewrite Hfresh. unfold update_ui. cbn [PaginationWidget.current_page
      PaginationWidget.total_pages]. by rewrite Hc.
Qed.

Lemma reachable_fresh (s : shown) : reachable s → fresh s.
Proof.
  induction 1 as [|event s s' Hreach IH Hstep]; [done|].
  apply (handle_fresh event s s'); [|exact IH | exact Hstep].
  apply reachable_invariant, reachable_window, Hreach.
Qed.

Lemma run_shown_reachable (events : list VRChatManager.Event) (s s' : shown) :
  reachable s → run events s = Return s' → reachable s'.
Proof.
  revert s. induction events as [|event rest IH]; intros s Hreach.
  - by intros [= <-].
  - cbn [run]. destruct (handle event s) as [next|] eqn:E; [|done].
    intros Hrun. apply (IH next); [|exact Hrun].
    exact (reachable_step event s next Hreach E).
Qed.

(** X20.  The page label and the two buttons never go stale: in every state
    the window reaches, the label shows the page the window is on and the
    page count of the widget, Previous is enabled exactly when the window
    is past page 1 and Next exactly when it is before the last page; and a
    click on a button that is shown disabled changes nothing. *)
Theorem label_shows_the_page (self : VRChatManager.t) (ui : t)
    (Hreach : reachable (self, ui)) :
  page_label ui =
    (VRChatManager.current_page self,
     PaginationWidget.total_pages (VRChatManager.pagination self))
  ∧ (prev_enabled ui = true ↔ 1 < VRChatManager.current_page self)
  ∧ (next_enabled ui = true ↔
     VRChatManager.current_page self <
       PaginationWidget.total_pages (VRChatManager.pagination self))
  ∧ (prev_enabled ui = false →
     handle VRChatManager.PrevClicked (self, ui) = Return (self, ui))
  ∧ (next_enabled ui = false →
     handle VRChatManager.NextClicked (self, ui) = Return (self, ui)).
Proof.
  pose proof (reachable_fresh _ Hreach) as Hfresh. unfold fresh in Hfresh.
  cbn [fst snd] in Hfresh.
  destruct (reachable_synced self (reachable_window _ Hreach)) as [Hpage _].
  rewrite Hfresh, Hpage. unfold update_ui.
  cbn [page_label prev_enabled next_enabled].
  split; [done|]. split; [apply Z.gtb_lt|]. split; [apply Z.ltb_lt|].
  split; intros E; cbn [handle]; f_equal; unfold with_pagination.
  - unfold PaginationWidget.prev_page. rewrite E. by destruct self.
  - unfold PaginationWidget.next_page. rewrite E. by destruct self.
Qed.

Lemma label_shows_the_page_witness :
  ∃ self ui,
    run Paging.sixty_fetched init = Return (self, ui)
    ∧ page_label ui =
        (VRChatManager.current_page self,
         PaginationWidget.total_pages (VRChatManager.pagination self))
    ∧ (prev_enabled ui = true ↔ 1 < VRChatManager.current_page self)
    ∧ (next_enabled ui = true ↔
       VRChatManager.current_page self <
         PaginationWidget.total_pages (VRChatManager.pagination self))
    ∧ (prev_enabled ui = false →
       handle VRChatManager.PrevClicked (self, ui) = Return (self, ui))
    ∧ (next_enabled ui = false →
       handle VRChatManager.NextClicked (self, ui) = Return (self, ui)).
Proof.
  eexists _, _. split; [reflexivity|].
  apply label_shows_the_page.
  apply (run_shown_reachable Paging.sixty_fetched init); [apply reachable_init | reflexivity].
Defined.

End PaginationUiFacts.

(** *** From the avatar card to the file *)
Section EndToEnd.
Import Py Text AvatarDownload FileDownload DownloadTab SaveDialog.

(** X21.  From the avatar card to the file: for a record that resolves to
    a string URL, the URL and the path chosen in the save dialog being
    ASCII text, with a session set, the slot and the download it schedules
    either change nothing (the save dialog was dismissed) or, when the
    stripped URL is not empty, the server answers 200 and the stripped
    path opens, send exactly one request, for the resolved URL with the
    security variant cut off and stripped, and leave its body, whole, at
    the stripped path, every other file untouched. *)
Theorem avatar_download_end_to_end (server : string → Response) (can_open : string → bool)
    (ask_save : string → string) (avatar_data : gmap string value) (url : string)
    (w : World)
    (Hresolved : resolve_download_url avatar_data = Return (Found (VStr url)))
    (Hname : VRChatManager.text_field_typed "name" avatar_data = true)
    (Hascii_url : isascii url = true)
    (Hascii_path :
       isascii (ask_save (sanitize (name_of avatar_data) +:+ ".vrca")) = true) :
  let file_path := ask_save (sanitize (name_of avatar_data) +:+ ".vrca") in
  let file_url := strip (fix_url url) in
  let w' := avatar_slot_download server can_open ask_save true (Some avatar_data) w in
  (file_path = ""%string → w' = w)
  ∧ (file_path ≠ ""%string → file_url = ""%string → w' = w)
  ∧ (file_path ≠ ""%string → file_url ≠ ""%string →
     status_code (server file_url) = 200 → can_open (strip file_path) = true →
     requested w' = requested w ++ [file_url]
     ∧ files w' = <[strip file_path := body (server file_url)]> (files w)).
Proof.
  intros file_path file_url w'. unfold w', avatar_slot_download.
  rewrite (slot_outcome ask_save avatar_data url Hresolved Hname). fold file_path.
  split; [by intros ->|].
  split.
  - intros Hpath Hurl. apply String.eqb_neq in Hpath. rewrite Hpath.
    unfold download, download_file. cbn [negb]. fold file_url. by rewrite Hurl.
  - intros Hpath Hurl Hstatus Hopen.
    apply String.eqb_neq in Hpath. rewrite Hpath.
    unfold download, download_file. cbn [negb]. fold file_url.
    apply String.eqb_neq in Hurl. rewrite Hurl.
    assert (fix_url file_url = file_url) as Hfixed by apply fix_url_of_stripped.
    rewrite <- Hfixed in Hstatus.
    rewrite (download_completes server can_open file_url (strip file_path) w Hstatus Hopen).
    cbn [fst]. rewrite write_chunks_requested, write_chunks_fresh, Hfixed. done.
Qed.

Lemma avatar_download_end_to_end_witness :
  let file_path := "out.vrca"%string in
  let file_url := strip (fix_url "https://files/1/file") in
  let w' := avatar_slot_download serve_1600k always_opens (λ _, "out.vrca"%string) true
              (Some record_named) world_with_file in
  (file_path = ""%string → w' = world_with_file)
  ∧ (file_path ≠ ""%string → file_url = ""%string → w' = world_with_file)
  ∧ (file_path ≠ ""%string → file_url ≠ ""%string →
     status_code (serve_1600k file_url) = 200 → always_opens (strip file_path) = true →
     requested w' = requested world_with_file ++ [file_url]
     ∧ files w' = <[strip file_path := body (serve_1600k file_url)]> (files world_with_file)).
Proof.
  exact (avatar_download_end_to_end serve_1600k always_opens (λ _, "out.vrca"%string)
           record_named "https://files/1/file" world_with_file eq_refl eq_refl
           eq_refl eq_refl).
Defined.

End EndToEnd.
